(** * mojo-crm: custom fields, audit trail, repositories and transactions

    A shallow embedding of the data-access foundation of the CRM
    (validation/custom-fields, utils/audit, utils/error-handler,
    utils/transaction, the repositories and the services) together with the
    properties its specification states about them.

    The records the code builds and reads field by field (rows, entities,
    inputs) are finite maps over their own enumerable properties; an object
    held as a value keeps its own properties in order, and where the code
    reads or writes a property under a computed name, what every object
    inherits from [Object.prototype] is part of the model. Numbers are
    IEEE-754 values ([spec_float]); [async] functions are run to completion,
    so a rejected promise is an [Err] result and a resolved one an [Ok]
    result. *)

From Stdlib Require Import ZArith String List Bool.
From Stdlib Require Import Floats.SpecFloat.
From stdpp Require Import gmap strings list fin_maps.

#[local] Set Warnings "-register-all".
#[local] Open Scope string_scope.

(** ** JavaScript values *)

Module Js.

Inductive JsValue : Type :=
  | JUndefined
  | JNull
  | JBool (b : bool)
  | JNum (x : spec_float)
  | JStr (s : string)
  | JDate (time : spec_float)
  | JArr (items : list JsValue)
  (** an object, by its own enumerable properties in property order *)
  | JObj (fields : list (string * JsValue))
  (** a function; the code meets only the methods every object inherits,
      named here as [Object.prototype] names them *)
  | JFunction (name : string).

(** [typeof value] *)
Definition typeof (v : JsValue) : string :=
  match v with
  | JUndefined => "undefined"
  | JNull => "object"
  | JBool _ => "boolean"
  | JNum _ => "number"
  | JStr _ => "string"
  | JDate _ => "object"
  | JArr _ => "object"
  | JObj _ => "object"
  | JFunction _ => "function"
  end.

(** NaN test on an IEEE-754 value. *)
Definition float_isNaN (x : spec_float) : bool :=
  match x with
  | S754_nan => true
  | _ => false
  end.

(** [Number.isFinite]: neither NaN nor an infinity. *)
Definition float_isFinite (x : spec_float) : bool :=
  match x with
  | S754_zero _ => true
  | S754_finite _ _ _ => true
  | S754_infinity _ => false
  | S754_nan => false
  end.

(** [value === null || value === undefined] *)
Definition isNullish (v : JsValue) : bool :=
  match v with
  | JUndefined => true
  | JNull => true
  | _ => false
  end.

(** ToBoolean, as used by [if (x)], [!x], [a || b] and [c ? a : b]. *)
Definition truthy (v : JsValue) : bool :=
  match v with
  | JUndefined => false
  | JNull => false
  | JBool b => b
  | JNum x =>
      match x with
      | S754_zero _ => false
      | S754_nan => false
      | _ => true
      end
  | JStr s => negb (String.eqb s "")
  | JDate _ => true
  | JArr _ => true
  | JObj _ => true
  | JFunction _ => true
  end.

(** [a || b] *)
Definition jsOr (a b : JsValue) : JsValue := if truthy a then a else b.

(** [obj.key], for the property names the code writes out (none of them is a
    name of [Object.prototype]): [undefined] when absent. *)
Definition getProp (obj : gmap string JsValue) (key : string) : JsValue :=
  default JUndefined (obj !! key).

(** The property names every plain object inherits from [Object.prototype]. *)
Definition Object_prototype : list string :=
  ["constructor"; "__defineGetter__"; "__defineSetter__"; "hasOwnProperty";
   "__lookupGetter__"; "__lookupSetter__"; "isPrototypeOf"; "propertyIsEnumerable";
   "toString"; "valueOf"; "__proto__"; "toLocaleString"].

Definition inherited (key : string) : bool := existsb (String.eqb key) Object_prototype.

(** [key in obj], for a plain object with these own property names. *)
Definition hasProperty (own : list string) (key : string) : bool :=
  existsb (String.eqb key) own || inherited key.

(** [obj[key]] under a computed name: the own property, else what the
    prototype gives, which is [Object.prototype] itself under [__proto__] and
    a method under the other inherited names. *)
Definition member (obj : gmap string JsValue) (key : string) : JsValue :=
  match obj !! key with
  | Some v => v
  | None =>
      if String.eqb key "__proto__" then JObj []
      else if inherited key then JFunction key
      else JUndefined
  end.

(** [obj[key] = value] under a computed name, on a plain object with own
    properties only: under [__proto__] the assignment goes to the setter of
    [Object.prototype] and adds no property. *)
Definition assign {A : Type} (obj : gmap string A) (key : string) (value : A)
  : gmap string A :=
  if String.eqb key "__proto__" then obj else <[key := value]> obj.

(** A record as a value, its fields in the order the map lists them. *)
Definition objectOf (record : gmap string JsValue) : JsValue :=
  JObj (map_to_list record).

(** Objects and arrays: converting one to a primitive runs its [valueOf] and
    [toString], which can throw; on the other values of the model
    [String(value)], [Number(value)] and [new Date(value)] go through. *)
Definition isObjectLike (v : JsValue) : bool :=
  match v with
  | JArr _ => true
  | JObj _ => true
  | _ => false
  end.

(** [isNaN(value)] where [value] is a number, the only place it is called
    ([typeof value !== 'number' ||] short-circuits before it otherwise). *)
Definition isNaN (v : JsValue) : bool :=
  match v with
  | JNum x => float_isNaN x
  | _ => false
  end.

(** [value !== undefined] *)
Definition isDefined (v : JsValue) : bool :=
  match v with
  | JUndefined => false
  | _ => true
  end.

(** [array.includes(value)] for an array of strings: SameValueZero only ever
    equates a string with a string. *)
Definition includesString (arr : list string) (v : JsValue) : bool :=
  match v with
  | JStr s => bool_decide (s ∈ arr)
  | _ => false
  end.

(** [array.join(sep)] for an array of strings. *)
Definition join (sep : string) (arr : list string) : string :=
  String.concat sep arr.

End Js.
Export Js.

(** ** Error taxonomy (errors.ts) *)

(** What the PostgreSQL driver throws: the fields of the error object the
    handlers read, absent ones being [None]. *)
Record PgError := mkPgError {
  pg_code : option string;
  pg_detail : option string;
  pg_constraint : option string;
  pg_column : option string
}.

Inductive Error : Type :=
  | ValidationError (message : string) (fields : gmap string (list string))
  | NotFoundError (entityType entityId : string)
  | DatabaseError (message : string) (originalError : Error)
  | ConstraintViolationError (message constraint : string)
  | PgDriverError (e : PgError)
  | JsError (name message : string).

(** [error instanceof X] *)
Definition isValidationError (e : Error) : bool :=
  match e with ValidationError _ _ => true | _ => false end.
Definition isNotFoundError (e : Error) : bool :=
  match e with NotFoundError _ _ => true | _ => false end.
Definition isDatabaseError (e : Error) : bool :=
  match e with DatabaseError _ _ => true | _ => false end.
Definition isConstraintViolationError (e : Error) : bool :=
  match e with ConstraintViolationError _ _ => true | _ => false end.

(** The outcome of a call: it throws or it returns. *)
Inductive Result (A : Type) : Type :=
  | Err (e : Error)
  | Ok (a : A).
Arguments Err {A} e.
Arguments Ok {A} a.

(** ** Custom field definitions and their validation
    (validation/custom-fields.ts) *)

Record CustomFieldDefinition := mkCustomFieldDefinition {
  cfd_id : string;
  cfd_name : string;
  cfd_label : string;
  cfd_entityType : string;
  cfd_fieldType : string;
  cfd_enumValues : option (list string);
  cfd_required : bool;
  cfd_createdAt : JsValue;
  cfd_createdBy : string
}.

Record FieldValidation := mkFieldValidation {
  valid : bool;
  error : option string
}.

Definition accept : FieldValidation := mkFieldValidation true None.
Definition reject (msg : string) : FieldValidation := mkFieldValidation false (Some msg).

Module CustomFields.
Section Validation.

(** The time value of [new Date(value)]; NaN for an invalid date. Built into
    the runtime, so taken as given. *)
Variable Date_getTime : JsValue -> spec_float.

(** Whether [new Date(value)] throws for an object or an array: its
    conversion to a primitive does when neither [valueOf] nor [toString]
    yields one. *)
Variable Date_throws : JsValue -> bool.

(** What the runtime throws then. *)
Definition conversionError : Error :=
  JsError "TypeError" "Cannot convert object to primitive value".

(** The [switch (definition.fieldType)] of [validateCustomFieldValue]: the
    check that belongs to the field kind. *)
Definition kindCheck (definition : CustomFieldDefinition) (value : JsValue)
  : Result FieldValidation :=
  let label := cfd_label definition in
  if String.eqb (cfd_fieldType definition) "text" then
    if negb (String.eqb (typeof value) "string")
    then Ok (reject ("Field '" ++ label ++ "' must be a string"))
    else Ok accept
  else if String.eqb (cfd_fieldType definition) "number" then
    if negb (String.eqb (typeof value) "number") || isNaN value
    then Ok (reject ("Field '" ++ label ++ "' must be a number"))
    else Ok accept
  else if String.eqb (cfd_fieldType definition) "date" then
    if isObjectLike value && Date_throws value then Err conversionError
    else if float_isNaN (Date_getTime value)
    then Ok (reject ("Field '" ++ label ++ "' must be a valid date"))
    else Ok accept
  else if String.eqb (cfd_fieldType definition) "boolean" then
    if negb (String.eqb (typeof value) "boolean")
    then Ok (reject ("Field '" ++ label ++ "' must be a boolean"))
    else Ok accept
  else if String.eqb (cfd_fieldType definition) "enum" then
    match cfd_enumValues definition with
    | None =>
        Ok (reject ("Field '" ++ label ++ "' must be one of: " ++ "undefined"))
    | Some legal =>
        if negb (includesString legal value)
        then Ok (reject ("Field '" ++ label ++ "' must be one of: " ++ join ", " legal))
        else Ok accept
    end
  else Ok (reject ("Unknown field type: " ++ cfd_fieldType definition)).

Definition validateCustomFieldValue
    (definition : CustomFieldDefinition) (value : JsValue) : Result FieldValidation :=
  if isNullish value then
    if cfd_required definition
    then Ok (reject ("Field '" ++ cfd_label definition ++ "' is required"))
    else Ok accept
  else kindCheck definition value.

(** What [errors[k].push(msg)] throws when [errors[k]] is not an array. *)
Definition notAFunction (target : string) : Error :=
  JsError "TypeError" (target ++ ".push is not a function").

(** [if (!errors[k]) errors[k] = []; errors[k].push(msg)] on [errors = {}]:
    under a name [Object.prototype] has, [errors[k]] is the inherited member,
    which is truthy and has no [push]. [target] is the text of [errors[k]] in
    the source. *)
Definition pushError (target : string) (errors : gmap string (list string))
    (k msg : string) : Result (gmap string (list string)) :=
  match errors !! k with
  | Some messages => Ok (<[k := (messages ++ [msg])%list]> errors)
  | None =>
      if inherited k then Err (notAFunction target)
      else Ok (<[k := [msg]]> errors)
  end.

(** A loop whose body may throw. *)
Fixpoint forEach {A S : Type} (body : S -> A -> Result S) (items : list A) (s : S)
  : Result S :=
  match items with
  | [] => Ok s
  | item :: rest =>
      match body s item with
      | Err e => Err e
      | Ok s' => forEach body rest s'
      end
  end.

(** [definitions.find(d => d.name === fieldName)] *)
Definition findDefinition (definitions : list CustomFieldDefinition)
    (fieldName : string) : option CustomFieldDefinition :=
  List.find (fun d => String.eqb (cfd_name d) fieldName) definitions.

(** Body of the loop over [Object.entries(customFields)]. *)
Definition checkEntry (definitions : list CustomFieldDefinition)
    (errors : gmap string (list string)) (entry : string * JsValue)
  : Result (gmap string (list string)) :=
  let '(fieldName, value) := entry in
  match findDefinition definitions fieldName with
  | None =>
      pushError "errors[fieldName]" errors fieldName ("Unknown custom field: " ++ fieldName)
  | Some definition =>
      match validateCustomFieldValue definition value with
      | Err e => Err e
      | Ok validation =>
          if negb (valid validation)
          then pushError "errors[fieldName]" errors fieldName
                 (default "undefined" (error validation))
          else Ok errors
      end
  end.

(** Body of the loop over [definitions]; [customFields] is the candidate
    object, by its own properties. *)
Definition checkRequired (customFields : list (string * JsValue))
    (errors : gmap string (list string)) (definition : CustomFieldDefinition)
  : Result (gmap string (list string)) :=
  if cfd_required definition
     && negb (hasProperty (List.map fst customFields) (cfd_name definition))
  then pushError "errors[definition.name]" errors (cfd_name definition)
         ("Required field '" ++ cfd_label definition ++ "' is missing")
  else Ok errors.

(** The [errors] object as it stands after both loops, unless one throws. *)
Definition collectErrors (definitions : list CustomFieldDefinition)
    (customFields : list (string * JsValue)) : Result (gmap string (list string)) :=
  match forEach (checkEntry definitions) customFields ∅ with
  | Err e => Err e
  | Ok errors => forEach (checkRequired customFields) definitions errors
  end.

Definition validateCustomFields (definitions : list CustomFieldDefinition)
    (customFields : list (string * JsValue)) : Result unit :=
  match collectErrors definitions customFields with
  | Err e => Err e
  | Ok errors =>
      if bool_decide (0 < size errors)
      then Err (ValidationError "Custom field validation failed" errors)
      else Ok tt
  end.

(** [cleanCustomFieldValue], the companion coercion, is modelled with the
    other helpers further down. *)

(** *** What the specification says of a candidate

    Stated on the definitions and the values alone, to be compared with the
    code above. *)

(** The definition a candidate key is checked against: the first of that
    name. *)
Definition definitionOf (definitions : list CustomFieldDefinition) (k : string)
    (d : CustomFieldDefinition) : Prop :=
  exists earlier later,
    definitions = (earlier ++ d :: later)%list
    /\ cfd_name d = k
    /\ forall d', In d' earlier -> cfd_name d' <> k.

(** No definition is named [k]. *)
Definition undefinedName (definitions : list CustomFieldDefinition) (k : string) : Prop :=
  forall d, In d definitions -> cfd_name d <> k.

(** The value does not pass the check of the definition's kind. *)
Inductive failsKind (d : CustomFieldDefinition) (v : JsValue) : Prop :=
  | text_wants_a_string :
      cfd_fieldType d = "text" -> (forall s, v <> JStr s) -> failsKind d v
  | number_wants_a_number :
      cfd_fieldType d = "number" -> (forall x, v = JNum x -> x = S754_nan) -> failsKind d v
  | date_wants_a_valid_date :
      cfd_fieldType d = "date" -> Date_getTime v = S754_nan -> failsKind d v
  | boolean_wants_a_boolean :
      cfd_fieldType d = "boolean" -> (forall b, v <> JBool b) -> failsKind d v
  | enum_wants_a_listed_string :
      cfd_fieldType d = "enum" ->
      (forall s legal, v = JStr s -> cfd_enumValues d = Some legal -> ~ In s legal) ->
      failsKind d v
  | kind_is_unknown :
      ~ In (cfd_fieldType d) ["text"; "number"; "date"; "boolean"; "enum"] -> failsKind d v.

(** Checking the value throws: a date field given an object or an array the
    runtime cannot convert to a primitive. *)
Definition conversionThrows (d : CustomFieldDefinition) (v : JsValue) : Prop :=
  cfd_fieldType d = "date" /\ isObjectLike v = true /\ Date_throws v = true.

(** The value is turned down for the definition: null or undefined where the
    field is required, any other value where it fails the kind's check. *)
Definition rejected (d : CustomFieldDefinition) (v : JsValue) : Prop :=
  (isNullish v = true /\ cfd_required d = true)
  \/ (isNullish v = false /\ ~ conversionThrows d v /\ failsKind d v).

(** The candidate has a key no definition is named after. *)
Definition unknownKey (definitions : list CustomFieldDefinition)
    (customFields : list (string * JsValue)) (k : string) : Prop :=
  (exists v, In (k, v) customFields) /\ undefinedName definitions k.

(** The candidate's value under [k] is turned down for the definition named
    [k]. *)
Definition rejectedValue (definitions : list CustomFieldDefinition)
    (customFields : list (string * JsValue)) (k : string) : Prop :=
  exists v d, In (k, v) customFields /\ definitionOf definitions k d /\ rejected d v.

(** The candidate's value under [k] does not pass the kind's own check. *)
Definition failsKindCheck (definitions : list CustomFieldDefinition)
    (customFields : list (string * JsValue)) (k : string) : Prop :=
  exists v d, In (k, v) customFields /\ definitionOf definitions k d /\ failsKind d v.

(** A required definition is named [k] and the candidate has no such key. *)
Definition missingRequired (definitions : list CustomFieldDefinition)
    (customFields : list (string * JsValue)) (k : string) : Prop :=
  exists d, In d definitions /\ cfd_required d = true /\ cfd_name d = k
            /\ forall v, ~ In (k, v) customFields.

(** The field names the error mapping answers for: an unknown key, a value
    turned down, a required name that is neither a key of the candidate nor a
    name the candidate inherits. *)
Definition atFault (definitions : list CustomFieldDefinition)
    (customFields : list (string * JsValue)) (k : string) : Prop :=
  unknownKey definitions customFields k
  \/ rejectedValue definitions customFields k
  \/ (missingRequired definitions customFields k /\ inherited k = false).

(** One candidate entry is at fault: no definition is named after its key,
    or its value is turned down for the definition of that name. *)
Definition entryAtFault (definitions : list CustomFieldDefinition)
    (k : string) (v : JsValue) : Prop :=
  undefinedName definitions k
  \/ exists d, definitionOf definitions k d /\ rejected d v.

(** A candidate entry on which the validation breaks off with a TypeError:
    its value cannot be converted for the date check, or the entry is at
    fault under a name [Object.prototype] has, where the error cannot be
    recorded. *)
Definition entryBreaks (definitions : list CustomFieldDefinition)
    (k : string) (v : JsValue) : Prop :=
  (exists d, definitionOf definitions k d /\ conversionThrows d v)
  \/ (inherited k = true /\ entryAtFault definitions k v).

Definition breaks (definitions : list CustomFieldDefinition)
    (customFields : list (string * JsValue)) : Prop :=
  exists k v, In (k, v) customFields /\ entryBreaks definitions k v.

End Validation.
End CustomFields.

(** ** Calls that thread a state and may throw *)

Definition M (S A : Type) : Type := S -> Result A * S.

Definition ret {S A : Type} (a : A) : M S A := fun s => (Ok a, s).

Definition throw {S A : Type} (e : Error) : M S A := fun s => (Err e, s).

Definition bind {S A B : Type} (m : M S A) (k : A -> M S B) : M S B :=
  fun s =>
    match m s with
    | (Ok a, s') => k a s'
    | (Err e, s') => (Err e, s')
    end.

(** [try { m } catch (error) { handler(error) }] *)
Definition tryCatch {S A : Type} (m : M S A) (handler : Error -> M S A) : M S A :=
  fun s =>
    match m s with
    | (Ok a, s') => (Ok a, s')
    | (Err e, s') => handler e s'
    end.

(** [try { m } finally { cleanup }]: the cleanup runs on both exits and the
    outcome of [m] stands unless the cleanup itself throws. *)
Definition tryFinally {S A : Type} (m : M S A) (cleanup : M S unit) : M S A :=
  fun s =>
    match m s with
    | (r, s') =>
        match cleanup s' with
        | (Ok _, s'') => (r, s'')
        | (Err e, s'') => (Err e, s'')
        end
    end.

Notation "x <- m ;; k" := (bind m (fun x => k))
  (at level 100, m at next level, right associativity).

(** ** The relational store (pg) and what else the code takes from outside *)

Abbreviation Row := (gmap string JsValue).
Abbreviation Entity := (gmap string JsValue).
Abbreviation Store := (gmap string (list (gmap string JsValue))).

(** The statements the repositories send. [UpdateReturning] carries the
    [SET column = $n] pairs and the columns set to [NOW()]. *)
Inductive Statement : Type :=
  | InsertReturning (table : string) (values : list (string * JsValue))
  | SelectById (table : string) (id : string)
  | SelectWhere (table : string) (conditions : list (string * JsValue))
  | UpdateReturning (table : string) (assignments : list (string * JsValue))
      (nowColumns : list string) (id : string)
  | DeleteById (table : string) (id : string).

Record QueryResult := mkQueryResult {
  rows : list (gmap string JsValue);
  rowCount : nat
}.

(** The table a statement is addressed to. *)
Definition statementTable (st : Statement) : string :=
  match st with
  | InsertReturning table _ => table
  | SelectById table _ => table
  | SelectWhere table _ => table
  | UpdateReturning table _ _ _ => table
  | DeleteById table _ => table
  end.

Inductive Schema : Type :=
  | createContactSchema | updateContactSchema
  | createCompanySchema | updateCompanySchema
  | createDealSchema | updateDealSchema
  | createTaskSchema | updateTaskSchema
  | createNoteSchema | updateNoteSchema
  | createCustomFieldDefinitionSchema.

(** External collaborators: built-ins of the JavaScript runtime, the schema
    engine (zod) and the behaviour of PostgreSQL that is not fixed by the
    statement alone. *)
Record Platform := mkPlatform {
  (** time value of [new Date(value)] *)
  Date_getTime : JsValue -> spec_float;
  (** [new Date(value)] throws, for an object or array it cannot convert *)
  Date_throws : JsValue -> bool;
  (** [JSON.stringify(value)], [None] standing for [undefined] *)
  JSON_stringify : JsValue -> option string;
  (** what a jsonb column holding this text reads back as *)
  JSON_parse : string -> JsValue;
  (** [parseFloat(value)] *)
  parseFloat : JsValue -> spec_float;
  (** [schema.parse(data)] behind [validateData] *)
  validateData : Schema -> gmap string JsValue -> Result (gmap string JsValue);
  (** the store turning a statement down: a constraint violation, a malformed
      literal, a lost connection *)
  pgRefuses : Statement -> Store -> option PgError;
  (** [gen_random_uuid()] and [NOW()] at the time of the statement *)
  gen_random_uuid : Store -> string;
  NOW : Store -> JsValue;
  (** the text a decimal column reads back as *)
  decimal_out : spec_float -> string;
  (** [ORDER BY created_at DESC] *)
  orderByCreatedAtDesc : list (gmap string JsValue) -> list (gmap string JsValue)
}.

(** [new Date(value)] *)
Definition newDate (P : Platform) (v : JsValue) : JsValue := JDate (Date_getTime P v).

(** [JSON.stringify(value)] as a value. *)
Definition stringify (P : Platform) (v : JsValue) : JsValue :=
  match JSON_stringify P v with
  | Some s => JStr s
  | None => JUndefined
  end.

Module Pg.

Definition jsonbColumns : list string := ["address"; "custom_fields"; "changes"].
Definition decimalColumns : list string := ["value"].

(** A bound parameter as the column keeps it and a later read returns it. *)
Definition storeValue (P : Platform) (column : string) (v : JsValue) : JsValue :=
  match v with
  | JUndefined => JNull
  | JStr s => if bool_decide (column ∈ jsonbColumns) then JSON_parse P s else JStr s
  | JNum x => if bool_decide (column ∈ decimalColumns) then JStr (decimal_out P x) else JNum x
  | _ => v
  end.

Definition storeColumn (P : Platform) (cv : string * JsValue) : string * JsValue :=
  (fst cv, storeValue P (fst cv) (snd cv)).

Definition tableRows (table : string) (db : Store) : list Row :=
  default [] (db !! table).

(** Columns the migration fills by default and no INSERT of the repositories
    names: the generated id and the timestamps. *)
Definition generatedColumns (P : Platform) (table : string) (db : Store)
  : list (string * JsValue) :=
  ("id", JStr (gen_random_uuid P db))
  :: (if String.eqb table "audit_logs" then [("timestamp", NOW P db)]
      else if String.eqb table "custom_field_definitions" then [("created_at", NOW P db)]
      else [("created_at", NOW P db); ("updated_at", NOW P db)]).

(** [column = $n] for a text or uuid parameter. *)
Definition columnIs (column : string) (v : JsValue) (row : Row) : bool :=
  match row !! column, v with
  | Some (JStr a), JStr b => String.eqb a b
  | _, _ => false
  end.

Definition rowHasId (id : string) (row : Row) : bool := columnIs "id" (JStr id) row.

Definition applyUpdate (P : Platform) (db : Store)
    (assignments : list (string * JsValue)) (nowColumns : list string) (row : Row) : Row :=
  let row1 := fold_left (fun r cv => <[fst cv := storeValue P (fst cv) (snd cv)]> r)
                assignments row in
  fold_left (fun r c => <[c := NOW P db]> r) nowColumns row1.

(** ON DELETE rules of the migration: deals go with their company, contacts
    and deals lose the reference to a deleted company or contact. *)
Definition referentialActions (table id : string) (db : Store) : Store :=
  if String.eqb table "companies" then
    let db1 := <["deals" := List.filter (fun r => negb (columnIs "company_id" (JStr id) r))
                              (tableRows "deals" db)]> db in
    <["contacts" := List.map (fun r => if columnIs "company_id" (JStr id) r
                                       then <["company_id" := JNull]> r else r)
                      (tableRows "contacts" db1)]> db1
  else if String.eqb table "contacts" then
    <["deals" := List.map (fun r => if columnIs "contact_id" (JStr id) r
                                    then <["contact_id" := JNull]> r else r)
                   (tableRows "deals" db)]> db
  else db.

(** What an accepted statement does and returns. *)
Definition runStatement (P : Platform) (st : Statement) (db : Store)
  : QueryResult * Store :=
  match st with
  | InsertReturning table values =>
      let row : Row := list_to_map (List.map (storeColumn P) values
                                      ++ generatedColumns P table db)%list in
      (mkQueryResult [row] 1, <[table := (tableRows table db ++ [row])%list]> db)
  | SelectById table id =>
      let found := List.filter (rowHasId id) (tableRows table db) in
      (mkQueryResult found (length found), db)
  | SelectWhere table conditions =>
      let found := List.filter
                     (fun r => forallb (fun cv => columnIs (fst cv) (snd cv) r) conditions)
                     (tableRows table db) in
      (mkQueryResult (orderByCreatedAtDesc P found) (length found), db)
  | UpdateReturning table assignments nowColumns id =>
      let change := applyUpdate P db assignments nowColumns in
      let changed := List.map change (List.filter (rowHasId id) (tableRows table db)) in
      (mkQueryResult changed (length changed),
       <[table := List.map (fun r => if rowHasId id r then change r else r)
                    (tableRows table db)]> db)
  | DeleteById table id =>
      let gone := List.filter (rowHasId id) (tableRows table db) in
      match gone with
      | [] => (mkQueryResult [] 0, db)
      | _ :: _ =>
          (mkQueryResult [] (length gone),
           referentialActions table id
             (<[table := List.filter (fun r => negb (rowHasId id r)) (tableRows table db)]> db))
      end
  end.

(** [await db.query(text, values)] *)
Definition query (P : Platform) (st : Statement) : M Store QueryResult :=
  fun db =>
    match pgRefuses P st db with
    | Some e => (Err (PgDriverError e), db)
    | None => let '(r, db') := runStatement P st db in (Ok r, db')
    end.

End Pg.

(** ** Repositories (repositories/*.repository.ts) *)

(** What differs from one repository class to the next. *)
Record RepoSpec (T : Type) := mkRepoSpec {
  repo_table : string;
  (** the name given to [NotFoundError] *)
  repo_entityName : string;
  (** the [values] array of [create], by column *)
  repo_insertValues : gmap string JsValue -> string -> list (string * JsValue);
  (** the fields [update] recognises: property, column, value bound *)
  repo_updateFields : list (string * string * (JsValue -> JsValue));
  (** whether [update] also sets [updated_at = NOW()] and [updated_by] *)
  repo_stampsUpdate : bool;
  (** the [mapRowTo...] method *)
  repo_mapRow : gmap string JsValue -> T;
  (** the message [handleDatabaseError] gives a uniqueness violation *)
  repo_uniqueMessage : string
}.
Arguments repo_table {T} _.
Arguments repo_entityName {T} _.
Arguments repo_insertValues {T} _ _ _.
Arguments repo_updateFields {T} _.
Arguments repo_stampsUpdate {T} _.
Arguments repo_mapRow {T} _ _.
Arguments repo_uniqueMessage {T} _.

(** [error.code], [error.constraint], ... of a caught value: only what the
    driver throws has them. *)
Definition errorCode (e : Error) : option string :=
  match e with PgDriverError p => pg_code p | _ => None end.
Definition errorConstraint (e : Error) : option string :=
  match e with PgDriverError p => pg_constraint p | _ => None end.
Definition errorDetail (e : Error) : option string :=
  match e with PgDriverError p => pg_detail p | _ => None end.
Definition errorColumn (e : Error) : option string :=
  match e with PgDriverError p => pg_column p | _ => None end.

(** [text || fallback] for an optional string. *)
Definition orElse (o : option string) (fallback : string) : string :=
  match o with
  | Some s => if String.eqb s "" then fallback else s
  | None => fallback
  end.

(** [error.code === code] *)
Definition hasCode (e : Error) (code : string) : bool :=
  match errorCode e with
  | Some c => String.eqb c code
  | None => false
  end.

Module Repository.
Section Generic.

Context {T : Type}.
Variable P : Platform.
Variable R : RepoSpec T.

(** The private [handleDatabaseError] every repository class carries. *)
Definition handleDatabaseError (error : Error) : Error :=
  if hasCode error "23503" then
    ConstraintViolationError "Foreign key constraint violation"
      (orElse (errorConstraint error) "unknown")
  else if hasCode error "23505" then
    ConstraintViolationError (repo_uniqueMessage R)
      (orElse (errorConstraint error) "unknown")
  else if hasCode error "23514" then
    ConstraintViolationError "Check constraint violation"
      (orElse (errorConstraint error) "unknown")
  else DatabaseError "Database operation failed" error.

(** [this.mapRowTo...(result.rows[0])]; reading a property of the missing
    first row is a TypeError. *)
Definition mapFirstRow (result : QueryResult) : M Store T :=
  match rows result with
  | row :: _ => ret (repo_mapRow R row)
  | [] => throw (JsError "TypeError" "Cannot read properties of undefined")
  end.

Definition create (data : gmap string JsValue) (userId : string) : M Store T :=
  tryCatch
    (result <- Pg.query P (InsertReturning (repo_table R) (repo_insertValues R data userId)) ;;
     mapFirstRow result)
    (fun error => throw (handleDatabaseError error)).

Definition findById (id : string) : M Store (option T) :=
  tryCatch
    (result <- Pg.query P (SelectById (repo_table R) id) ;;
     match rows result with
     | [] => ret None
     | row :: _ => ret (Some (repo_mapRow R row))
     end)
    (fun error => throw (handleDatabaseError error)).

(** The [updates]/[values] pair [update] builds from the recognised fields
    that are not [undefined] in [data]. *)
Definition collectUpdates (data : gmap string JsValue) : list (string * JsValue) :=
  flat_map
    (fun f => let '(field, column, bound) := f in
              if isDefined (getProp data field)
              then [(column, bound (getProp data field))]
              else [])
    (repo_updateFields R).

Definition update (id : string) (data : gmap string JsValue) (userId : string)
  : M Store T :=
  tryCatch
    (let updates := collectUpdates data in
     match updates with
     | [] =>
         existing <- findById id ;;
         match existing with
         | None => throw (NotFoundError (repo_entityName R) id)
         | Some entity => ret entity
         end
     | _ :: _ =>
         let statement :=
           if repo_stampsUpdate R
           then UpdateReturning (repo_table R)
                  (updates ++ [("updated_by", JStr userId)])%list ["updated_at"] id
           else UpdateReturning (repo_table R) updates [] id in
         result <- Pg.query P statement ;;
         match rows result with
         | [] => throw (NotFoundError (repo_entityName R) id)
         | row :: _ => ret (repo_mapRow R row)
         end
     end)
    (fun error =>
       if isNotFoundError error then throw error
       else throw (handleDatabaseError error)).

(** [delete] of the contact, company, deal, task and note repositories. *)
Definition delete (id : string) (userId : string) : M Store unit :=
  tryCatch
    (result <- Pg.query P (DeleteById (repo_table R) id) ;;
     if Nat.eqb (rowCount result) 0
     then throw (NotFoundError (repo_entityName R) id)
     else ret tt)
    (fun error =>
       if isNotFoundError error then throw error
       else throw (handleDatabaseError error)).

(** [delete] of the custom-field-definition repository: it looks the
    definition up first and does not read the row count. *)
Definition deleteAfterLookup (id : string) (userId : string) : M Store unit :=
  tryCatch
    (definition <- findById id ;;
     match definition with
     | None => throw (NotFoundError (repo_entityName R) id)
     | Some _ =>
         _ <- Pg.query P (DeleteById (repo_table R) id) ;;
         ret tt
     end)
    (fun error =>
       if isNotFoundError error then throw error
       else throw (handleDatabaseError error)).

End Generic.
End Repository.

(** *** The six repository classes *)

Section Repositories.

Variable P : Platform.

(** [JSON.stringify(value || {})] *)
Definition stringifyOrEmpty (v : JsValue) : JsValue := stringify P (jsOr v (JObj [])).

(** [value ? JSON.stringify(value) : null] *)
Definition stringifyOrNull (v : JsValue) : JsValue :=
  if truthy v then stringify P v else JNull.

(** [value ? new Date(value) : null] *)
Definition dateOrNull (v : JsValue) : JsValue :=
  if truthy v then newDate P v else JNull.

Definition asIs (v : JsValue) : JsValue := v.

Definition mapRowToCompany (row : Row) : Entity :=
  list_to_map
    [("id", getProp row "id");
     ("name", getProp row "name");
     ("address", jsOr (getProp row "address") JNull);
     ("customFields", jsOr (getProp row "custom_fields") (JObj []));
     ("createdAt", newDate P (getProp row "created_at"));
     ("updatedAt", newDate P (getProp row "updated_at"));
     ("createdBy", getProp row "created_by");
     ("updatedBy", getProp row "updated_by")].

Definition companyRepository : RepoSpec Entity :=
  {| repo_table := "companies";
     repo_entityName := "Company";
     repo_insertValues := fun data userId =>
       [("name", getProp data "name");
        ("address", stringifyOrNull (getProp data "address"));
        ("custom_fields", stringifyOrEmpty (getProp data "customFields"));
        ("created_by", JStr userId);
        ("updated_by", JStr userId)];
     repo_updateFields :=
       [("name", "name", asIs);
        ("address", "address", stringifyOrNull);
        ("customFields", "custom_fields", stringify P)];
     repo_stampsUpdate := true;
     repo_mapRow := mapRowToCompany;
     repo_uniqueMessage := "Unique constraint violation" |}.

Definition mapRowToContact (row : Row) : Entity :=
  list_to_map
    [("id", getProp row "id");
     ("firstName", getProp row "first_name");
     ("lastName", getProp row "last_name");
     ("emails", jsOr (getProp row "emails") (JArr []));
     ("phones", jsOr (getProp row "phones") (JArr []));
     ("companyId", getProp row "company_id");
     ("customFields", jsOr (getProp row "custom_fields") (JObj []));
     ("createdAt", newDate P (getProp row "created_at"));
     ("updatedAt", newDate P (getProp row "updated_at"));
     ("createdBy", getProp row "created_by");
     ("updatedBy", getProp row "updated_by")].

Definition contactRepository : RepoSpec Entity :=
  {| repo_table := "contacts";
     repo_entityName := "Contact";
     repo_insertValues := fun data userId =>
       [("first_name", getProp data "firstName");
        ("last_name", getProp data "lastName");
        ("emails", jsOr (getProp data "emails") (JArr []));
        ("phones", jsOr (getProp data "phones") (JArr []));
        ("company_id", getProp data "companyId");
        ("custom_fields", stringifyOrEmpty (getProp data "customFields"));
        ("created_by", JStr userId);
        ("updated_by", JStr userId)];
     repo_updateFields :=
       [("firstName", "first_name", asIs);
        ("lastName", "last_name", asIs);
        ("emails", "emails", asIs);
        ("phones", "phones", asIs);
        ("companyId", "company_id", asIs);
        ("customFields", "custom_fields", stringify P)];
     repo_stampsUpdate := true;
     repo_mapRow := mapRowToContact;
     repo_uniqueMessage := "Unique constraint violation" |}.

Definition mapRowToDeal (row : Row) : Entity :=
  list_to_map
    [("id", getProp row "id");
     ("title", getProp row "title");
     ("companyId", getProp row "company_id");
     ("contactId", getProp row "contact_id");
     ("value", JNum (parseFloat P (getProp row "value")));
     ("currency", getProp row "currency");
     ("stage", getProp row "stage");
     ("probability", getProp row "probability");
     ("closeDate", dateOrNull (getProp row "close_date"));
     ("customFields", jsOr (getProp row "custom_fields") (JObj []));
     ("createdAt", newDate P (getProp row "created_at"));
     ("updatedAt", newDate P (getProp row "updated_at"));
     ("createdBy", getProp row "created_by");
     ("updatedBy", getProp row "updated_by")].

Definition dealRepository : RepoSpec Entity :=
  {| repo_table := "deals";
     repo_entityName := "Deal";
     repo_insertValues := fun data userId =>
       [("title", getProp data "title");
        ("company_id", getProp data "companyId");
        ("contact_id", getProp data "contactId");
        ("value", getProp data "value");
        ("currency", jsOr (getProp data "currency") (JStr "USD"));
        ("stage", getProp data "stage");
        ("probability", getProp data "probability");
        ("close_date", getProp data "closeDate");
        ("custom_fields", stringifyOrEmpty (getProp data "customFields"));
        ("created_by", JStr userId);
        ("updated_by", JStr userId)];
     repo_updateFields :=
       [("title", "title", asIs);
        ("companyId", "company_id", asIs);
        ("contactId", "contact_id", asIs);
        ("value", "value", asIs);
        ("currency", "currency", asIs);
        ("stage", "stage", asIs);
        ("probability", "probability", asIs);
        ("closeDate", "close_date", asIs);
        ("customFields", "custom_fields", stringify P)];
     repo_stampsUpdate := true;
     repo_mapRow := mapRowToDeal;
     repo_uniqueMessage := "Unique constraint violation" |}.

Definition mapRowToTask (row : Row) : Entity :=
  list_to_map
    [("id", getProp row "id");
     ("description", getProp row "description");
     ("dueDate", dateOrNull (getProp row "due_date"));
     ("assignedTo", getProp row "assigned_to");
     ("status", getProp row "status");
     ("entityType", getProp row "entity_type");
     ("entityId", getProp row "entity_id");
     ("createdAt", newDate P (getProp row "created_at"));
     ("updatedAt", newDate P (getProp row "updated_at"));
     ("createdBy", getProp row "created_by");
     ("updatedBy", getProp row "updated_by")].

Definition taskRepository : RepoSpec Entity :=
  {| repo_table := "tasks";
     repo_entityName := "Task";
     repo_insertValues := fun data userId =>
       [("description", getProp data "description");
        ("due_date", getProp data "dueDate");
        ("assigned_to", getProp data "assignedTo");
        ("status", getProp data "status");
        ("entity_type", getProp data "entityType");
        ("entity_id", getProp data "entityId");
        ("created_by", JStr userId);
        ("updated_by", JStr userId)];
     repo_updateFields :=
       [("description", "description", asIs);
        ("dueDate", "due_date", asIs);
        ("assignedTo", "assigned_to", asIs);
        ("status", "status", asIs)];
     repo_stampsUpdate := true;
     repo_mapRow := mapRowToTask;
     repo_uniqueMessage := "Unique constraint violation" |}.

Definition mapRowToNote (row : Row) : Entity :=
  list_to_map
    [("id", getProp row "id");
     ("content", getProp row "content");
     ("entityType", getProp row "entity_type");
     ("entityId", getProp row "entity_id");
     ("createdAt", newDate P (getProp row "created_at"));
     ("updatedAt", newDate P (getProp row "updated_at"));
     ("createdBy", getProp row "created_by");
     ("updatedBy", getProp row "updated_by")].

Definition noteRepository : RepoSpec Entity :=
  {| repo_table := "notes";
     repo_entityName := "Note";
     repo_insertValues := fun data userId =>
       [("content", getProp data "content");
        ("entity_type", getProp data "entityType");
        ("entity_id", getProp data "entityId");
        ("created_by", JStr userId);
        ("updated_by", JStr userId)];
     repo_updateFields := [("content", "content", asIs)];
     repo_stampsUpdate := true;
     repo_mapRow := mapRowToNote;
     repo_uniqueMessage := "Unique constraint violation" |}.

(** Columns are typed by the schema: a varchar reads back as a string, a
    text[] as an array of strings. *)
Definition asString (v : JsValue) : string :=
  match v with JStr s => s | _ => "" end.

Definition asStringArray (v : JsValue) : option (list string) :=
  match v with
  | JArr items => Some (List.map asString items)
  | _ => None
  end.

Definition mapRowToCustomFieldDefinition (row : Row) : CustomFieldDefinition :=
  {| cfd_id := asString (getProp row "id");
     cfd_name := asString (getProp row "name");
     cfd_label := asString (getProp row "label");
     cfd_entityType := asString (getProp row "entity_type");
     cfd_fieldType := asString (getProp row "field_type");
     cfd_enumValues := asStringArray (jsOr (getProp row "enum_values") JNull);
     cfd_required := truthy (getProp row "required");
     cfd_createdAt := newDate P (getProp row "created_at");
     cfd_createdBy := asString (getProp row "created_by") |}.

Definition customFieldDefinitionRepository : RepoSpec CustomFieldDefinition :=
  {| repo_table := "custom_field_definitions";
     repo_entityName := "CustomFieldDefinition";
     repo_insertValues := fun data userId =>
       [("name", getProp data "name");
        ("label", getProp data "label");
        ("entity_type", getProp data "entityType");
        ("field_type", getProp data "fieldType");
        ("enum_values", getProp data "enumValues");
        ("required", getProp data "required");
        ("created_by", JStr userId)];
     repo_updateFields :=
       [("label", "label", asIs);
        ("required", "required", asIs)];
     repo_stampsUpdate := false;
     repo_mapRow := mapRowToCustomFieldDefinition;
     repo_uniqueMessage :=
       "Unique constraint violation - field name already exists for this entity type" |}.

(** [CustomFieldDefinitionRepository.findAll(filters)] as the services call
    it, without pagination: [if (filters?.entityType)] adds
    [AND entity_type = $1]. *)
Definition findAllDefinitions (filters : gmap string JsValue)
  : M Store (list CustomFieldDefinition) :=
  tryCatch
    (let conditions :=
       if truthy (getProp filters "entityType")
       then [("entity_type", getProp filters "entityType")]
       else [] in
     result <- Pg.query P (SelectWhere "custom_field_definitions" conditions) ;;
     ret (List.map mapRowToCustomFieldDefinition (rows result)))
    (fun error =>
       throw (Repository.handleDatabaseError customFieldDefinitionRepository error)).

Definition findByEntityType (entityType : string) : M Store (list CustomFieldDefinition) :=
  findAllDefinitions {[ "entityType" := JStr entityType ]}.

End Repositories.

(** ** The shared error handler (utils/error-handler.ts) *)

(** [text.includes(fragment)] *)
Fixpoint isPrefixOf (p s : string) : bool :=
  match p, s with
  | EmptyString, _ => true
  | String a p', String b s' => Ascii.eqb a b && isPrefixOf p' s'
  | String _ _, EmptyString => false
  end.

Fixpoint stringIncludes (s fragment : string) : bool :=
  isPrefixOf fragment s
  || match s with
     | EmptyString => false
     | String _ s' => stringIncludes s' fragment
     end.

Module ErrorHandler.

Definition handleDatabaseError (error : Error) : Error :=
  if hasCode error "23503" then
    let detail := orElse (errorDetail error) "" in
    let message :=
      if stringIncludes detail "company_id" then "Referenced company does not exist"
      else if stringIncludes detail "contact_id" then "Referenced contact does not exist"
      else "Foreign key constraint violation" in
    ConstraintViolationError message (orElse (errorConstraint error) "unknown")
  else if hasCode error "23505" then
    let detail := orElse (errorDetail error) "" in
    let message :=
      if stringIncludes detail "email" then "Email address already exists"
      else if stringIncludes detail "name" then "Name already exists"
      else "Unique constraint violation" in
    ConstraintViolationError message (orElse (errorConstraint error) "unknown")
  else if hasCode error "23514" then
    let constraint := orElse (errorConstraint error) "" in
    let message :=
      if stringIncludes constraint "probability" then "Probability must be between 0 and 100"
      else if stringIncludes constraint "status" then "Invalid status value"
      else "Check constraint violation" in
    ConstraintViolationError message (orElse (errorConstraint error) "unknown")
  else if hasCode error "23502" then
    let column := orElse (errorColumn error) "unknown" in
    ConstraintViolationError ("Required field '" ++ column ++ "' cannot be null") "not_null"
  else if hasCode error "22P02" then
    ValidationError "Invalid data format"
      {[ "format" := ["Invalid UUID or data type format"] ]}
  else DatabaseError "Database operation failed" error.

End ErrorHandler.

(** ** Audit trail (repositories/audit-log.repository.ts, utils/audit.ts) *)

Module Audit.
Section WithPlatform.

Variable P : Platform.

Definition mapRowToAuditLog (row : Row) : Entity :=
  list_to_map
    [("id", getProp row "id");
     ("entityType", getProp row "entity_type");
     ("entityId", getProp row "entity_id");
     ("action", getProp row "action");
     ("userId", getProp row "user_id");
     ("changes", jsOr (getProp row "changes") JNull);
     ("timestamp", newDate P (getProp row "timestamp"))].

(** [AuditLogRepository.createAuditLog] *)
Definition createAuditLog (entityType : string) (entityId : JsValue) (action : string)
    (userId : string) (changes : option (gmap string JsValue)) : M Store Entity :=
  tryCatch
    (let values :=
       [("entity_type", JStr entityType);
        ("entity_id", entityId);
        ("action", JStr action);
        ("user_id", JStr userId);
        ("changes", match changes with
                    | Some c => stringify P (objectOf c)
                    | None => JNull
                    end)] in
     result <- Pg.query P (InsertReturning "audit_logs" values) ;;
     match rows result with
     | row :: _ => ret (mapRowToAuditLog row)
     | [] => throw (JsError "TypeError" "Cannot read properties of undefined")
     end)
    (fun error => throw (DatabaseError "Failed to create audit log" error)).

Definition metadataFields : list string :=
  ["id"; "createdAt"; "createdBy"; "updatedAt"; "updatedBy"].

(** [Object.keys(obj)] *)
Definition keys (obj : gmap string JsValue) : list string := (map_to_list obj).*1.

(** [JSON.stringify(a) !== JSON.stringify(b)] *)
Definition serializedDiffer (a b : JsValue) : bool :=
  negb (bool_decide (JSON_stringify P a = JSON_stringify P b)).

(** [{ before: beforeValue, after: afterValue }], the two values being
    [before[key]] and [after[key]]. *)
Definition changeEntry (before after : gmap string JsValue) (key : string) : JsValue :=
  JObj [("before", member before key); ("after", member after key)].

(** Body of the loop of [calculateChanges]. *)
Definition recordChange (before after : gmap string JsValue)
    (changes : gmap string JsValue) (key : string) : gmap string JsValue :=
  if bool_decide (key ∈ metadataFields) then changes
  else
    if serializedDiffer (member before key) (member after key)
    then assign changes key (changeEntry before after key)
    else changes.

(** [AuditHelper.calculateChanges] *)
Definition calculateChanges (before after : gmap string JsValue) : gmap string JsValue :=
  let allKeys := remove_dups (keys before ++ keys after)%list in
  fold_left (recordChange before after) allKeys ∅.

(** [AuditHelper.logCreate] *)
Definition logCreate (entityType : string) (entityId : JsValue) (userId : string)
    (entityData : JsValue) : M Store unit :=
  _ <- createAuditLog entityType entityId "create" userId
         (Some {[ "created" := entityData ]}) ;;
  ret tt.

(** [AuditHelper.logUpdate] *)
Definition logUpdate (entityType : string) (entityId : JsValue) (userId : string)
    (before after : gmap string JsValue) : M Store unit :=
  let changes := calculateChanges before after in
  if bool_decide (0 < size changes)
  then _ <- createAuditLog entityType entityId "update" userId (Some changes) ;;
       ret tt
  else ret tt.

(** [AuditHelper.logDelete] *)
Definition logDelete (entityType : string) (entityId : JsValue) (userId : string)
    (entityData : JsValue) : M Store unit :=
  _ <- createAuditLog entityType entityId "delete" userId
         (Some {[ "deleted" := entityData ]}) ;;
  ret tt.

End WithPlatform.

(** The audit trail as stored. *)
Definition auditRecords (db : Store) : list Row := Pg.tableRows "audit_logs" db.

(** A stored audit record carries this action and this user. *)
Definition recordOf (action userId : string) (row : Row) : Prop :=
  row !! "action" = Some (JStr action) /\ row !! "user_id" = Some (JStr userId).

(** A call that leaves the audit trail as it found it, whatever its outcome. *)
Definition leavesAuditTrail {A : Type} (m : M Store A) : Prop :=
  forall db r db', m db = (r, db') -> auditRecords db' = auditRecords db.

End Audit.

(** ** Services (services/*.service.ts) *)

(** What differs from one entity service class to the next. *)
Record ServiceSpec := mkServiceSpec {
  svc_repository : RepoSpec (gmap string JsValue);
  (** the entity type given to the audit helper and to the field definitions *)
  svc_entityType : string;
  (** the message and the [id] entry of the error thrown when the entity is
      not there *)
  svc_notFoundMessage : string;
  svc_notFoundDetail : string;
  svc_createSchema : Schema;
  svc_updateSchema : Schema;
  (** whether create and update validate [customFields] *)
  svc_validatesCustomFields : bool
}.

Definition liftResult {S A : Type} (r : Result A) : M S A :=
  match r with
  | Ok a => ret a
  | Err e => throw e
  end.

Module Service.
Section Generic.

Variable P : Platform.
Variable S : ServiceSpec.

(** The error each service throws when [findById] answers [null]. *)
Definition notFound : Error :=
  ValidationError (svc_notFoundMessage S) {[ "id" := [svc_notFoundDetail S] ]}.

(** [if (validatedData.customFields && Object.keys(...).length > 0) {...}] *)
Definition checkCustomFields (validatedData : gmap string JsValue) : M Store unit :=
  if svc_validatesCustomFields S then
    match getProp validatedData "customFields" with
    | JObj customFields =>
        if bool_decide (0 < length customFields) then
          customFieldDefs <- findByEntityType P (svc_entityType S) ;;
          liftResult (CustomFields.validateCustomFields (Date_getTime P) (Date_throws P)
                        customFieldDefs customFields)
        else ret tt
    | _ => ret tt
    end
  else ret tt.

Definition create (data : gmap string JsValue) (userId : string) : M Store Entity :=
  validatedData <- liftResult (validateData P (svc_createSchema S) data) ;;
  _ <- checkCustomFields validatedData ;;
  entity <- Repository.create P (svc_repository S) validatedData userId ;;
  _ <- Audit.logCreate P (svc_entityType S) (getProp entity "id") userId (objectOf entity) ;;
  ret entity.

Definition get (id : string) : M Store Entity :=
  entity <- Repository.findById P (svc_repository S) id ;;
  match entity with
  | None => throw notFound
  | Some e => ret e
  end.

Definition update (id : string) (data : gmap string JsValue) (userId : string)
  : M Store Entity :=
  validatedData <- liftResult (validateData P (svc_updateSchema S) data) ;;
  existing <- Repository.findById P (svc_repository S) id ;;
  match existing with
  | None => throw notFound
  | Some existingEntity =>
      _ <- checkCustomFields validatedData ;;
      updated <- Repository.update P (svc_repository S) id validatedData userId ;;
      _ <- Audit.logUpdate P (svc_entityType S) (JStr id) userId existingEntity updated ;;
      ret updated
  end.

Definition delete (id : string) (userId : string) : M Store unit :=
  existing <- Repository.findById P (svc_repository S) id ;;
  match existing with
  | None => throw notFound
  | Some existingEntity =>
      _ <- Repository.delete P (svc_repository S) id userId ;;
      Audit.logDelete P (svc_entityType S) (JStr id) userId (objectOf existingEntity)
  end.

End Generic.
End Service.

Section Services.

Variable P : Platform.

Definition contactService : ServiceSpec :=
  mkServiceSpec (contactRepository P) "contact" "Contact not found" "Contact does not exist"
    createContactSchema updateContactSchema true.

Definition companyService : ServiceSpec :=
  mkServiceSpec (companyRepository P) "company" "Company not found" "Company does not exist"
    createCompanySchema updateCompanySchema true.

Definition dealService : ServiceSpec :=
  mkServiceSpec (dealRepository P) "deal" "Deal not found" "Deal does not exist"
    createDealSchema updateDealSchema true.

Definition taskService : ServiceSpec :=
  mkServiceSpec (taskRepository P) "task" "Task not found" "Task does not exist"
    createTaskSchema updateTaskSchema false.

Definition noteService : ServiceSpec :=
  mkServiceSpec (noteRepository P) "note" "Note not found" "Note does not exist"
    createNoteSchema updateNoteSchema false.

(** The services that keep an audit trail. *)
Definition entityServices : list ServiceSpec :=
  [contactService; companyService; dealService; taskService; noteService].

End Services.

(** [CustomFieldService]: no audit helper, no validation on update. *)
Module CustomFieldService.
Section WithPlatform.

Variable P : Platform.

Definition notFound : Error :=
  ValidationError "Custom field definition not found"
    {[ "id" := ["Custom field definition does not exist"] ]}.

Definition createCustomFieldDefinition (data : gmap string JsValue) (userId : string)
  : M Store CustomFieldDefinition :=
  validatedData <- liftResult (validateData P createCustomFieldDefinitionSchema data) ;;
  Repository.create P (customFieldDefinitionRepository P) validatedData userId.

Definition getCustomFieldDefinition (id : string) : M Store CustomFieldDefinition :=
  definition <- Repository.findById P (customFieldDefinitionRepository P) id ;;
  match definition with
  | None => throw notFound
  | Some d => ret d
  end.

Definition updateCustomFieldDefinition (id : string) (data : gmap string JsValue)
    (userId : string) : M Store CustomFieldDefinition :=
  existingDefinition <- Repository.findById P (customFieldDefinitionRepository P) id ;;
  match existingDefinition with
  | None => throw notFound
  | Some _ => Repository.update P (customFieldDefinitionRepository P) id data userId
  end.

Definition deleteCustomFieldDefinition (id : string) (userId : string) : M Store unit :=
  existingDefinition <- Repository.findById P (customFieldDefinitionRepository P) id ;;
  match existingDefinition with
  | None => throw notFound
  | Some _ =>
      Repository.deleteAfterLookup P (customFieldDefinitionRepository P) id userId
  end.

End WithPlatform.
End CustomFieldService.

(** ** The transaction coordinator (utils/transaction.ts) *)

Module Transaction.

(** What happens on the pool, in order. *)
Inductive Event : Type :=
  | Connect (client : nat)
  | Query (client : nat) (sql : string)
  | Release (client : nat).

Abbreviation History := (list Event).

(** The pool and its connections: whether [pool.connect()] hands out a client
    and whether a statement sent on one is turned down, given what happened
    so far. *)
Record Pool := mkPool {
  pool_connect : list Event -> Result nat;
  client_refuses : nat -> string -> list Event -> option Error
}.

(** A unit of work: handed the client, after the history so far, it sends its
    own statements and returns or throws. *)
Definition UnitOfWork (T : Type) : Type := nat -> list Event -> Result T * list Event.

Section WithPool.

Variable pool : Pool.
Context {T : Type}.

(** [await pool.connect()] *)
Definition connect : M History nat :=
  fun h =>
    match pool_connect pool h with
    | Ok client => (Ok client, (h ++ [Connect client])%list)
    | Err e => (Err e, h)
    end.

(** [await client.query(sql)] *)
Definition clientQuery (client : nat) (sql : string) : M History unit :=
  fun h =>
    match client_refuses pool client sql h with
    | Some e => (Err e, (h ++ [Query client sql])%list)
    | None => (Ok tt, (h ++ [Query client sql])%list)
    end.

(** [client.release()] *)
Definition release (client : nat) : M History unit :=
  fun h => (Ok tt, (h ++ [Release client])%list).

(** [await callback(client)] *)
Definition run (callback : UnitOfWork T) (client : nat) : M History T :=
  fun h => let '(r, sent) := callback client h in (r, (h ++ sent)%list).

(** [TransactionManager.executeInTransaction] *)
Definition executeInTransaction (callback : UnitOfWork T) : M History T :=
  client <- connect ;;
  tryFinally
    (tryCatch
       (_ <- clientQuery client "BEGIN" ;;
        result <- run callback client ;;
        _ <- clientQuery client "COMMIT" ;;
        ret result)
       (fun error =>
          _ <- clientQuery client "ROLLBACK" ;;
          throw (DatabaseError "Transaction failed" error)))
    (release client).

(** The standalone [withTransaction(pool, callback)] *)
Definition withTransaction (callback : UnitOfWork T) : M History T :=
  client <- connect ;;
  tryFinally
    (tryCatch
       (_ <- clientQuery client "BEGIN" ;;
        result <- run callback client ;;
        _ <- clientQuery client "COMMIT" ;;
        ret result)
       (fun error =>
          _ <- clientQuery client "ROLLBACK" ;;
          throw error))
    (release client).

(** [BEGIN] goes through on [client] after [h]. *)
Definition beginAccepted (client : nat) (h : list Event) : Prop :=
  client_refuses pool client "BEGIN" (h ++ [Connect client])%list = None.

(** The history the unit of work starts from. *)
Definition started (client : nat) (h : list Event) : list Event :=
  ((h ++ [Connect client]) ++ [Query client "BEGIN"])%list.

(** The unit of work is run and returns rather than throws. *)
Definition unitOfWorkReturns (callback : UnitOfWork T) (client : nat) (h : list Event)
  : Prop :=
  beginAccepted client h
  /\ exists a, fst (callback client (started client h)) = Ok a.

End WithPool.
End Transaction.

(** ** Sample inputs *)

Definition everyDateInvalid (_ : JsValue) : spec_float := S754_nan.

(** A runtime whose [new Date(value)] converts every object. *)
Definition everyValueConverts (_ : JsValue) : bool := false.

Definition optionalNickname : CustomFieldDefinition :=
  mkCustomFieldDefinition "d1" "nickname" "Nickname" "contact" "text" None false JNull "admin".

Definition scoreField : CustomFieldDefinition :=
  mkCustomFieldDefinition "d2" "score" "Score" "contact" "number" None false JNull "admin".

Definition industryField : CustomFieldDefinition :=
  mkCustomFieldDefinition "d3" "industry" "Industry" "company" "enum"
    (Some ["Tech"; "Retail"]) true JNull "admin".

Definition plainStringify (v : JsValue) : option string :=
  match v with
  | JUndefined => None
  | JNull => Some "null"
  | JBool true => Some "true"
  | JBool false => Some "false"
  | JStr s => Some s
  | _ => Some "{}"
  end.

(** A store that accepts every statement, a schema engine that accepts every
    input, and simple stand-ins for the built-ins. *)
Definition plainPlatform : Platform :=
  {| Date_getTime := fun _ => S754_zero false;
     Date_throws := fun _ => false;
     JSON_stringify := plainStringify;
     JSON_parse := fun s => JStr s;
     parseFloat := fun _ => S754_nan;
     validateData := fun _ data => Ok data;
     pgRefuses := fun _ _ => None;
     gen_random_uuid := fun _ => "0b8f3c1e";
     NOW := fun _ => JDate (S754_zero false);
     decimal_out := fun _ => "0.00";
     orderByCreatedAtDesc := fun l => l |}.

Definition notNullName : PgError := mkPgError (Some "23502") None None (Some "name").
Definition malformedUuid : PgError := mkPgError (Some "22P02") None None None.

(** A store that enforces NOT NULL on [companies.name] and the uuid syntax of
    ids. *)
Definition strictRefuses (st : Statement) (db : Store) : option PgError :=
  match st with
  | InsertReturning table values =>
      if String.eqb table "companies"
         && forallb (fun cv => negb (String.eqb (fst cv) "name") || isNullish (snd cv)) values
      then Some notNullName else None
  | SelectById _ id => if String.eqb id "not-a-uuid" then Some malformedUuid else None
  | _ => None
  end.

Definition strictPlatform : Platform :=
  {| Date_getTime := fun _ => S754_zero false;
     Date_throws := fun _ => false;
     JSON_stringify := plainStringify;
     JSON_parse := fun s => JStr s;
     parseFloat := fun _ => S754_nan;
     validateData := fun _ data => Ok data;
     pgRefuses := strictRefuses;
     gen_random_uuid := fun _ => "0b8f3c1e";
     NOW := fun _ => JDate (S754_zero false);
     decimal_out := fun _ => "0.00";
     orderByCreatedAtDesc := fun l => l |}.

Definition acme : gmap string JsValue := {[ "name" := JStr "Acme" ]}.



Definition industryInput : gmap string JsValue :=
  {[ "name" := JStr "industry"; "label" := JStr "Industry";
     "entityType" := JStr "company"; "fieldType" := JStr "text";
     "required" := JBool false ]}.

Definition storedTask : Row :=
  {[ "id" := JStr "t1"; "description" := JStr "Call back"; "status" := JStr "open";
     "updated_at" := JDate (S754_zero false) ]}.

Definition oneTask : Store := {[ "tasks" := [storedTask] ]}.

Definition steadyPool : Transaction.Pool :=
  Transaction.mkPool (fun _ => Ok 7) (fun _ _ _ => None).

Definition failingWork : Transaction.UnitOfWork unit :=
  fun client _ =>
    (Err (NotFoundError "Deal" "42"), [Transaction.Query client "UPDATE deals"]).

(** ** More of the code: what the properties further down are about *)

(** *** cleanCustomFieldValue (validation/custom-fields.ts) *)

(** Conversions of the runtime the coercion calls: [String(value)] and
    [Number(value)] where the value is not already of that type, whether
    they throw on an object or an array (converting one to a primitive runs
    its [toString] and [valueOf]), and [toISOString()] of a valid date. *)
Record Conversions := mkConversions {
  String_other : JsValue -> string;
  String_throws : JsValue -> bool;
  Number_other : JsValue -> spec_float;
  Number_throws : JsValue -> bool;
  Date_toISOString : spec_float -> string
}.

(** [String(value)], where it does not throw *)
Definition jsString (C : Conversions) (v : JsValue) : string :=
  match v with
  | JStr s => s
  | _ => String_other C v
  end.

(** [Number(value)], where it does not throw *)
Definition jsNumber (C : Conversions) (v : JsValue) : spec_float :=
  match v with
  | JNum x => x
  | _ => Number_other C v
  end.

(** [cleanCustomFieldValue]; [toISOString()] of an invalid date throws a
    RangeError, and the three conversions throw a TypeError on an object or
    an array the runtime cannot convert. *)
Definition cleanCustomFieldValue (Date_getTime : JsValue -> spec_float)
    (Date_throws : JsValue -> bool) (C : Conversions)
    (fieldType : string) (value : JsValue) : Result JsValue :=
  if isNullish value then Ok JNull
  else if String.eqb fieldType "text" then
    if isObjectLike value && String_throws C value then Err CustomFields.conversionError
    else Ok (JStr (jsString C value))
  else if String.eqb fieldType "number" then
    if isObjectLike value && Number_throws C value then Err CustomFields.conversionError
    else Ok (JNum (jsNumber C value))
  else if String.eqb fieldType "date" then
    if isObjectLike value && Date_throws value then Err CustomFields.conversionError
    else if float_isNaN (Date_getTime value)
    then Err (JsError "RangeError" "Invalid time value")
    else Ok (JStr (Date_toISOString C (Date_getTime value)))
  else if String.eqb fieldType "boolean" then Ok (JBool (truthy value))
  else if String.eqb fieldType "enum" then
    if isObjectLike value && String_throws C value then Err CustomFields.conversionError
    else Ok (JStr (jsString C value))
  else Ok value.

(** *** What validateCustomFields records, message by message *)

(** The messages recorded under a name the candidate lacks: one for each
    required definition of that name, in order. *)
Definition requiredMessages (definitions : list CustomFieldDefinition) (fieldName : string)
  : list string :=
  List.map (fun d => "Required field '" ++ cfd_label d ++ "' is missing")
    (List.filter (fun d => cfd_required d && String.eqb (cfd_name d) fieldName) definitions).

(** *** formatErrorResponse (utils/error-handler.ts) *)

Record ErrorResponse := mkErrorResponse {
  resp_error : string;
  resp_message : string;
  resp_details : option JsValue
}.

(** [error.message]; what the driver's error object says is its own. *)
Definition errorMessage (pgMessage : PgError -> string) (e : Error) : string :=
  match e with
  | ValidationError message _ => message
  | NotFoundError entityType entityId => entityType ++ " with id " ++ entityId ++ " not found"
  | DatabaseError message _ => message
  | ConstraintViolationError message _ => message
  | PgDriverError p => pgMessage p
  | JsError _ message => message
  end.

(** A [Record<string, string[]>] as a value. *)
Definition fieldsValue (fields : gmap string (list string)) : JsValue :=
  objectOf ((fun messages => JArr (List.map JStr messages)) <$> fields).

Definition formatErrorResponse (pgMessage : PgError -> string) (error : Error)
  : ErrorResponse :=
  match error with
  | ValidationError message fields =>
      mkErrorResponse "ValidationError" message (Some (fieldsValue fields))
  | NotFoundError entityType entityId =>
      mkErrorResponse "NotFoundError" (errorMessage pgMessage error)
        (Some (JObj [("entityType", JStr entityType); ("entityId", JStr entityId)]))
  | ConstraintViolationError message constraint =>
      mkErrorResponse "ConstraintViolationError" message
        (Some (JObj [("constraint", JStr constraint)]))
  | DatabaseError message originalError =>
      mkErrorResponse "DatabaseError" message
        (Some (JObj [("originalError", JStr (errorMessage pgMessage originalError))]))
  | _ =>
      mkErrorResponse "UnknownError"
        (orElse (Some (errorMessage pgMessage error)) "An unexpected error occurred") None
  end.

(** The error kinds a repository lets out. *)
Definition repositoryError (e : Error) : bool :=
  isNotFoundError e || isConstraintViolationError e || isDatabaseError e.

(** *** safeValidateData (validation/schemas.ts) *)

(** One issue of a failed [schema.safeParse]: its path, segment by segment as
    [join] prints them, and its message. *)
Record Issue := mkIssue {
  issue_path : list string;
  issue_message : string
}.

Inductive SafeValidation (T : Type) : Type :=
  | ValidationSuccess (data : T)
  | ValidationFailure (errors : gmap string (list string)).
Arguments ValidationSuccess {T} data.
Arguments ValidationFailure {T} errors.

(** Body of [result.error.errors.forEach]: [errors[path]] is read on a plain
    object, as in [validateCustomFields]. *)
Definition recordIssue (errors : gmap string (list string)) (err : Issue)
  : Result (gmap string (list string)) :=
  CustomFields.pushError "errors[path]" errors (join "." (issue_path err))
    (issue_message err).

(** [safeValidateData], given what [schema.safeParse(data)] answered. *)
Definition safeValidateData {T : Type} (parsed : list Issue + T)
  : Result (SafeValidation T) :=
  match parsed with
  | inr data => Ok (ValidationSuccess data)
  | inl issues =>
      match CustomFields.forEach recordIssue issues ∅ with
      | Err e => Err e
      | Ok errors => Ok (ValidationFailure errors)
      end
  end.

(** *** findByEntity of the task and note repositories *)

Section PolymorphicAttachment.

Variable P : Platform.










End PolymorphicAttachment.

(** *** Stored rows seen column by column *)

(** The values one column holds, row after row. *)
Definition columnValues (column table : string) (db : Store) : list (option JsValue) :=
  List.map (fun row : Row => row !! column) (Pg.tableRows table db).

(** The columns [update] may assign in a repository. *)
Definition assignedColumns {T : Type} (R : RepoSpec T) : list string :=
  (List.map (fun f => snd (fst f)) (repo_updateFields R)
   ++ (if repo_stampsUpdate R then ["updated_by"; "updated_at"] else []))%list.

(** Columns no [update] of a custom field definition assigns. *)
Definition definitionFixedColumns : list string :=
  ["id"; "name"; "entity_type"; "field_type"; "enum_values"; "created_at"; "created_by"].

(** Columns no [update] of a contact, company, deal, task or note assigns. *)
Definition entityFixedColumns : list string := ["id"; "created_at"; "created_by"].

(** A company's reference taken off a contact row, as ON DELETE SET NULL does. *)
Definition withoutCompany (companyId : string) (row : Row) : Row :=
  if Pg.columnIs "company_id" (JStr companyId) row then <["company_id" := JNull]> row else row.

(** *** The transaction helpers (utils/transaction.ts) *)

Module TransactionHelpers.

Record TransactionContext := mkTransactionContext {
  ctx_client : nat;
  ctx_committed : bool
}.

Section WithPool.

Variable pool : Transaction.Pool.

(** [beginTransaction(pool)] *)
Definition beginTransaction : M (list Transaction.Event) TransactionContext :=
  client <- Transaction.connect pool ;;
  _ <- Transaction.clientQuery pool client "BEGIN" ;;
  ret (mkTransactionContext client false).

(** [commitTransaction(context)]: the context is mutated only once the
    statement went through, so a throw leaves it as it was; the context is
    handed back as it stands after the call. *)
Definition commitTransaction (context : TransactionContext)
  : M (list Transaction.Event) TransactionContext :=
  if negb (ctx_committed context) then
    _ <- Transaction.clientQuery pool (ctx_client context) "COMMIT" ;;
    _ <- Transaction.release (ctx_client context) ;;
    ret (mkTransactionContext (ctx_client context) true)
  else ret context.

(** [rollbackTransaction(context)] *)
Definition rollbackTransaction (context : TransactionContext)
  : M (list Transaction.Event) TransactionContext :=
  if negb (ctx_committed context) then
    _ <- Transaction.clientQuery pool (ctx_client context) "ROLLBACK" ;;
    _ <- Transaction.release (ctx_client context) ;;
    ret (mkTransactionContext (ctx_client context) true)
  else ret context.

(** What a caller may do with an open context, and a run of such calls. *)
Inductive Closing : Type := Commit | Rollback.

Definition closingStatement (c : Closing) : string :=
  match c with Commit => "COMMIT" | Rollback => "ROLLBACK" end.

Definition close (c : Closing) (context : TransactionContext)
  : M (list Transaction.Event) TransactionContext :=
  match c with
  | Commit => commitTransaction context
  | Rollback => rollbackTransaction context
  end.

Fixpoint closeAll (calls : list Closing) (context : TransactionContext)
  : M (list Transaction.Event) TransactionContext :=
  match calls with
  | [] => ret context
  | c :: rest => context' <- close c context ;; closeAll rest context'
  end.

End WithPool.
End TransactionHelpers.

(** ** Further sample inputs *)

Definition missingIndustry : gmap string (list string) :=
  {[ "industry" := ["Required field 'Industry' is missing"] ]}.

(** A runtime for which an object with an own [toString] property, which no
    plain datum can call, does not convert. *)
Definition ownToString (v : JsValue) : bool :=
  match v with
  | JObj fields => existsb (fun kv => String.eqb (fst kv) "toString") fields
  | _ => false
  end.

Definition plainConversions : Conversions :=
  {| String_other := fun _ => "[object Object]";
     String_throws := ownToString;
     Number_other := fun _ => S754_nan;
     Number_throws := ownToString;
     Date_toISOString := fun _ => "1970-01-01T00:00:00.000Z" |}.

Definition invalidEmail : Issue := mkIssue ["emails"; "0"] "Invalid email".

Definition markDone : gmap string JsValue := {[ "status" := JStr "done" ]}.

Definition storedDefinition : Row :=
  {[ "id" := JStr "d3"; "name" := JStr "industry"; "label" := JStr "Industry";
     "entity_type" := JStr "company"; "field_type" := JStr "enum" ]}.

Definition oneDefinition : Store := {[ "custom_field_definitions" := [storedDefinition] ]}.

Definition relabel : gmap string JsValue := {[ "label" := JStr "Sector" ]}.

Definition acmeRow : Row := {[ "id" := JStr "c1"; "name" := JStr "Acme" ]}.
Definition acmeDeal : Row := {[ "id" := JStr "d1"; "company_id" := JStr "c1" ]}.
Definition acmeContact : Row := {[ "id" := JStr "p1"; "company_id" := JStr "c1" ]}.

(** One company with one deal and one contact. *)
Definition acmeStore : Store :=
  {[ "companies" := [acmeRow]; "deals" := [acmeDeal]; "contacts" := [acmeContact] ]}.

Definition unknownField : list (string * JsValue) := [("x", JNull)].

Definition acmeWithUnknownField : gmap string JsValue :=
  {[ "name" := JStr "Acme"; "customFields" := JObj unknownField ]}.

Definition unknownFieldErrors : gmap string (list string) :=
  {[ "x" := ["Unknown custom field: x"] ]}.

Definition unknownAndMissing : gmap string (list string) :=
  {[ "x" := ["Unknown custom field: x"];
     "industry" := ["Required field 'Industry' is missing"] ]}.

Definition constructorIssue : Issue := mkIssue ["constructor"] "Required".

Definition succeedingWork : Transaction.UnitOfWork nat :=
  fun client _ => (Ok 5, [Transaction.Query client "INSERT INTO deals"]).

Definition connectionLost : Error := JsError "Error" "Connection terminated".

(** A pool whose connections turn ROLLBACK down. *)
Definition brokenPool : Transaction.Pool :=
  Transaction.mkPool (fun _ => Ok 7)
    (fun _ sql _ => if String.eqb sql "ROLLBACK" then Some connectionLost else None).

Definition openContext : TransactionHelpers.TransactionContext :=
  TransactionHelpers.mkTransactionContext 7 false.

(** * Properties *)

#[local] Open Scope list_scope.

(** ** Custom field validation *)

Section ValidationFacts.

Variable Date_getTime : JsValue -> spec_float.
Variable Date_throws : JsValue -> bool.

Local Abbreviation validateCustomFieldValue :=
  (CustomFields.validateCustomFieldValue Date_getTime Date_throws).
Local Abbreviation kindCheck := (CustomFields.kindCheck Date_getTime Date_throws).
Local Abbreviation checkEntry := (CustomFields.checkEntry Date_getTime Date_throws).
Local Abbreviation collectErrors := (CustomFields.collectErrors Date_getTime Date_throws).
Local Abbreviation validateCustomFields :=
  (CustomFields.validateCustomFields Date_getTime Date_throws).
Local Abbreviation failsKind := (CustomFields.failsKind Date_getTime).
Local Abbreviation conversionThrows := (CustomFields.conversionThrows Date_throws).
Local Abbreviation rejected := (CustomFields.rejected Date_getTime Date_throws).
Local Abbreviation entryAtFault := (CustomFields.entryAtFault Date_getTime Date_throws).
Local Abbreviation entryBreaks := (CustomFields.entryBreaks Date_getTime Date_throws).
Local Abbreviation breaks := (CustomFields.breaks Date_getTime Date_throws).
Local Abbreviation atFault := (CustomFields.atFault Date_getTime Date_throws).
Local Abbreviation rejectedValue := (CustomFields.rejectedValue Date_getTime Date_throws).

(** *** The lookup of a definition *)

Lemma findDefinition_None (definitions : list CustomFieldDefinition) (k : string) :
  CustomFields.findDefinition definitions k = None
  <-> CustomFields.undefinedName definitions k.
Proof.
  unfold CustomFields.findDefinition, CustomFields.undefinedName.
  induction definitions as [|d0 definitions IH]; simpl.
  - split; [intros _ d [] | done].
  - destruct (String.eqb_spec (cfd_name d0) k) as [Heq|Hne].
    + split; [discriminate | intros Hnone; by destruct (Hnone d0 (or_introl eq_refl))].
    + rewrite IH. split.
      * intros Hnone d [<-|Hin]; [done | by apply Hnone].
      * intros Hnone d Hin. apply Hnone. by right.
Qed.

Lemma findDefinition_Some (definitions : list CustomFieldDefinition) (k : string)
    (d : CustomFieldDefinition) :
  CustomFields.findDefinition definitions k = Some d
  <-> CustomFields.definitionOf definitions k d.
Proof.
  unfold CustomFields.findDefinition, CustomFields.definitionOf.
  induction definitions as [|d0 definitions IH]; simpl.
  - split; [discriminate | intros (earlier & later & Heq & _)].
    by destruct earlier.
  - destruct (String.eqb_spec (cfd_name d0) k) as [Heq|Hne].
    + split.
      * intros [= <-]. exists [], definitions. split_and!; [done | done | intros d' []].
      * intros ([|d1 earlier] & later & Hsplit & Hname & Hfirst).
        -- by injection Hsplit as ->.
        -- injection Hsplit as -> _. by destruct (Hfirst d1 (or_introl eq_refl)).
    + rewrite IH. split.
      * intros (earlier & later & -> & Hname & Hfirst).
        exists (d0 :: earlier), later. split_and!; [done | done |].
        intros d' [<-|Hin]; [done | by apply Hfirst].
      * intros ([|d1 earlier] & later & Hsplit & Hname & Hfirst).
        -- injection Hsplit as -> _. done.
        -- injection Hsplit as -> ->. exists earlier, later. split_and!; [done | done |].
           intros d' Hin. apply Hfirst. by right.
Qed.

(** *** One value against one definition *)

Lemma typeof_string (v : JsValue) :
  String.eqb (typeof v) "string" = true <-> exists s, v = JStr s.
Proof. destruct v; simpl; split; try done; try (intros [? [=]]); eauto. Qed.

Lemma typeof_boolean (v : JsValue) :
  String.eqb (typeof v) "boolean" = true <-> exists b, v = JBool b.
Proof. destruct v; simpl; split; try done; try (intros [? [=]]); eauto. Qed.

Lemma number_check (v : JsValue) :
  negb (String.eqb (typeof v) "number") || isNaN v = false
  <-> exists x, v = JNum x /\ x <> S754_nan.
Proof.
  split.
  - destruct v as [| |b|x|s|t|items|fields|name]; simpl; try done.
    destruct x; simpl; try done; intros _; eexists; (split; [reflexivity | discriminate]).
  - intros (x & -> & Hx). by destruct x.
Qed.

Lemma float_isNaN_spec (x : spec_float) : float_isNaN x = true <-> x = S754_nan.
Proof. destruct x; simpl; split; done. Qed.

Lemma includesString_spec (legal : list string) (v : JsValue) :
  includesString legal v = true <-> exists s, v = JStr s /\ In s legal.
Proof.
  split.
  - destruct v; simpl; try done.
    intros Hin%bool_decide_eq_true. eexists. split; [done | by apply list_elem_of_In].
  - intros (s & -> & Hin). apply bool_decide_eq_true. by apply list_elem_of_In.
Qed.

(** What the kind's check answers, case by case. *)
Lemma kindCheck_outcome (d : CustomFieldDefinition) (v : JsValue) :
  (conversionThrows d v /\ kindCheck d v = Err CustomFields.conversionError)
  \/ (~ conversionThrows d v /\ failsKind d v
      /\ exists message, kindCheck d v = Ok (reject message))
  \/ (~ conversionThrows d v /\ ~ failsKind d v /\ kindCheck d v = Ok accept).
Proof.
  unfold CustomFields.kindCheck, CustomFields.conversionThrows.
  destruct (String.eqb_spec (cfd_fieldType d) "text") as [Htext|Hntext].
  { right. destruct (String.eqb (typeof v) "string") eqn:Hty; simpl.
    - right. apply typeof_string in Hty as [s ->].
      split_and!; [rewrite Htext; intros [[=] _] | | done].
      intros Hf. destruct Hf as [_ Hf|Hk _|Hk _|Hk _|Hk _|Hk];
        try (rewrite Htext in Hk; discriminate).
      + by destruct (Hf s).
      + apply Hk. rewrite Htext. simpl. tauto.
    - left. split_and!; [rewrite Htext; intros [[=] _] | | eauto].
      apply CustomFields.text_wants_a_string; [done |].
      intros s ->. simpl in Hty. discriminate. }
  destruct (String.eqb_spec (cfd_fieldType d) "number") as [Hnumber|Hnnumber].
  { right. destruct (negb (String.eqb (typeof v) "number") || isNaN v) eqn:Hnum.
    - left. split_and!; [rewrite Hnumber; intros [[=] _] | | eauto].
      apply CustomFields.number_wants_a_number; [done |].
      intros x ->. destruct x; simpl in Hnum; done.
    - right. apply number_check in Hnum as (x & -> & Hx).
      split_and!; [rewrite Hnumber; intros [[=] _] | | done].
      intros Hf. destruct Hf as [Hk _|_ Hf|Hk _|Hk _|Hk _|Hk];
        try (rewrite Hnumber in Hk; discriminate).
      + by apply Hx, Hf.
      + apply Hk. rewrite Hnumber. simpl. tauto. }
  destruct (String.eqb_spec (cfd_fieldType d) "date") as [Hdate|Hndate].
  { destruct (isObjectLike v && Date_throws v) eqn:Hthrows.
    - left. apply andb_true_iff in Hthrows as [Hobj Hthrows]. done.
    - right.
      assert (Hno : ~ (cfd_fieldType d = "date" /\ isObjectLike v = true
                       /\ Date_throws v = true)).
      { intros (_ & Hobj & Hth). by rewrite Hobj, Hth in Hthrows. }
      destruct (float_isNaN (Date_getTime v)) eqn:Hnan.
      + left. split_and!; [done | | eauto].
        apply CustomFields.date_wants_a_valid_date; [done |].
        by apply float_isNaN_spec.
      + right. split_and!; [done | | done].
        intros Hf. destruct Hf as [Hk _|Hk _|_ Hf|Hk _|Hk _|Hk];
          try (rewrite Hdate in Hk; discriminate).
        * apply float_isNaN_spec in Hf. congruence.
        * apply Hk. rewrite Hdate. simpl. tauto. }
  destruct (String.eqb_spec (cfd_fieldType d) "boolean") as [Hboolean|Hnboolean].
  { right. destruct (String.eqb (typeof v) "boolean") eqn:Hty; simpl.
    - right. apply typeof_boolean in Hty as [b ->].
      split_and!; [rewrite Hboolean; intros [[=] _] | | done].
      intros Hf. destruct Hf as [Hk _|Hk _|Hk _|_ Hf|Hk _|Hk];
        try (rewrite Hboolean in Hk; discriminate).
      + by destruct (Hf b).
      + apply Hk. rewrite Hboolean. simpl. tauto.
    - left. split_and!; [rewrite Hboolean; intros [[=] _] | | eauto].
      apply CustomFields.boolean_wants_a_boolean; [done |].
      intros b ->. simpl in Hty. discriminate. }
  destruct (String.eqb_spec (cfd_fieldType d) "enum") as [Henum|Hnenum].
  { right. destruct (cfd_enumValues d) as [legal|] eqn:Hlegal.
    - destruct (includesString legal v) eqn:Hinc; simpl.
      + right. apply includesString_spec in Hinc as (s & -> & Hin).
        split_and!; [rewrite Henum; intros [[=] _] | | done].
        intros Hf. destruct Hf as [Hk _|Hk _|Hk _|Hk _|_ Hf|Hk];
          try (rewrite Henum in Hk; discriminate).
        * by apply (Hf s legal).
        * apply Hk. rewrite Henum. simpl. tauto.
      + left. split_and!; [rewrite Henum; intros [[=] _] | | eauto].
        apply CustomFields.enum_wants_a_listed_string; [done |].
        intros s legal' -> Heq Hin. rewrite Hlegal in Heq. injection Heq as <-.
        assert (includesString legal (JStr s) = true) by (apply includesString_spec; eauto).
        congruence.
    - left. split_and!; [rewrite Henum; intros [[=] _] | | eauto].
      apply CustomFields.enum_wants_a_listed_string; [done |].
      intros s legal' _ Heq. congruence. }
  right. left. split_and!; [intros [Hd _]; done | | eauto].
  apply CustomFields.kind_is_unknown. simpl. intros [H|[H|[H|[H|[H|[]]]]]]; congruence.
Qed.

Lemma conversionThrows_not_nullish (d : CustomFieldDefinition) (v : JsValue) :
  conversionThrows d v -> isNullish v = false.
Proof. intros (_ & Hobj & _). by destruct v. Qed.

(** What [validateCustomFieldValue] answers, case by case. *)
Lemma validate_outcome (d : CustomFieldDefinition) (v : JsValue) :
  (conversionThrows d v /\ ~ rejected d v
   /\ validateCustomFieldValue d v = Err CustomFields.conversionError)
  \/ (~ conversionThrows d v /\ rejected d v
      /\ exists message, validateCustomFieldValue d v = Ok (reject message))
  \/ (~ conversionThrows d v /\ ~ rejected d v
      /\ validateCustomFieldValue d v = Ok accept).
Proof.
  unfold CustomFields.validateCustomFieldValue, CustomFields.rejected.
  destruct (isNullish v) eqn:Hnull.
  - assert (Hno : ~ conversionThrows d v).
    { intros Hth%conversionThrows_not_nullish. congruence. }
    right. destruct (cfd_required d) eqn:Hreq.
    + left. split_and!; [done | by left | eauto].
    + right. split_and!; [done | | done].
      intros [[_ ?]|[? _]]; congruence.
  - destruct (kindCheck_outcome d v) as [[Hth ->]|[(Hno & Hf & m & ->)|(Hno & Hf & ->)]].
    + left. split_and!; [done | | done]. intros [[? _]|(_ & ? & _)]; done.
    + right; left. split_and!; [done | by right | eauto].
    + right; right. split_and!; [done | | done]. intros [[? _]|(_ & _ & ?)]; done.
Qed.


(** *** Recording an error *)

(** No name of [Object.prototype] has an entry: what the [errors] object
    satisfies throughout. *)
Local Abbreviation plain := (fun errors : gmap string (list string) =>
  forall k, is_Some (errors !! k) -> inherited k = false).

Lemma pushError_recorded (target : string) (errors : gmap string (list string))
    (k msg : string) :
  inherited k = false ->
  CustomFields.pushError target errors k msg
  = Ok (<[k := default [] (errors !! k) ++ [msg]]> errors).
Proof.
  intros Hown. unfold CustomFields.pushError. rewrite Hown. by destruct (errors !! k).
Qed.

Lemma pushError_throws (target : string) (errors : gmap string (list string))
    (k msg : string) :
  plain errors -> inherited k = true ->
  CustomFields.pushError target errors k msg = Err (CustomFields.notAFunction target).
Proof.
  intros Hplain Hk. unfold CustomFields.pushError.
  destruct (errors !! k) eqn:Hat; [| by rewrite Hk].
  rewrite Hplain in Hk by eauto. discriminate.
Qed.

Lemma plain_insert (errors : gmap string (list string)) (k : string) (l : list string) :
  plain errors -> inherited k = false -> plain (<[k := l]> errors).
Proof.
  intros Hplain Hk k'. destruct (decide (k = k')) as [<-|Hne]; [done |].
  rewrite lookup_insert_ne by done. apply Hplain.
Qed.

Lemma is_Some_insert (errors : gmap string (list string)) (k k' : string) (l : list string) :
  is_Some (<[k := l]> errors !! k') <-> k' = k \/ is_Some (errors !! k').
Proof.
  destruct (decide (k = k')) as [->|Hne].
  - rewrite lookup_insert_eq. split; [auto | eauto].
  - rewrite lookup_insert_ne by done. split; [auto | intros [->|H]; done].
Qed.

Lemma definitionOf_unique (definitions : list CustomFieldDefinition) (k : string)
    (d d' : CustomFieldDefinition) :
  CustomFields.definitionOf definitions k d ->
  CustomFields.definitionOf definitions k d' -> d = d'.
Proof. rewrite <- !findDefinition_Some. congruence. Qed.

Lemma definitionOf_defined (definitions : list CustomFieldDefinition) (k : string)
    (d : CustomFieldDefinition) :
  CustomFields.definitionOf definitions k d ->
  ~ CustomFields.undefinedName definitions k.
Proof. rewrite <- findDefinition_Some, <- findDefinition_None. congruence. Qed.

(** What one turn of the first loop does. *)
Lemma checkEntry_outcome (definitions : list CustomFieldDefinition)
    (errors : gmap string (list string)) (k : string) (v : JsValue) :
  plain errors ->
  (entryBreaks definitions k v
   /\ exists message, checkEntry definitions errors (k, v) = Err (JsError "TypeError" message))
  \/ (~ entryBreaks definitions k v /\ entryAtFault definitions k v /\ inherited k = false
      /\ exists message,
           checkEntry definitions errors (k, v)
           = Ok (<[k := default [] (errors !! k) ++ [message]]> errors))
  \/ (~ entryBreaks definitions k v /\ ~ entryAtFault definitions k v
      /\ checkEntry definitions errors (k, v) = Ok errors).
Proof.
  intros Hplain. unfold CustomFields.checkEntry, CustomFields.entryBreaks,
    CustomFields.entryAtFault.
  destruct (CustomFields.findDefinition definitions k) as [d|] eqn:Hfind.
  - apply findDefinition_Some in Hfind.
    pose proof (definitionOf_defined _ _ _ Hfind) as Hdefined.
    destruct (validate_outcome d v)
      as [(Hth & Hnr & ->)|[(Hno & Hr & m & ->)|(Hno & Hnr & ->)]].
    + left. split; [left; eauto | eexists; reflexivity].
    + cbn [valid negb reject error default from_option id].
      destruct (inherited k) eqn:Hk.
      * left. split; [right; split; [done | right; eauto] |].
        rewrite pushError_throws by done. eexists. reflexivity.
      * right; left. split_and!; [| right; eauto | done |].
        -- intros [(d' & Hd' & Hth)|[? _]]; [| done].
           by rewrite (definitionOf_unique _ _ _ _ Hd' Hfind) in Hth.
        -- rewrite pushError_recorded by done. eauto.
    + right; right. cbn [valid negb accept]. split_and!; [| | done].
      * intros [(d' & Hd' & Hth)|[_ [Hu|(d' & Hd' & Hr)]]].
        -- by rewrite (definitionOf_unique _ _ _ _ Hd' Hfind) in Hth.
        -- done.
        -- by rewrite (definitionOf_unique _ _ _ _ Hd' Hfind) in Hr.
      * intros [Hu|(d' & Hd' & Hr)]; [done |].
        by rewrite (definitionOf_unique _ _ _ _ Hd' Hfind) in Hr.
  - apply findDefinition_None in Hfind.
    assert (Hnone : forall d, ~ CustomFields.definitionOf definitions k d).
    { intros d Hd. by apply (definitionOf_defined _ _ _ Hd). }
    destruct (inherited k) eqn:Hk.
    + left. split; [right; split; [done | by left] |].
      rewrite pushError_throws by done. eexists. reflexivity.
    + right; left. split_and!; [| by left | done |].
      * intros [(d' & Hd' & _)|[? _]]; [by apply (Hnone d') | done].
      * rewrite pushError_recorded by done. eauto.
Qed.

(** What the first loop does. *)
Lemma checkEntries_outcome (definitions : list CustomFieldDefinition)
    (entries : list (string * JsValue)) (errors : gmap string (list string)) :
  plain errors ->
  ((exists k v, In (k, v) entries /\ entryBreaks definitions k v)
   /\ exists message,
        CustomFields.forEach (checkEntry definitions) entries errors
        = Err (JsError "TypeError" message))
  \/ ((forall k v, In (k, v) entries -> ~ entryBreaks definitions k v)
      /\ exists errors',
           CustomFields.forEach (checkEntry definitions) entries errors = Ok errors'
           /\ plain errors'
           /\ forall k, is_Some (errors' !! k)
                        <-> is_Some (errors !! k)
                            \/ exists v, In (k, v) entries /\ entryAtFault definitions k v).
Proof.
  revert errors. induction entries as [|[k0 v0] entries IH]; intros errors Hplain.
  - right. split; [intros k v [] |]. exists errors. split_and!; [done | done |].
    intros k. split; [auto | intros [H|(v & [] & _)]; done].
  - cbn [CustomFields.forEach].
    destruct (checkEntry_outcome definitions errors k0 v0 Hplain)
      as [(Hbreak & m & ->)|[(Hno & Hfault & Hk0 & m & ->)|(Hno & Hnf & ->)]].
    + left. split; [exists k0, v0; split; [by left | done] | eauto].
    + destruct (IH (<[k0 := default [] (errors !! k0) ++ [m]]> errors))
        as [((k & v & Hin & Hbreak) & Hthrown)|(Hnone & errors' & -> & Hplain' & Hkeys)].
      * by apply plain_insert.
      * left. split; [exists k, v; split; [by right | done] | done].
      * right. split.
        { intros k v [[= <- <-]|Hin]; [done | by apply Hnone]. }
        exists errors'. split_and!; [done | done |].
        intros k. rewrite Hkeys, is_Some_insert. split.
        -- intros [[->|H]|(v & Hin & Hf)]; [| by left |].
           ++ right. exists v0. split; [by left | done].
           ++ right. exists v. split; [by right | done].
        -- intros [H|(v & [[= <- <-]|Hin] & Hf)]; [by left; right | by left; left |].
           right. eauto.
    + destruct (IH errors Hplain)
        as [((k & v & Hin & Hbreak) & Hthrown)|(Hnone & errors' & -> & Hplain' & Hkeys)].
      * left. split; [exists k, v; split; [by right | done] | done].
      * right. split.
        { intros k v [[= <- <-]|Hin]; [done | by apply Hnone]. }
        exists errors'. split_and!; [done | done |].
        intros k. rewrite Hkeys. split.
        -- intros [H|(v & Hin & Hf)]; [by left |]. right. exists v. split; [by right | done].
        -- intros [H|(v & [[= <- <-]|Hin] & Hf)]; [by left | done |]. right. eauto.
Qed.

(** *** The required names *)

Lemma existsb_eqb (own : list string) (k : string) :
  existsb (String.eqb k) own = true <-> In k own.
Proof.
  rewrite existsb_exists. split.
  - intros (k' & Hin & Heq). apply String.eqb_eq in Heq. by subst.
  - intros Hin. exists k. split; [done | apply String.eqb_refl].
Qed.

Lemma hasProperty_false (customFields : list (string * JsValue)) (k : string) :
  hasProperty (List.map fst customFields) k = false
  <-> (forall v, ~ In (k, v) customFields) /\ inherited k = false.
Proof.
  unfold hasProperty. rewrite orb_false_iff. split.
  - intros [Hown Hk]. split; [| done].
    intros v Hin. apply not_true_iff_false in Hown. apply Hown, existsb_eqb.
    apply in_map_iff. by exists (k, v).
  - intros [Habsent Hk]. split; [| done].
    apply not_true_iff_false. intros Hown%existsb_eqb.
    apply in_map_iff in Hown as ([k' v] & <- & Hin). by apply (Habsent v).
Qed.

(** What one turn of the second loop does: it never throws. *)
Lemma checkRequired_outcome (customFields : list (string * JsValue))
    (errors : gmap string (list string)) (d : CustomFieldDefinition) :
  exists errors',
    CustomFields.checkRequired customFields errors d = Ok errors'
    /\ (plain errors -> plain errors')
    /\ forall k, is_Some (errors' !! k)
                 <-> is_Some (errors !! k)
                     \/ (cfd_required d = true /\ cfd_name d = k
                         /\ (forall v, ~ In (k, v) customFields) /\ inherited k = false).
Proof.
  unfold CustomFields.checkRequired.
  destruct (cfd_required d) eqn:Hreq; cbn [andb].
  - destruct (hasProperty _ _) eqn:Hhas; cbn [negb].
    + exists errors. split_and!; [done | done |].
      intros k. split; [auto | intros [H|(_ & <- & Habsent)]; [done |]].
      apply hasProperty_false in Habsent. congruence.
    + apply hasProperty_false in Hhas as [Habsent Hk].
      rewrite pushError_recorded by done. eexists. split_and!; [done | |].
      * intros Hplain. by apply plain_insert.
      * intros k. rewrite is_Some_insert. split.
        -- intros [->|H]; [right | by left]. done.
        -- intros [H|(_ & <- & _)]; [by right | by left].
  - exists errors. split_and!; [done | done |].
    intros k. split; [auto | intros [H|(? & _)]; done].
Qed.

Lemma checkAllRequired_outcome (customFields : list (string * JsValue))
    (definitions : list CustomFieldDefinition) (errors : gmap string (list string)) :
  exists errors',
    CustomFields.forEach (CustomFields.checkRequired customFields) definitions errors
    = Ok errors'
    /\ forall k, is_Some (errors' !! k)
                 <-> is_Some (errors !! k)
                     \/ (CustomFields.missingRequired definitions customFields k
                         /\ inherited k = false).
Proof.
  unfold CustomFields.missingRequired.
  revert errors. induction definitions as [|d definitions IH]; intros errors.
  - exists errors. split; [done |].
    intros k. split; [auto | intros [H|[(d & [] & _) _]]; done].
  - cbn [CustomFields.forEach].
    destruct (checkRequired_outcome customFields errors d) as (errors1 & -> & _ & Hone).
    destruct (IH errors1) as (errors' & -> & Hrest).
    exists errors'. split; [done |].
    intros k. rewrite Hrest, Hone. split.
    + intros [[H|(Hr & Hn & Ha & Hk)]|[(d' & Hin & H) Hk]]; [by left | |].
      * right. split; [| done]. exists d. split; [by left | done].
      * right. split; [| done]. exists d'. split; [by right | done].
    + intros [H|[(d' & [<-|Hin] & Hr & Hn & Ha) Hk]]; [by left; left | |].
      * left; right. done.
      * right. split; [| done]. exists d'. done.
Qed.

(** *** Both loops *)

Lemma collectErrors_outcome (definitions : list CustomFieldDefinition)
    (customFields : list (string * JsValue)) :
  (breaks definitions customFields
   /\ exists message,
        collectErrors definitions customFields = Err (JsError "TypeError" message))
  \/ (~ breaks definitions customFields
      /\ exists errors,
           collectErrors definitions customFields = Ok errors
           /\ forall k, is_Some (errors !! k) <-> atFault definitions customFields k).
Proof.
  unfold CustomFields.collectErrors, CustomFields.breaks.
  destruct (checkEntries_outcome definitions customFields ∅)
    as [(Hbreak & m & ->)|(Hnone & errors1 & -> & _ & Hfirst)].
  - intros k [x Hx]. by rewrite lookup_empty in Hx.
  - left. eauto.
  - right. split; [intros (k & v & Hin & Hb); by apply (Hnone k v) |].
    destruct (checkAllRequired_outcome customFields definitions errors1)
      as (errors & -> & Hsecond).
    exists errors. split; [done |].
    intros k. rewrite Hsecond, Hfirst, lookup_empty.
    unfold CustomFields.atFault, CustomFields.unknownKey, CustomFields.rejectedValue,
      CustomFields.entryAtFault. split.
    + intros [[H|(v & Hin & [Hu|(d & Hd & Hr)])]|H]; [by destruct H | | | auto].
      * left. eauto.
      * right; left. eauto.
    + intros [[[v Hin] Hu]|[(v & d & Hin & Hd & Hr)|H]]; [| | auto].
      * left; right. eauto.
      * left; right. eauto 6.
Qed.

Lemma size_pos_is_Some (errors : gmap string (list string)) :
  0 < size errors <-> exists k, is_Some (errors !! k).
Proof.
  split.
  - intros Hpos. destruct (map_choose errors) as (k & x & Hk).
    + intros ->. rewrite map_size_empty in Hpos. lia.
    + eauto.
  - intros (k & x & Hk). destruct (decide (size errors = 0)) as [Hz|]; [| lia].
    apply map_size_empty_iff in Hz. subst. by rewrite lookup_empty in Hk.
Qed.

(** C1 (amended). [validateCustomFields] breaks off with a TypeError exactly
    when some candidate entry cannot be checked or recorded: a date field
    whose value the runtime cannot convert, or an entry at fault under a
    name inherited from [Object.prototype]. Otherwise it throws the
    Validation failure exactly when some candidate key has no definition of
    that name, or some candidate value is turned down for its definition (a
    null or undefined value of a required field, any other value that fails
    the kind's check), or some required definition's name is neither a key of
    the candidate nor a name it inherits; the error mapping attached to the
    failure has an entry under exactly the field names at fault, all of them;
    and with no break and no fault it returns. *)
Theorem validateCustomFields_reports_every_fault
    (definitions : list CustomFieldDefinition) (customFields : list (string * JsValue)) :
  ((exists message, validateCustomFields definitions customFields
                    = Err (JsError "TypeError" message))
   <-> breaks definitions customFields)
  /\ ((exists errors, validateCustomFields definitions customFields
                      = Err (ValidationError "Custom field validation failed" errors))
      <-> ~ breaks definitions customFields
          /\ exists k, atFault definitions customFields k)
  /\ (forall message errors,
        validateCustomFields definitions customFields
        = Err (ValidationError message errors) ->
        forall k, atFault definitions customFields k <-> is_Some (errors !! k))
  /\ (validateCustomFields definitions customFields = Ok tt
      <-> ~ breaks definitions customFields
          /\ ~ exists k, atFault definitions customFields k).
Proof.
  unfold CustomFields.validateCustomFields.
  destruct (collectErrors_outcome definitions customFields)
    as [(Hbreak & m & ->)|(Hno & errors & -> & Hkeys)].
  - split_and!.
    + split; [done | eauto].
    + split; [intros [errors [=]] | intros [Hno _]; done].
    + intros message errors [=].
    + split; [intros [=] | intros [Hno _]; done].
  - assert (Hpos : 0 < size errors <-> exists k, atFault definitions customFields k).
    { rewrite size_pos_is_Some. by setoid_rewrite Hkeys. }
    case_bool_decide as Hsize.
    + split_and!.
      * split; [intros [m [=]] | done].
      * split; [intros _; split; [done | by apply Hpos] | eauto].
      * intros message errors' [= _ <-] k. by rewrite Hkeys.
      * split; [intros [=] | intros [_ Hnone]; destruct Hnone; by apply Hpos].
    + split_and!.
      * split; [intros [m [=]] | done].
      * split; [intros [errors' [=]] | intros [_ Hsome]; by apply Hpos in Hsome].
      * intros message errors' [=].
      * split; [intros _; split; [done | by rewrite <- Hpos] | done].
Qed.


(** C7 (amended). For a definition of kind number, validation accepts a value
    exactly when it is null or undefined and the field is not required, or it
    is of number type and not NaN: the infinities are accepted, only NaN is
    rejected among the numbers. *)
Theorem number_field_accepts_non_NaN_numbers (d : CustomFieldDefinition) (v : JsValue) :
  cfd_fieldType d = "number" ->
  (validateCustomFieldValue d v = Ok accept
   <-> (isNullish v = true /\ cfd_required d = false)
       \/ exists x, v = JNum x /\ x <> S754_nan)
  /\ validateCustomFieldValue d (JNum S754_nan)
     = Ok (reject ("Field '" ++ cfd_label d ++ "' must be a number")%string)
  /\ (exists r, validateCustomFieldValue d v = Ok r)
  /\ (forall r, validateCustomFieldValue d v = Ok r -> valid r = true -> r = accept).
Proof.
  intros Hkind. unfold CustomFields.validateCustomFieldValue, CustomFields.kindCheck.
  rewrite Hkind. split_and!; [| done | |].
  2: { simpl. repeat match goal with
                     | |- context [if ?b then _ else _] => destruct b
                     end; eauto. }
  2: { intros r Hr Hvalid. revert Hr. simpl.
       repeat match goal with
              | |- context [if ?b then _ else _] => destruct b
              end; intros [= <-]; done. }
  destruct v as [| |b|x|s|t|items|fields|name]; simpl.
  1,2: destruct (cfd_required d); simpl; split;
       [done | intros [[_ ?]|(x & ? & _)]; done
       | intros _; by left | done].
  all: try (split; [done | intros [[? _]|(x & ? & _)]; done]).
  destruct x; simpl; split; try done;
    try (intros _; right; eexists; split; [reflexivity | discriminate]).
  intros [[? _]|(x & [= <-] & Hx)]; done.
Qed.

Lemma one_value_per_key (customFields : list (string * JsValue)) (k : string)
    (v v' : JsValue) :
  NoDup customFields.*1 -> In (k, v) customFields -> In (k, v') customFields -> v = v'.
Proof.
  induction customFields as [|[k0 v0] customFields IH]; [intros _ [] |].
  rewrite fmap_cons. cbn [fst]. intros [Hfresh Hrest]%NoDup_cons.
  assert (Hother : forall w, In (k0, w) customFields -> False).
  { intros w Hin. apply Hfresh, list_elem_of_fmap. exists (k0, w).
    split; [done | by apply list_elem_of_In]. }
  intros [[= <- <-]|Hin] [[= <-]|Hin']; [done | | | by apply IH].
  - by destruct (Hother v').
  - subst. by destruct (Hother v).
Qed.

(** C9. For a definition that is not required, of any kind, a null or
    undefined value is accepted without the kind's check being consulted: the
    entry holding it is passed over without an error and without a throw, and
    a candidate key holding it gets no entry in the error mapping. *)
Theorem nullish_value_passes_when_not_required (d : CustomFieldDefinition) (v : JsValue) :
  cfd_required d = false ->
  isNullish v = true ->
  validateCustomFieldValue d v = Ok accept
  /\ (forall definitions (errors : gmap string (list string)) (k : string),
        CustomFields.findDefinition definitions k = Some d ->
        checkEntry definitions errors (k, v) = Ok errors)
  /\ forall definitions (customFields : list (string * JsValue)) (k : string)
            (errors : gmap string (list string)),
       In (k, v) customFields ->
       NoDup customFields.*1 ->
       CustomFields.findDefinition definitions k = Some d ->
       collectErrors definitions customFields = Ok errors ->
       errors !! k = None.
Proof.
  intros Hreq Hnull.
  assert (Hacc : validateCustomFieldValue d v = Ok accept).
  { unfold CustomFields.validateCustomFieldValue. by rewrite Hnull, Hreq. }
  split_and!; [done | |].
  - intros definitions errors k Hfind. unfold CustomFields.checkEntry.
    by rewrite Hfind, Hacc.
  - intros definitions customFields k errors Hin Hone Hfind Hcollected.
    destruct (collectErrors_outcome definitions customFields)
      as [(_ & m & Hthrown)|(_ & errors' & Hok & Hkeys)]; [congruence |].
    assert (errors' = errors) as -> by congruence.
    apply eq_None_not_Some. rewrite Hkeys.
    apply findDefinition_Some in Hfind.
    intros [[_ Hunknown]|[(v' & d' & Hin' & Hd' & Hbad)|[(d' & _ & _ & _ & Habsent) _]]].
    + by apply (definitionOf_defined _ _ _ Hfind).
    + rewrite (one_value_per_key _ _ _ _ Hone Hin' Hin) in Hbad.
      rewrite (definitionOf_unique _ _ _ _ Hd' Hfind) in Hbad.
      destruct Hbad as [[_ ?]|[? _]]; congruence.
    + by apply (Habsent v).
Qed.

End ValidationFacts.

(** C1 as stated fails: null is not a string, so it does not pass the text
    kind's check, yet an optional text field holding null is not reported. *)
Lemma null_text_value_is_not_reported :
  ~ ((exists errors,
        CustomFields.validateCustomFields everyDateInvalid everyValueConverts
          [optionalNickname] [("nickname", JNull)]
        = Err (ValidationError "Custom field validation failed" errors))
     <-> exists k,
           CustomFields.unknownKey [optionalNickname] [("nickname", JNull)] k
           \/ CustomFields.failsKindCheck everyDateInvalid [optionalNickname]
                [("nickname", JNull)] k
           \/ CustomFields.missingRequired [optionalNickname] [("nickname", JNull)] k).
Proof.
  intros [_ Hthrows].
  destruct Hthrows as [errors Herr].
  - exists "nickname". right; left. exists JNull, optionalNickname.
    split_and!; [by left | |].
    + exists [], []. split_and!; [done | done | intros d' []].
    + apply CustomFields.text_wants_a_string; [done | discriminate].
  - vm_compute in Herr. discriminate.
Qed.

(** C7 as stated fails: positive infinity is accepted although not finite. *)
Lemma infinity_accepted_by_number_field :
  ~ (CustomFields.validateCustomFieldValue everyDateInvalid everyValueConverts scoreField
       (JNum (S754_infinity false)) = Ok accept
     <-> float_isFinite (S754_infinity false) = true).
Proof. intros [H _]. by specialize (H eq_refl). Qed.

Lemma number_field_accepts_non_NaN_numbers_witness :
  cfd_fieldType scoreField = "number"
  /\ CustomFields.validateCustomFieldValue everyDateInvalid everyValueConverts scoreField
       (JNum (S754_finite false 3 0)) = Ok accept.
Proof.
  split; [reflexivity |].
  apply (number_field_accepts_non_NaN_numbers everyDateInvalid everyValueConverts scoreField
           (JNum (S754_finite false 3 0)) eq_refl).
  right. eexists. split; [reflexivity | discriminate].
Defined.

(** An optional text field holding null: the text check alone would turn null
    down, the validation accepts it. *)
Lemma nullish_value_passes_when_not_required_witness :
  cfd_required optionalNickname = false
  /\ isNullish JNull = true
  /\ CustomFields.kindCheck everyDateInvalid everyValueConverts optionalNickname JNull
     = Ok (reject "Field 'Nickname' must be a string")
  /\ CustomFields.validateCustomFieldValue everyDateInvalid everyValueConverts
       optionalNickname JNull = Ok accept.
Proof.
  split; [reflexivity | split; [reflexivity | split; [reflexivity |]]].
  apply (nullish_value_passes_when_not_required everyDateInvalid everyValueConverts
           optionalNickname JNull eq_refl eq_refl).
Defined.

(** The scenario of the specification, a required enum field "industry" and a
    company created without it, and a candidate with a key named as a method
    every object inherits. *)
Lemma validateCustomFields_reports_every_fault_witness :
  (exists errors,
     CustomFields.validateCustomFields everyDateInvalid everyValueConverts
       [industryField] []
     = Err (ValidationError "Custom field validation failed" errors)
     /\ is_Some (errors !! "industry"))
  /\ exists message,
       CustomFields.validateCustomFields everyDateInvalid everyValueConverts
         [] [("constructor", JStr "x")]
       = Err (JsError "TypeError" message).
Proof.
  split.
  - pose proof (validateCustomFields_reports_every_fault everyDateInvalid
                  everyValueConverts [industryField] [])
      as (_ & Hthrows & Hall & _).
    assert (Hfault : CustomFields.atFault everyDateInvalid everyValueConverts
                       [industryField] [] "industry").
    { right; right. split; [| reflexivity].
      exists industryField. split; [by left |].
      split; [reflexivity | split; [reflexivity | intros v []]]. }
    destruct (proj2 Hthrows) as [errors Herr].
    { split; [intros (k & v & [] & _) | by exists "industry"]. }
    exists errors. split; [exact Herr |]. by apply (Hall _ _ Herr).
  - apply (proj1 (validateCustomFields_reports_every_fault everyDateInvalid
                    everyValueConverts [] [("constructor", JStr "x")])).
    exists "constructor", (JStr "x"). split; [by left |].
    right. split; [reflexivity |]. left. intros d [].
Defined.

(** ** The audit diff *)

Section AuditFacts.

Variable P : Platform.

Lemma inherited_elem_of (k : string) : inherited k = true <-> k ∈ Object_prototype.
Proof.
  unfold inherited. rewrite existsb_exists, list_elem_of_In. split.
  - intros (k' & Hin & Heq). apply String.eqb_eq in Heq. by subst.
  - intros Hin. exists k. split; [done | apply String.eqb_refl].
Qed.







End AuditFacts.



(** ** The transaction coordinator *)

Import Transaction.

Section TransactionFacts.

Variable pool : Pool.
Context {T : Type}.

Ltac run_coordinator :=
  unfold executeInTransaction, withTransaction, bind, tryFinally, tryCatch, connect,
    clientQuery, release, run, ret, throw.

Lemma coordinator_trace (wrap : Error -> Error) (callback : UnitOfWork T)
    (h : list Event) (client : nat) :
  pool_connect pool h = Ok client ->
  let tx : M History T :=
    (c <- connect pool ;;
     tryFinally
       (tryCatch
          (_ <- clientQuery pool c "BEGIN" ;;
           result <- run callback c ;;
           _ <- clientQuery pool c "COMMIT" ;;
           ret result)
          (fun error => _ <- clientQuery pool c "ROLLBACK" ;; throw (wrap error)))
       (release c)) in
  exists sent closing,
    snd (tx h)
    = (h ++ [Connect client; Query client "BEGIN"] ++ sent ++ closing ++ [Release client])%list
    /\ ((beginAccepted pool client h /\ sent = snd (callback client (started client h)))
        \/ (~ beginAccepted pool client h /\ sent = []))
    /\ (unitOfWorkReturns pool callback client h ->
        closing = [Query client "COMMIT"]
        \/ closing = [Query client "COMMIT"; Query client "ROLLBACK"])
    /\ (~ unitOfWorkReturns pool callback client h ->
        closing = [Query client "ROLLBACK"]).
Proof.
  intros Hconnect. cbv zeta. unfold unitOfWorkReturns, beginAccepted, started.
  run_coordinator. rewrite Hconnect.
  destruct (client_refuses pool client "BEGIN" (h ++ [Connect client])) as [e|] eqn:Hbegin.
  - exists [], [Query client "ROLLBACK"].
    destruct (client_refuses pool client "ROLLBACK" _); simpl;
      (split_and!; [by rewrite <- !app_assoc | right; done | intros [[=] _] | done]).
  - destruct (callback client ((h ++ [Connect client]) ++ [Query client "BEGIN"]))
      as [[e|a] sent] eqn:Hcb.
    + exists sent, [Query client "ROLLBACK"].
      destruct (client_refuses pool client "ROLLBACK" _); simpl;
        (split_and!;
         [ by rewrite <- !app_assoc | left; done
         | intros [_ [a [=]]] | done ]).
    + destruct (client_refuses pool client "COMMIT" _) as [e|] eqn:Hcommit.
      * exists sent, [Query client "COMMIT"; Query client "ROLLBACK"].
        destruct (client_refuses pool client "ROLLBACK" _); simpl;
          (split_and!;
           [ by rewrite <- !app_assoc | left; done
           | intros _; by right | intros Hno; destruct Hno; eauto ]).
      * exists sent, [Query client "COMMIT"]. simpl.
        split_and!;
          [ by rewrite <- !app_assoc | left; done
          | intros _; by left | intros Hno; destruct Hno; eauto ].
Qed.


(** C5. Once the pool hands out a connection, both coordinators send BEGIN
    on it before the unit of work runs, send COMMIT exactly when the unit of
    work returns, send ROLLBACK whenever it does not (and after a COMMIT the
    store turns down), and release that connection once, last, on every
    path. *)
Theorem transaction_brackets_the_unit_of_work (callback : UnitOfWork T)
    (h : list Event) (client : nat) :
  pool_connect pool h = Ok client ->
  forall tx : M History T,
    tx = executeInTransaction pool callback \/ tx = withTransaction pool callback ->
    exists sent closing,
      snd (tx h)
      = h ++ [Connect client; Query client "BEGIN"] ++ sent ++ closing ++ [Release client]
      /\ ((beginAccepted pool client h /\ sent = snd (callback client (started client h)))
          \/ (~ beginAccepted pool client h /\ sent = []))
      /\ (unitOfWorkReturns pool callback client h ->
          closing = [Query client "COMMIT"]
          \/ closing = [Query client "COMMIT"; Query client "ROLLBACK"])
      /\ (~ unitOfWorkReturns pool callback client h ->
          closing = [Query client "ROLLBACK"]).
Proof.
  intros Hconnect tx [->| ->].
  - exact (coordinator_trace (fun e => DatabaseError "Transaction failed" e)
             callback h client Hconnect).
  - exact (coordinator_trace (fun e => e) callback h client Hconnect).
Qed.

(** C10 (amended). When the unit of work throws and the ROLLBACK that
    follows goes through, [executeInTransaction] throws a DatabaseError
    wrapping what was thrown, whatever its kind, while [withTransaction]
    rethrows it as it is; when the ROLLBACK is itself turned down, both throw
    the error of the ROLLBACK instead, unwrapped. *)
Theorem managed_transaction_wraps_failures (callback : UnitOfWork T)
    (h : list Event) (client : nat) (e : Error) (sent : list Event) :
  pool_connect pool h = Ok client ->
  beginAccepted pool client h ->
  callback client (started client h) = (Err e, sent) ->
  (client_refuses pool client "ROLLBACK" (started client h ++ sent) = None ->
   fst (executeInTransaction pool callback h) = Err (DatabaseError "Transaction failed" e)
   /\ fst (withTransaction pool callback h) = Err e)
  /\ (forall e',
        client_refuses pool client "ROLLBACK" (started client h ++ sent) = Some e' ->
        fst (executeInTransaction pool callback h) = Err e'
        /\ fst (withTransaction pool callback h) = Err e').
Proof.
  unfold beginAccepted, started. intros Hconnect Hbegin Hcb. split.
  - intros Hrollback. run_coordinator. rewrite Hconnect, Hbegin, Hcb, Hrollback. done.
  - intros e' Hrollback. run_coordinator. rewrite Hconnect, Hbegin, Hcb, Hrollback. done.
Qed.

End TransactionFacts.

Lemma transaction_brackets_the_unit_of_work_witness :
  pool_connect steadyPool [] = Ok 7
  /\ exists sent closing,
       snd (withTransaction steadyPool failingWork [])
       = [] ++ [Connect 7; Query 7 "BEGIN"] ++ sent ++ closing ++ [Release 7]
       /\ ((beginAccepted steadyPool 7 [] /\ sent = snd (failingWork 7 (started 7 [])))
           \/ (~ beginAccepted steadyPool 7 [] /\ sent = []))
       /\ (unitOfWorkReturns steadyPool failingWork 7 [] ->
           closing = [Query 7 "COMMIT"]
           \/ closing = [Query 7 "COMMIT"; Query 7 "ROLLBACK"])
       /\ (~ unitOfWorkReturns steadyPool failingWork 7 [] ->
           closing = [Query 7 "ROLLBACK"]).
Proof.
  split; [reflexivity |].
  apply (transaction_brackets_the_unit_of_work steadyPool failingWork [] 7 eq_refl
           (withTransaction steadyPool failingWork)).
  right. reflexivity.
Defined.

(** C10 as stated fails: with a ROLLBACK that is turned down, the error of
    the unit of work reaches the caller neither wrapped nor as it was. *)
Lemma rollback_failure_replaces_the_error_of_the_unit_of_work :
  fst (failingWork 7 (started 7 [])) = Err (NotFoundError "Deal" "42")
  /\ fst (executeInTransaction brokenPool failingWork [])
     <> Err (DatabaseError "Transaction failed" (NotFoundError "Deal" "42"))
  /\ fst (withTransaction brokenPool failingWork []) <> Err (NotFoundError "Deal" "42").
Proof. split; [reflexivity | split; vm_compute; discriminate]. Qed.

Lemma managed_transaction_wraps_failures_witness :
  (fst (executeInTransaction steadyPool failingWork [])
   = Err (DatabaseError "Transaction failed" (NotFoundError "Deal" "42"))
   /\ fst (withTransaction steadyPool failingWork []) = Err (NotFoundError "Deal" "42"))
  /\ fst (executeInTransaction brokenPool failingWork []) = Err connectionLost.
Proof.
  split.
  - apply (proj1 (managed_transaction_wraps_failures steadyPool failingWork [] 7
                    (NotFoundError "Deal" "42") [Query 7 "UPDATE deals"]
                    eq_refl eq_refl eq_refl)).
    reflexivity.
  - apply (proj2 (managed_transaction_wraps_failures brokenPool failingWork [] 7
                    (NotFoundError "Deal" "42") [Query 7 "UPDATE deals"]
                    eq_refl eq_refl eq_refl) connectionLost).
    reflexivity.
Defined.

(** ** Repositories and services *)

Lemma bind_Ok {S A B : Type} (m : M S A) (k : A -> M S B) (s s' : S) (b : B) :
  bind m k s = (Ok b, s') ->
  exists a s1, m s = (Ok a, s1) /\ k a s1 = (Ok b, s').
Proof.
  unfold bind. destruct (m s) as [[e|a] s1]; [discriminate | eauto].
Qed.

Section StoreFacts.

Variable P : Platform.

Lemma query_select_by_id (table id : string) (db : Store) :
  pgRefuses P (SelectById table id) db = None ->
  Pg.query P (SelectById table id) db
  = (Ok (mkQueryResult (List.filter (Pg.rowHasId id) (Pg.tableRows table db))
           (length (List.filter (Pg.rowHasId id) (Pg.tableRows table db)))), db).
Proof. intros Hok. unfold Pg.query. by rewrite Hok. Qed.

Lemma findById_found {T : Type} (R : RepoSpec T) (id : string) (db : Store)
    (row : Row) (rest : list Row) :
  pgRefuses P (SelectById (repo_table R) id) db = None ->
  List.filter (Pg.rowHasId id) (Pg.tableRows (repo_table R) db) = row :: rest ->
  Repository.findById P R id db = (Ok (Some (repo_mapRow R row)), db).
Proof.
  intros Hok Hrows. unfold Repository.findById, tryCatch, bind.
  rewrite query_select_by_id by done. simpl. by rewrite Hrows.
Qed.

Lemma findById_absent {T : Type} (R : RepoSpec T) (id : string) (db : Store) :
  pgRefuses P (SelectById (repo_table R) id) db = None ->
  List.filter (Pg.rowHasId id) (Pg.tableRows (repo_table R) db) = [] ->
  Repository.findById P R id db = (Ok None, db).
Proof.
  intros Hok Hrows. unfold Repository.findById, tryCatch, bind.
  rewrite query_select_by_id by done. simpl. by rewrite Hrows.
Qed.

Lemma collectUpdates_nil {T : Type} (R : RepoSpec T) (data : gmap string JsValue) :
  (forall f, In f (repo_updateFields R) -> getProp data (fst (fst f)) = JUndefined) ->
  Repository.collectUpdates R data = [].
Proof.
  unfold Repository.collectUpdates.
  induction (repo_updateFields R) as [|[[field column] bound] fields IH]; intros Hnone; [done |].
  cbn [flat_map]. pose proof (Hnone (field, column, bound) (or_introl eq_refl)) as Hf.
  simpl in Hf. rewrite Hf. simpl.
  apply IH. intros f Hin. apply Hnone. by right.
Qed.



Lemma repository_handler_wraps_other_codes {T : Type} (R : RepoSpec T) (p : PgError) :
  pg_code p = Some "23502" \/ pg_code p = Some "22P02" ->
  Repository.handleDatabaseError R (PgDriverError p)
  = DatabaseError "Database operation failed" (PgDriverError p).
Proof.
  intros Hcode. unfold Repository.handleDatabaseError, hasCode. simpl.
  destruct Hcode as [-> | ->]; reflexivity.
Qed.

Lemma repository_handler_sorts_by_code {T : Type} (R : RepoSpec T) (e : Error) :
  (isConstraintViolationError (Repository.handleDatabaseError R e) = true
   <-> exists code, errorCode e = Some code /\ In code ["23503"; "23505"; "23514"])
  /\ isValidationError (Repository.handleDatabaseError R e) = false
  /\ ((forall code, errorCode e = Some code -> ~ In code ["23503"; "23505"; "23514"]) ->
      Repository.handleDatabaseError R e = DatabaseError "Database operation failed" e).
Proof.
  unfold Repository.handleDatabaseError, hasCode.
  destruct (errorCode e) as [code|] eqn:Hcode.
  - destruct (String.eqb_spec code "23503") as [->|H1].
    { split_and!; [| done |].
      - split; [intros _; eexists; split; [done | simpl; tauto] | done].
      - intros Hnot. destruct (Hnot _ eq_refl). simpl. tauto. }
    destruct (String.eqb_spec code "23505") as [->|H2].
    { split_and!; [| done |].
      - split; [intros _; eexists; split; [done | simpl; tauto] | done].
      - intros Hnot. destruct (Hnot _ eq_refl). simpl. tauto. }
    destruct (String.eqb_spec code "23514") as [->|H3].
    { split_and!; [| done |].
      - split; [intros _; eexists; split; [done | simpl; tauto] | done].
      - intros Hnot. destruct (Hnot _ eq_refl). simpl. tauto. }
    split_and!; [| done | done].
    split; [done |]. intros (code' & [= <-] & [<-|[<-|[<-|[]]]]); done.
  - split_and!; [| done | done].
    split; [done | intros (code' & [=] & _)].
Qed.

(** C8 (amended). The shared [handleDatabaseError] of utils/error-handler
    turns a not-null violation (23502) into a ConstraintViolationError whose
    message names the column, and a malformed literal (22P02) into a
    ValidationError; the handler private to each repository makes a
    ConstraintViolationError of the codes 23503, 23505 and 23514 only and a
    ValidationError of none, so a not-null violation or a malformed literal
    leaves [create], [findById], [update] and [delete] of every repository as
    a DatabaseError wrapping the store's error, wrapped once more where the
    statement turned down is the lookup that [update] without a recognised
    field, or the custom field definitions' [delete], starts with. *)
Theorem only_the_shared_handler_translates_not_null_and_malformed_literal (p : PgError) :
  (pg_code p = Some "23502" ->
   ErrorHandler.handleDatabaseError (PgDriverError p)
   = ConstraintViolationError
       ("Required field '" ++ orElse (pg_column p) "unknown" ++ "' cannot be null")%string
       "not_null")
  /\ (pg_code p = Some "22P02" ->
      ErrorHandler.handleDatabaseError (PgDriverError p)
      = ValidationError "Invalid data format"
          {[ "format" := ["Invalid UUID or data type format"] ]})
  /\ (forall (T : Type) (R : RepoSpec T) (e : Error),
        (isConstraintViolationError (Repository.handleDatabaseError R e) = true
         <-> exists code, errorCode e = Some code /\ In code ["23503"; "23505"; "23514"])
        /\ isValidationError (Repository.handleDatabaseError R e) = false)
  /\ (pg_code p = Some "23502" \/ pg_code p = Some "22P02" ->
      forall (T : Type) (R : RepoSpec T),
        Repository.handleDatabaseError R (PgDriverError p)
        = DatabaseError "Database operation failed" (PgDriverError p)
        /\ (forall data userId db,
              pgRefuses P (InsertReturning (repo_table R) (repo_insertValues R data userId)) db
              = Some p ->
              Repository.create P R data userId db
              = (Err (DatabaseError "Database operation failed" (PgDriverError p)), db))
        /\ (forall id db,
              pgRefuses P (SelectById (repo_table R) id) db = Some p ->
              Repository.findById P R id db
              = (Err (DatabaseError "Database operation failed" (PgDriverError p)), db))
        /\ (forall id data userId db,
              Repository.collectUpdates R data = [] ->
              pgRefuses P (SelectById (repo_table R) id) db = Some p ->
              Repository.update P R id data userId db
              = (Err (DatabaseError "Database operation failed"
                        (DatabaseError "Database operation failed" (PgDriverError p))), db))
        /\ (forall id data userId db,
              Repository.collectUpdates R data <> [] ->
              pgRefuses P
                (if repo_stampsUpdate R
                 then UpdateReturning (repo_table R)
                        (Repository.collectUpdates R data ++ [("updated_by", JStr userId)])
                        ["updated_at"] id
                 else UpdateReturning (repo_table R) (Repository.collectUpdates R data) [] id)
                db = Some p ->
              Repository.update P R id data userId db
              = (Err (DatabaseError "Database operation failed" (PgDriverError p)), db))
        /\ (forall id userId db,
              pgRefuses P (DeleteById (repo_table R) id) db = Some p ->
              Repository.delete P R id userId db
              = (Err (DatabaseError "Database operation failed" (PgDriverError p)), db))
        /\ (forall id userId db,
              pgRefuses P (SelectById (repo_table R) id) db = Some p ->
              Repository.deleteAfterLookup P R id userId db
              = (Err (DatabaseError "Database operation failed"
                        (DatabaseError "Database operation failed" (PgDriverError p))), db))
        /\ (forall id userId db row rest,
              pgRefuses P (SelectById (repo_table R) id) db = None ->
              List.filter (Pg.rowHasId id) (Pg.tableRows (repo_table R) db) = row :: rest ->
              pgRefuses P (DeleteById (repo_table R) id) db = Some p ->
              Repository.deleteAfterLookup P R id userId db
              = (Err (DatabaseError "Database operation failed" (PgDriverError p)), db))).
Proof.
  split_and!.
  - intros Hcode. unfold ErrorHandler.handleDatabaseError, hasCode. simpl.
    by rewrite Hcode.
  - intros Hcode. unfold ErrorHandler.handleDatabaseError, hasCode. simpl.
    by rewrite Hcode.
  - intros T R e. by destruct (repository_handler_sorts_by_code R e) as (? & ? & _).
  - intros Hcode T R.
    assert (Hfind : forall id db,
              pgRefuses P (SelectById (repo_table R) id) db = Some p ->
              Repository.findById P R id db
              = (Err (DatabaseError "Database operation failed" (PgDriverError p)), db)).
    { intros id db Href.
      unfold Repository.findById, tryCatch, bind, Pg.query, throw. rewrite Href.
      by rewrite repository_handler_wraps_other_codes. }
    split_and!.
    + by apply repository_handler_wraps_other_codes.
    + intros data userId db Href.
      unfold Repository.create, tryCatch, bind, Pg.query, throw. rewrite Href.
      by rewrite repository_handler_wraps_other_codes.
    + done.
    + intros id data userId db Hnone Href.
      unfold Repository.update, tryCatch. rewrite Hnone.
      unfold bind. by rewrite Hfind by done.
    + intros id data userId db Hsome Href.
      unfold Repository.update, tryCatch.
      destruct (Repository.collectUpdates R data) as [|u updates]; [done |].
      unfold bind, Pg.query, throw. rewrite Href.
      cbn [isNotFoundError]. by rewrite repository_handler_wraps_other_codes.
    + intros id userId db Href.
      unfold Repository.delete, tryCatch, bind, Pg.query, throw. rewrite Href.
      cbn [isNotFoundError]. by rewrite repository_handler_wraps_other_codes.
    + intros id userId db Href.
      unfold Repository.deleteAfterLookup, tryCatch, bind.
      rewrite Hfind by done. done.
    + intros id userId db row rest Hok Hrows Href.
      unfold Repository.deleteAfterLookup, tryCatch, bind.
      rewrite (findById_found R id db row rest Hok Hrows).
      unfold Pg.query, throw. rewrite Href.
      cbn [isNotFoundError]. by rewrite repository_handler_wraps_other_codes.
Qed.

(** *** An id nothing is stored under *)

Lemma entity_service_answers_a_missing_id_with_a_validation_error (S : ServiceSpec)
    (id : string) (db : Store) :
  pgRefuses P (SelectById (repo_table (svc_repository S)) id) db = None ->
  List.filter (Pg.rowHasId id) (Pg.tableRows (repo_table (svc_repository S)) db) = [] ->
  Service.get P S id db = (Err (Service.notFound S), db)
  /\ (forall userId, Service.delete P S id userId db = (Err (Service.notFound S), db))
  /\ (forall data validatedData userId,
        validateData P (svc_updateSchema S) data = Ok validatedData ->
        Service.update P S id data userId db = (Err (Service.notFound S), db)).
Proof.
  intros Hok Hrows.
  pose proof (findById_absent (svc_repository S) id db Hok Hrows) as Hfind.
  split_and!.
  - unfold Service.get, bind. by rewrite Hfind.
  - intros userId. unfold Service.delete, bind. by rewrite Hfind.
  - intros data validatedData userId Hvalid.
    unfold Service.update, bind, liftResult. rewrite Hvalid. simpl. by rewrite Hfind.
Qed.

Lemma custom_field_service_answers_a_missing_id_with_a_validation_error
    (id : string) (db : Store) :
  pgRefuses P (SelectById "custom_field_definitions" id) db = None ->
  List.filter (Pg.rowHasId id) (Pg.tableRows "custom_field_definitions" db) = [] ->
  CustomFieldService.getCustomFieldDefinition P id db = (Err CustomFieldService.notFound, db)
  /\ (forall userId,
        CustomFieldService.deleteCustomFieldDefinition P id userId db
        = (Err CustomFieldService.notFound, db))
  /\ (forall data userId,
        CustomFieldService.updateCustomFieldDefinition P id data userId db
        = (Err CustomFieldService.notFound, db)).
Proof.
  intros Hok Hrows.
  pose proof (findById_absent (customFieldDefinitionRepository P) id db Hok Hrows) as Hfind.
  split_and!.
  - unfold CustomFieldService.getCustomFieldDefinition, bind. by rewrite Hfind.
  - intros userId. unfold CustomFieldService.deleteCustomFieldDefinition, bind.
    by rewrite Hfind.
  - intros data userId. unfold CustomFieldService.updateCustomFieldDefinition, bind.
    by rewrite Hfind.
Qed.

(** C3 (amended). For an id no stored row has, with the lookup executed by
    the store, get, update (on input the schema accepts) and delete of every
    service throw a ValidationError whose message says the entity was not
    found and whose field mapping has the entry [id]; it is not a
    NotFoundError, and the store is left as it was. *)
Theorem services_answer_a_missing_id_with_a_validation_error :
  (forall (S : ServiceSpec) (id : string) (db : Store),
     pgRefuses P (SelectById (repo_table (svc_repository S)) id) db = None ->
     List.filter (Pg.rowHasId id) (Pg.tableRows (repo_table (svc_repository S)) db) = [] ->
     Service.get P S id db = (Err (Service.notFound S), db)
     /\ (forall userId, Service.delete P S id userId db = (Err (Service.notFound S), db))
     /\ (forall data validatedData userId,
           validateData P (svc_updateSchema S) data = Ok validatedData ->
           Service.update P S id data userId db = (Err (Service.notFound S), db))
     /\ Service.notFound S
        = ValidationError (svc_notFoundMessage S) {[ "id" := [svc_notFoundDetail S] ]}
     /\ isNotFoundError (Service.notFound S) = false)
  /\ (forall (id : string) (db : Store),
        pgRefuses P (SelectById "custom_field_definitions" id) db = None ->
        List.filter (Pg.rowHasId id) (Pg.tableRows "custom_field_definitions" db) = [] ->
        CustomFieldService.getCustomFieldDefinition P id db
        = (Err CustomFieldService.notFound, db)
        /\ (forall userId,
              CustomFieldService.deleteCustomFieldDefinition P id userId db
              = (Err CustomFieldService.notFound, db))
        /\ (forall data userId,
              CustomFieldService.updateCustomFieldDefinition P id data userId db
              = (Err CustomFieldService.notFound, db))
        /\ CustomFieldService.notFound
           = ValidationError "Custom field definition not found"
               {[ "id" := ["Custom field definition does not exist"] ]}).
Proof.
  split.
  - intros S id db Hok Hrows.
    destruct (entity_service_answers_a_missing_id_with_a_validation_error S id db Hok Hrows)
      as (Hget & Hdelete & Hupdate).
    split_and!; done.
  - intros id db Hok Hrows.
    destruct (custom_field_service_answers_a_missing_id_with_a_validation_error id db
                Hok Hrows) as (Hget & Hdelete & Hupdate).
    split_and!; done.
Qed.

End StoreFacts.


(** C8 as stated fails: the company repository lets a not-null violation of
    [name] and a malformed id out as DatabaseErrors. *)
Lemma repositories_wrap_a_not_null_violation :
  ~ ((exists message constraint,
        fst (Repository.create strictPlatform (companyRepository strictPlatform) ∅ "u1" ∅)
        = Err (ConstraintViolationError message constraint))
     \/ (exists message fields,
           fst (Repository.findById strictPlatform (companyRepository strictPlatform)
                  "not-a-uuid" ∅)
           = Err (ValidationError message fields))).
Proof.
  intros [(message & constraint & H)|(message & fields & H)];
    vm_compute in H; discriminate.
Qed.

Lemma only_the_shared_handler_translates_witness :
  ErrorHandler.handleDatabaseError (PgDriverError notNullName)
  = ConstraintViolationError "Required field 'name' cannot be null" "not_null"
  /\ Repository.create strictPlatform (companyRepository strictPlatform) ∅ "u1" ∅
     = (Err (DatabaseError "Database operation failed" (PgDriverError notNullName)), ∅).
Proof.
  pose proof (only_the_shared_handler_translates_not_null_and_malformed_literal
                strictPlatform notNullName) as (Hshared & _ & _ & Hrepo).
  split.
  - apply Hshared. reflexivity.
  - apply (Hrepo (or_introl eq_refl) _ (companyRepository strictPlatform)). reflexivity.
Defined.

(** C3 as stated fails: [getCompany] of an id nothing is stored under does
    not throw a NotFoundError. *)
Lemma getCompany_of_a_missing_id_is_a_validation_error :
  ~ exists entityType entityId,
      fst (Service.get plainPlatform (companyService plainPlatform) "c-404" ∅)
      = Err (NotFoundError entityType entityId).
Proof. intros (entityType & entityId & H). vm_compute in H. discriminate. Qed.

Lemma services_answer_a_missing_id_witness :
  Service.get plainPlatform (companyService plainPlatform) "c-404" ∅
  = (Err (ValidationError "Company not found" {[ "id" := ["Company does not exist"] ]}), ∅).
Proof.
  apply (proj1 (services_answer_a_missing_id_with_a_validation_error plainPlatform)
           (companyService plainPlatform) "c-404" ∅); reflexivity.
Defined.

(** ** The audit trail of the services *)

Section AuditTrailFacts.

Variable P : Platform.

Lemma leaves_ret {A : Type} (a : A) : Audit.leavesAuditTrail (ret a).
Proof. intros db r db' [= _ <-]. done. Qed.

Lemma leaves_throw {A : Type} (e : Error) : Audit.leavesAuditTrail (@throw Store A e).
Proof. intros db r db' [= _ <-]. done. Qed.

Lemma leaves_liftResult {A : Type} (x : Result A) : Audit.leavesAuditTrail (liftResult x).
Proof. destruct x; [apply leaves_throw | apply leaves_ret]. Qed.

Lemma leaves_bind {A B : Type} (m : M Store A) (k : A -> M Store B) :
  Audit.leavesAuditTrail m -> (forall a, Audit.leavesAuditTrail (k a)) -> Audit.leavesAuditTrail (bind m k).
Proof.
  intros Hm Hk db r db'. unfold bind.
  destruct (m db) as [[e|a] db1] eqn:Hrun.
  - intros [= _ <-]. by eapply Hm.
  - intros Hrest. rewrite (Hk a _ _ _ Hrest). by eapply Hm.
Qed.

Lemma leaves_tryCatch {A : Type} (m : M Store A) (handler : Error -> M Store A) :
  Audit.leavesAuditTrail m -> (forall e, Audit.leavesAuditTrail (handler e)) ->
  Audit.leavesAuditTrail (tryCatch m handler).
Proof.
  intros Hm Hh db r db'. unfold tryCatch.
  destruct (m db) as [[e|a] db1] eqn:Hrun.
  - intros Hrest. rewrite (Hh e _ _ _ Hrest). by eapply Hm.
  - intros [= _ <-]. by eapply Hm.
Qed.

Lemma referentialActions_audit (table id : string) (db : Store) :
  Audit.auditRecords (Pg.referentialActions table id db) = Audit.auditRecords db.
Proof.
  unfold Pg.referentialActions, Audit.auditRecords, Pg.tableRows.
  destruct (String.eqb table "companies"); [by rewrite !lookup_insert_ne |].
  destruct (String.eqb table "contacts"); [by rewrite lookup_insert_ne | done].
Qed.

Lemma leaves_query (st : Statement) :
  statementTable st <> "audit_logs" -> Audit.leavesAuditTrail (Pg.query P st).
Proof.
  intros Hne db r db'. unfold Pg.query.
  destruct (pgRefuses P st db); [by intros [= _ <-] |].
  destruct (Pg.runStatement P st db) as [res db1] eqn:Hrun. intros [= _ <-].
  assert (Hput : forall rows0 : list Row,
            Audit.auditRecords (<[statementTable st := rows0]> db) = Audit.auditRecords db).
  { intros rows0. unfold Audit.auditRecords, Pg.tableRows. by rewrite lookup_insert_ne. }
  destruct st as [table values|table id|table conds|table asg nows id|table id];
    simpl in Hne, Hrun, Hput.
  - injection Hrun as _ <-. apply Hput.
  - by injection Hrun as _ <-.
  - by injection Hrun as _ <-.
  - injection Hrun as _ <-. apply Hput.
  - destruct (List.filter (Pg.rowHasId id) (Pg.tableRows table db)).
    + by injection Hrun as _ <-.
    + injection Hrun as _ <-. rewrite referentialActions_audit. apply Hput.
Qed.

Section OneRepository.

Context {T : Type}.
Variable R : RepoSpec T.
Hypothesis Htable : repo_table R <> "audit_logs".

Lemma leaves_findById (id : string) : Audit.leavesAuditTrail (Repository.findById P R id).
Proof.
  apply leaves_tryCatch; [| intros; apply leaves_throw].
  apply leaves_bind; [by apply leaves_query |].
  intros res. destruct (rows res); apply leaves_ret.
Qed.

Lemma leaves_create (data : gmap string JsValue) (userId : string) :
  Audit.leavesAuditTrail (Repository.create P R data userId).
Proof.
  apply leaves_tryCatch; [| intros; apply leaves_throw].
  apply leaves_bind; [by apply leaves_query |].
  intros res. unfold Repository.mapFirstRow.
  destruct (rows res); [apply leaves_throw | apply leaves_ret].
Qed.

Lemma leaves_update (id : string) (data : gmap string JsValue) (userId : string) :
  Audit.leavesAuditTrail (Repository.update P R id data userId).
Proof.
  apply leaves_tryCatch;
    [| intros e; destruct (isNotFoundError e); apply leaves_throw].
  destruct (Repository.collectUpdates R data).
  - apply leaves_bind; [apply leaves_findById |].
    intros [e|]; [apply leaves_ret | apply leaves_throw].
  - apply leaves_bind.
    + apply leaves_query. by destruct (repo_stampsUpdate R).
    + intros res. destruct (rows res); [apply leaves_throw | apply leaves_ret].
Qed.

Lemma leaves_delete (id userId : string) :
  Audit.leavesAuditTrail (Repository.delete P R id userId).
Proof.
  apply leaves_tryCatch;
    [| intros e; destruct (isNotFoundError e); apply leaves_throw].
  apply leaves_bind; [by apply leaves_query |].
  intros res. destruct (Nat.eqb _ _); [apply leaves_throw | apply leaves_ret].
Qed.

Lemma leaves_deleteAfterLookup (id userId : string) :
  Audit.leavesAuditTrail (Repository.deleteAfterLookup P R id userId).
Proof.
  apply leaves_tryCatch;
    [| intros e; destruct (isNotFoundError e); apply leaves_throw].
  apply leaves_bind; [apply leaves_findById |].
  intros [d|]; [| apply leaves_throw].
  apply leaves_bind; [by apply leaves_query | intros; apply leaves_ret].
Qed.

End OneRepository.

Lemma leaves_findByEntityType (entityType : string) :
  Audit.leavesAuditTrail (findByEntityType P entityType).
Proof.
  apply leaves_tryCatch; [| intros; apply leaves_throw].
  apply leaves_bind; [by apply leaves_query | intros; apply leaves_ret].
Qed.

Lemma leaves_checkCustomFields (S : ServiceSpec) (validatedData : gmap string JsValue) :
  Audit.leavesAuditTrail (Service.checkCustomFields P S validatedData).
Proof.
  unfold Service.checkCustomFields.
  destruct (svc_validatesCustomFields S); [| apply leaves_ret].
  destruct (getProp validatedData "customFields"); try apply leaves_ret.
  destruct (bool_decide _); [| apply leaves_ret].
  apply leaves_bind; [apply leaves_findByEntityType | intros; apply leaves_liftResult].
Qed.

(** Writing an audit record appends exactly one row, with that action and
    that user, or fails and changes nothing. *)
Lemma createAuditLog_appends (entityType : string) (entityId : JsValue)
    (action userId : string) (changes : option (gmap string JsValue))
    (db : Store) (r : Result Entity) (db' : Store) :
  Audit.createAuditLog P entityType entityId action userId changes db = (r, db') ->
  (exists a record, r = Ok a
     /\ Audit.auditRecords db' = Audit.auditRecords db ++ [record]
     /\ Audit.recordOf action userId record)
  \/ (exists e, r = Err e /\ db' = db).
Proof.
  unfold Audit.createAuditLog, tryCatch, bind, Pg.query, throw, ret.
  destruct (pgRefuses P _ db); [intros [= <- <-]; right; eauto |].
  cbn [Pg.runStatement rows]. intros [= <- <-]. left.
  eexists _, _. split; [done |]. split.
  - unfold Audit.auditRecords, Pg.tableRows. by rewrite lookup_insert_eq.
  - unfold Audit.recordOf. cbn [List.map list_to_map app Pg.storeColumn fst snd].
    split.
    + rewrite !lookup_insert_ne by done. by rewrite lookup_insert_eq.
    + rewrite !lookup_insert_ne by done. by rewrite lookup_insert_eq.
Qed.

End AuditTrailFacts.

Section ServiceAuditFacts.

Variable P : Platform.

Lemma entityServices_table (S : ServiceSpec) :
  In S (entityServices P) -> repo_table (svc_repository S) <> "audit_logs".
Proof.
  intros [<-|[<-|[<-|[<-|[<-|[]]]]]]; discriminate.
Qed.

Lemma logCreate_appends (entityType : string) (entityId : JsValue) (userId : string)
    (entityData : JsValue) (db db' : Store) (u : unit) :
  Audit.logCreate P entityType entityId userId entityData db = (Ok u, db') ->
  exists record, Audit.auditRecords db' = Audit.auditRecords db ++ [record]
                 /\ Audit.recordOf "create" userId record.
Proof.
  unfold Audit.logCreate. intros (a & db1 & Hlog & [= _ <-])%bind_Ok.
  apply createAuditLog_appends in Hlog as [(a' & record & _ & Hrec)|(e & [=] & _)].
  eauto.
Qed.

Lemma logDelete_appends (entityType : string) (entityId : JsValue) (userId : string)
    (entityData : JsValue) (db db' : Store) (u : unit) :
  Audit.logDelete P entityType entityId userId entityData db = (Ok u, db') ->
  exists record, Audit.auditRecords db' = Audit.auditRecords db ++ [record]
                 /\ Audit.recordOf "delete" userId record.
Proof.
  unfold Audit.logDelete. intros (a & db1 & Hlog & [= _ <-])%bind_Ok.
  apply createAuditLog_appends in Hlog as [(a' & record & _ & Hrec)|(e & [=] & _)].
  eauto.
Qed.

Lemma logUpdate_appends (entityType : string) (entityId : JsValue) (userId : string)
    (before after : gmap string JsValue) (db db' : Store) (u : unit) :
  Audit.logUpdate P entityType entityId userId before after db = (Ok u, db') ->
  (Audit.calculateChanges P before after = ∅
   /\ Audit.auditRecords db' = Audit.auditRecords db)
  \/ (Audit.calculateChanges P before after <> ∅
      /\ exists record, Audit.auditRecords db' = Audit.auditRecords db ++ [record]
                        /\ Audit.recordOf "update" userId record).
Proof.
  unfold Audit.logUpdate. case_bool_decide as Hsize.
  - intros (a & db1 & Hlog & [= _ <-])%bind_Ok. right. split.
    + intros Hempty. rewrite Hempty, map_size_empty in Hsize. lia.
    + apply createAuditLog_appends in Hlog as [(a' & record & _ & Hrec)|(e & [=] & _)].
      eauto.
  - intros [= _ <-]. left. split; [| done].
    apply map_size_empty_iff. lia.
Qed.

(** With valid input, no custom fields to check and a store that accepts the
    two INSERTs, [create] goes through. *)
Lemma create_succeeds (S : ServiceSpec) (data validatedData : gmap string JsValue)
    (userId : string) (db : Store) :
  validateData P (svc_createSchema S) data = Ok validatedData ->
  getProp validatedData "customFields" = JUndefined ->
  (forall st db0, pgRefuses P st db0 = None) ->
  exists entity db', Service.create P S data userId db = (Ok entity, db').
Proof.
  intros Hvalid Hnone Haccepts.
  assert (Hcheck : Service.checkCustomFields P S validatedData db = (Ok tt, db)).
  { unfold Service.checkCustomFields. rewrite Hnone.
    by destruct (svc_validatesCustomFields S). }
  unfold Service.create, bind, liftResult. rewrite Hvalid. cbn [ret].
  rewrite Hcheck.
  unfold Repository.create, tryCatch, bind, Pg.query.
  rewrite Haccepts. cbn [Pg.runStatement Repository.mapFirstRow rows ret].
  unfold Audit.logCreate, Audit.createAuditLog, tryCatch, bind, Pg.query.
  rewrite Haccepts. cbn [Pg.runStatement rows ret]. eauto.
Qed.

(** C2 (amended). A successful create or delete of the contact, company,
    deal, task and note services appends exactly one audit record, with the
    action of the mutation and the acting user; a successful update of these
    services appends exactly one record, with action update and the acting
    user, when the diff between the entity read before and the entity returned
    is not empty, and none when it is empty; the custom-field-definition
    service appends none. *)
Theorem audited_mutations_leave_one_record_each :
  (forall S : ServiceSpec, In S (entityServices P) ->
     (forall data userId db entity db',
        Service.create P S data userId db = (Ok entity, db') ->
        exists record, Audit.auditRecords db' = Audit.auditRecords db ++ [record]
                       /\ Audit.recordOf "create" userId record)
     /\ (forall id userId db u db',
           Service.delete P S id userId db = (Ok u, db') ->
           exists record, Audit.auditRecords db' = Audit.auditRecords db ++ [record]
                          /\ Audit.recordOf "delete" userId record)
     /\ (forall id data userId db updated db',
           Service.update P S id data userId db = (Ok updated, db') ->
           exists existing,
             fst (Repository.findById P (svc_repository S) id db) = Ok (Some existing)
             /\ ((Audit.calculateChanges P existing updated = ∅
                  /\ Audit.auditRecords db' = Audit.auditRecords db)
                 \/ (Audit.calculateChanges P existing updated <> ∅
                     /\ exists record,
                          Audit.auditRecords db' = Audit.auditRecords db ++ [record]
                          /\ Audit.recordOf "update" userId record))))
  /\ (forall data userId db definition db',
        CustomFieldService.createCustomFieldDefinition P data userId db = (Ok definition, db') ->
        Audit.auditRecords db' = Audit.auditRecords db)
  /\ (forall id data userId db definition db',
        CustomFieldService.updateCustomFieldDefinition P id data userId db
        = (Ok definition, db') ->
        Audit.auditRecords db' = Audit.auditRecords db)
  /\ (forall id userId db u db',
        CustomFieldService.deleteCustomFieldDefinition P id userId db = (Ok u, db') ->
        Audit.auditRecords db' = Audit.auditRecords db).
Proof.
  split_and!.
  - intros S HS. pose proof (entityServices_table S HS) as Htable. split_and!.
    + intros data userId db entity db'. unfold Service.create.
      intros (validated & db1 & Hvalid & Hrest)%bind_Ok.
      apply bind_Ok in Hrest as (u1 & db2 & Hcheck & Hrest).
      apply bind_Ok in Hrest as (created & db3 & Hcreate & Hrest).
      apply bind_Ok in Hrest as (u2 & db4 & Hlog & [= _ <-]).
      apply leaves_liftResult in Hvalid.
      apply leaves_checkCustomFields in Hcheck.
      apply leaves_create in Hcreate; [| done].
      apply logCreate_appends in Hlog as (record & Happ & Hrec).
      exists record. split; [| done]. rewrite Happ. congruence.
    + intros id userId db u db'. unfold Service.delete.
      intros ([existing|] & db1 & Hfind & Hrest)%bind_Ok; [| discriminate].
      apply bind_Ok in Hrest as (u1 & db2 & Hdel & Hlog).
      apply leaves_findById in Hfind; [| done].
      apply leaves_delete in Hdel; [| done].
      apply logDelete_appends in Hlog as (record & Happ & Hrec).
      exists record. split; [| done]. rewrite Happ. congruence.
    + intros id data userId db updated db'. unfold Service.update.
      intros (validated & db1 & Hvalid & Hrest)%bind_Ok.
      assert (db1 = db) as ->.
      { unfold liftResult in Hvalid. destruct (validateData P _ _); by injection Hvalid. }
      apply bind_Ok in Hrest as ([existing|] & db2 & Hfind & Hrest); [| discriminate].
      apply bind_Ok in Hrest as (u1 & db3 & Hcheck & Hrest).
      apply bind_Ok in Hrest as (updated' & db4 & Hupd & Hrest).
      apply bind_Ok in Hrest as (u2 & db5 & Hlog & [= <- <-]).
      exists existing. split; [by rewrite Hfind |].
      apply leaves_findById in Hfind; [| done].
      apply leaves_checkCustomFields in Hcheck.
      apply leaves_update in Hupd; [| done].
      assert (Hsame : Audit.auditRecords db4 = Audit.auditRecords db) by congruence.
      apply logUpdate_appends in Hlog as [[Hempty Hlog]|(Hne & record & Happ & Hrec)].
      * left. split; [done | congruence].
      * right. split; [done |]. exists record. split; [| done]. rewrite Happ. congruence.
  - intros data userId db definition db'.
    unfold CustomFieldService.createCustomFieldDefinition.
    intros (validated & db1 & Hvalid & Hcreate)%bind_Ok.
    apply leaves_liftResult in Hvalid.
    apply leaves_create in Hcreate; [| done]. congruence.
  - intros id data userId db definition db'.
    unfold CustomFieldService.updateCustomFieldDefinition.
    intros ([existing|] & db1 & Hfind & Hupd)%bind_Ok; [| discriminate].
    apply leaves_findById in Hfind; [| done].
    apply leaves_update in Hupd; [| done]. congruence.
  - intros id userId db u db'.
    unfold CustomFieldService.deleteCustomFieldDefinition.
    intros ([existing|] & db1 & Hfind & Hdel)%bind_Ok; [| discriminate].
    apply leaves_findById in Hfind; [| done].
    apply leaves_deleteAfterLookup in Hdel; [| done]. congruence.
Qed.

End ServiceAuditFacts.

(** C2 as stated fails: creating a custom field definition succeeds and
    leaves the audit trail empty. *)
Lemma custom_field_definitions_are_not_audited :
  (exists definition,
     fst (CustomFieldService.createCustomFieldDefinition plainPlatform industryInput "admin" ∅)
     = Ok definition)
  /\ ~ exists record,
         Audit.auditRecords
           (snd (CustomFieldService.createCustomFieldDefinition plainPlatform
                   industryInput "admin" ∅))
         = Audit.auditRecords ∅ ++ [record].
Proof.
  split.
  - vm_compute. eauto.
  - intros (record & H). vm_compute in H. discriminate.
Qed.

Lemma audited_mutations_leave_one_record_each_witness :
  exists entity db' record,
    Service.create plainPlatform (companyService plainPlatform) acme "u1" ∅ = (Ok entity, db')
    /\ Audit.auditRecords db' = Audit.auditRecords ∅ ++ [record]
    /\ Audit.recordOf "create" "u1" record.
Proof.
  assert (Hcall : exists entity db',
            Service.create plainPlatform (companyService plainPlatform) acme "u1" ∅
            = (Ok entity, db')).
  { apply (create_succeeds plainPlatform (companyService plainPlatform) acme acme);
      reflexivity. }
  destruct Hcall as (entity & db' & Hcall).
  destruct (proj1 (proj1 (audited_mutations_leave_one_record_each plainPlatform)
                     (companyService plainPlatform) (or_intror (or_introl eq_refl)))
              acme "u1" ∅ entity db' Hcall) as (record & Happ & Hrec).
  exists entity, db', record. split; [exact Hcall | split; [exact Happ | exact Hrec]].
Defined.

(** * More of the code *)

(** ** More on custom field validation *)

Section ValidationMessages.

Variable Date_getTime : JsValue -> spec_float.
Variable Date_throws : JsValue -> bool.

Local Abbreviation validateCustomFieldValue :=
  (CustomFields.validateCustomFieldValue Date_getTime Date_throws).
Local Abbreviation checkEntry := (CustomFields.checkEntry Date_getTime Date_throws).

Lemma pushError_returned (target : string) (errors errors' : gmap string (list string))
    (k msg : string) :
  CustomFields.pushError target errors k msg = Ok errors' ->
  errors' = <[k := default [] (errors !! k) ++ [msg]]> errors.
Proof.
  unfold CustomFields.pushError. destruct (errors !! k); [by intros [= <-] |].
  destruct (inherited k); [discriminate | by intros [= <-]].
Qed.

(** What a turn of the first loop that returns leaves under each name. *)
Lemma checkEntry_returned (definitions : list CustomFieldDefinition)
    (errors errors' : gmap string (list string)) (k : string) (v : JsValue) :
  checkEntry definitions errors (k, v) = Ok errors' ->
  (forall k', k' <> k -> errors' !! k' = errors !! k')
  /\ (CustomFields.undefinedName definitions k ->
      errors' !! k = Some (default [] (errors !! k) ++ ["Unknown custom field: " ++ k]%string))
  /\ (forall d r,
        CustomFields.definitionOf definitions k d ->
        validateCustomFieldValue d v = Ok r ->
        errors' !! k
        = if valid r then errors !! k
          else Some (default [] (errors !! k) ++ [default "undefined"%string (error r)])).
Proof.
  unfold CustomFields.checkEntry.
  destruct (CustomFields.findDefinition definitions k) as [d|] eqn:Hfind.
  - apply findDefinition_Some in Hfind.
    destruct (validateCustomFieldValue d v) as [e|r] eqn:Hcheck; [discriminate |].
    destruct (valid r) eqn:Hvalid; cbn [negb].
    + intros [= <-]. split_and!; [done | |].
      * intros Hnone. by destruct (definitionOf_defined _ _ _ Hfind).
      * intros d' r' Hd'. rewrite <- (definitionOf_unique _ _ _ _ Hfind Hd').
        intros Hr. assert (r' = r) as -> by congruence. by rewrite Hvalid.
    + intros ->%pushError_returned. split_and!.
      * intros k' Hne. by rewrite lookup_insert_ne.
      * intros Hnone. by destruct (definitionOf_defined _ _ _ Hfind).
      * intros d' r' Hd'. rewrite <- (definitionOf_unique _ _ _ _ Hfind Hd').
        intros Hr. assert (r' = r) as -> by congruence.
        by rewrite Hvalid, lookup_insert_eq.
  - apply findDefinition_None in Hfind.
    intros ->%pushError_returned. split_and!.
    + intros k' Hne. by rewrite lookup_insert_ne.
    + intros _. by rewrite lookup_insert_eq.
    + intros d r Hd. by destruct (definitionOf_defined _ _ _ Hd).
Qed.

Lemma checkEntries_returned (definitions : list CustomFieldDefinition)
    (entries : list (string * JsValue)) (errors errors' : gmap string (list string))
    (k : string) :
  NoDup entries.*1 ->
  CustomFields.forEach (checkEntry definitions) entries errors = Ok errors' ->
  (forall v, In (k, v) entries ->
     (CustomFields.undefinedName definitions k ->
      errors' !! k
      = Some (default [] (errors !! k) ++ ["Unknown custom field: " ++ k]%string))
     /\ (forall d r,
           CustomFields.definitionOf definitions k d ->
           validateCustomFieldValue d v = Ok r ->
           errors' !! k
           = if valid r then errors !! k
             else Some (default [] (errors !! k)
                          ++ [default "undefined"%string (error r)])))
  /\ ((forall v, ~ In (k, v) entries) -> errors' !! k = errors !! k).
Proof.
  revert errors. induction entries as [|[k0 v0] entries IH]; intros errors Hnodup.
  - intros [= <-]. split; [intros v [] | done].
  - cbn [CustomFields.forEach].
    destruct (checkEntry definitions errors (k0, v0)) as [e|errors1] eqn:Hone; [discriminate |].
    intros Hrest. rewrite fmap_cons in Hnodup. apply NoDup_cons in Hnodup as [Hfresh Hnodup].
    destruct (checkEntry_returned _ _ _ _ _ Hone) as (Hother & Hunknown & Hknown).
    destruct (IH errors1 Hnodup Hrest) as [IHin IHout].
    assert (Hlater : forall w, In (k0, w) entries -> False).
    { intros w Hin. apply Hfresh, list_elem_of_fmap. exists (k0, w).
      split; [done | by apply list_elem_of_In]. }
    split.
    + intros v [[= <- <-]|Hin].
      * rewrite IHout by (intros w Hw; by apply (Hlater w)). split; [done |].
        intros d r Hd Hr. apply (Hknown d r Hd Hr).
      * assert (k <> k0) as Hne by (intros ->; by apply (Hlater v)).
        rewrite <- (Hother k Hne). by apply IHin.
    + intros Habsent. rewrite IHout by (intros v Hin; apply (Habsent v); by right).
      apply Hother. intros ->. apply (Habsent v0). by left.
Qed.

Lemma requiredMessages_cons (d : CustomFieldDefinition)
    (definitions : list CustomFieldDefinition) (k : string) :
  requiredMessages (d :: definitions) k
  = if cfd_required d && String.eqb (cfd_name d) k
    then ("Required field '" ++ cfd_label d ++ "' is missing")%string
           :: requiredMessages definitions k
    else requiredMessages definitions k.
Proof.
  unfold requiredMessages. cbn [List.filter].
  by destruct (cfd_required d && String.eqb (cfd_name d) k).
Qed.

Lemma checkRequired_returned (customFields : list (string * JsValue))
    (definitions : list CustomFieldDefinition) (errors : gmap string (list string)) :
  exists errors',
    CustomFields.forEach (CustomFields.checkRequired customFields) definitions errors
    = Ok errors'
    /\ forall k,
         errors' !! k
         = if hasProperty (List.map fst customFields) k then errors !! k
           else match requiredMessages definitions k with
                | [] => errors !! k
                | messages => Some (default [] (errors !! k) ++ messages)
                end.
Proof.
  revert errors. induction definitions as [|d definitions IH]; intros errors.
  - exists errors. split; [done |]. intros k. simpl. by destruct (hasProperty _ _).
  - cbn [CustomFields.forEach]. unfold CustomFields.checkRequired at 1.
    destruct (cfd_required d) eqn:Hreq; cbn [andb].
    2: { destruct (IH errors) as (errors' & Hrun & Hrest). exists errors'.
         split; [done |]. intros k. by rewrite Hrest, requiredMessages_cons, Hreq. }
    destruct (hasProperty (List.map fst customFields) (cfd_name d)) eqn:Hhas; cbn [negb].
    + destruct (IH errors) as (errors' & Hrun & Hrest). exists errors'.
      split; [done |]. intros k. rewrite Hrest, requiredMessages_cons, Hreq. cbn [andb].
      destruct (String.eqb_spec (cfd_name d) k) as [<-|Hne]; [by rewrite Hhas | done].
    + apply hasProperty_false in Hhas as Hname. destruct Hname as [_ Hname].
      rewrite pushError_recorded by done.
      match goal with
      | |- context [CustomFields.forEach _ definitions ?m] =>
          destruct (IH m) as (errors' & Hrun & Hrest)
      end.
      exists errors'. split; [done |].
      intros k. rewrite Hrest, requiredMessages_cons, Hreq. cbn [andb].
      destruct (String.eqb_spec (cfd_name d) k) as [<-|Hne].
      * rewrite Hhas, lookup_insert_eq. cbn [default from_option id].
        destruct (requiredMessages definitions (cfd_name d)); [done |].
        by rewrite <- app_assoc.
      * by rewrite lookup_insert_ne.
Qed.

(** X1. When validateCustomFields throws its Validation failure for a
    candidate object, the error mapping holds, under each key of the
    candidate, exactly one message, 'Unknown custom field: <key>' when no
    definition has that name, otherwise the message validateCustomFieldValue
    gives for the first definition of that name when it rejects the value, and
    nothing when it accepts it; under a name that is not a key of the
    candidate it holds one 'Required field '<label>' is missing' message per
    required definition of that name, in their order, and nothing when there
    is none or when the name is one every object inherits from
    Object.prototype (such as toString), which the in operator finds in any
    object. *)
Theorem validateCustomFields_messages (definitions : list CustomFieldDefinition)
    (customFields : list (string * JsValue)) (message : string)
    (errors : gmap string (list string)) :
  NoDup customFields.*1 ->
  CustomFields.validateCustomFields Date_getTime Date_throws definitions customFields
  = Err (ValidationError message errors) ->
  forall k,
    (forall v, In (k, v) customFields ->
       (CustomFields.undefinedName definitions k ->
        errors !! k = Some ["Unknown custom field: " ++ k]%string)
       /\ (forall d r,
             CustomFields.definitionOf definitions k d ->
             validateCustomFieldValue d v = Ok r ->
             errors !! k
             = if valid r then None else Some [default "undefined"%string (error r)]))
    /\ ((forall v, ~ In (k, v) customFields) ->
        errors !! k
        = if bool_decide (k ∈ Object_prototype) then None
          else match requiredMessages definitions k with
               | [] => None
               | messages => Some messages
               end).
Proof.
  intros Hnodup Hthrown.
  assert (CustomFields.collectErrors Date_getTime Date_throws definitions customFields
          = Ok errors) as Hcollected.
  { unfold CustomFields.validateCustomFields in Hthrown.
    destruct (collectErrors_outcome Date_getTime Date_throws definitions customFields)
      as [(_ & m & Hc)|(_ & collected & Hc & _)]; rewrite Hc in Hthrown; [discriminate |].
    case_bool_decide; [| discriminate]. by injection Hthrown as _ ->. }
  unfold CustomFields.collectErrors in Hcollected.
  destruct (CustomFields.forEach (checkEntry definitions) customFields ∅)
    as [e|errors1] eqn:Hfirst; [discriminate |].
  destruct (checkRequired_returned customFields definitions errors1)
    as (errors2 & Hrun & Hsecond).
  rewrite Hrun in Hcollected. injection Hcollected as ->. intros k.
  destruct (checkEntries_returned definitions customFields ∅ errors1 k Hnodup Hfirst)
    as [Hin Hout].
  rewrite Hsecond. split.
  - intros v Hkv.
    assert (hasProperty (List.map fst customFields) k = true) as ->.
    { apply not_false_iff_true. intros [Habsent _]%hasProperty_false. by apply (Habsent v). }
    destruct (Hin v Hkv) as [Hunknown Hknown]. split.
    + intros Hnone. by rewrite (Hunknown Hnone), lookup_empty.
    + intros d r Hd Hr. rewrite (Hknown d r Hd Hr), lookup_empty. done.
  - intros Habsent. rewrite (Hout Habsent), lookup_empty.
    destruct (inherited k) eqn:Hk.
    + assert (hasProperty (List.map fst customFields) k = true) as ->.
      { unfold hasProperty. by rewrite Hk, orb_true_r. }
      apply inherited_elem_of in Hk. by rewrite bool_decide_eq_true_2.
    + assert (hasProperty (List.map fst customFields) k = false) as ->.
      { by apply hasProperty_false. }
      rewrite bool_decide_eq_false_2; [by destruct (requiredMessages definitions k) |].
      intros Hin'%inherited_elem_of. congruence.
Qed.

End ValidationMessages.

Section ValueKinds.

Variable Date_getTime : JsValue -> spec_float.
Variable Date_throws : JsValue -> bool.
Variable C : Conversions.

Local Abbreviation validateCustomFieldValue :=
  (CustomFields.validateCustomFieldValue Date_getTime Date_throws).

(** X2. For a value that is neither null nor undefined,
    validateCustomFieldValue accepts it for a text field exactly when it is a
    string, for a boolean field exactly when it is a boolean, for a date field
    exactly when new Date(value) does not throw and is a valid date (the call
    throws the conversion's TypeError exactly for an object or array the
    runtime cannot convert to a primitive), and for an enum field exactly when
    it is a string listed in enumValues (a rejected value gets the message
    listing the legal values joined by ', '); for any other field type it
    rejects with 'Unknown field type: <type>'. A result that is valid is
    {valid: true}, with no error message. *)
Theorem kinds_accept_values_of_their_type (d : CustomFieldDefinition) (v : JsValue) :
  isNullish v = false ->
  (cfd_fieldType d = "text" ->
   (validateCustomFieldValue d v = Ok accept <-> exists s, v = JStr s))
  /\ (cfd_fieldType d = "boolean" ->
      (validateCustomFieldValue d v = Ok accept <-> exists b, v = JBool b))
  /\ (cfd_fieldType d = "date" ->
      (validateCustomFieldValue d v = Ok accept
       <-> isObjectLike v && Date_throws v = false /\ Date_getTime v <> S754_nan)
      /\ (validateCustomFieldValue d v = Err CustomFields.conversionError
          <-> isObjectLike v = true /\ Date_throws v = true))
  /\ (cfd_fieldType d = "enum" ->
      (validateCustomFieldValue d v = Ok accept
       <-> exists s legal, v = JStr s /\ cfd_enumValues d = Some legal /\ In s legal)
      /\ forall legal, cfd_enumValues d = Some legal ->
           validateCustomFieldValue d v <> Ok accept ->
           validateCustomFieldValue d v
           = Ok (reject ("Field '" ++ cfd_label d ++ "' must be one of: "
                         ++ join ", " legal)%string))
  /\ (~ In (cfd_fieldType d) ["text"; "number"; "date"; "boolean"; "enum"] ->
      validateCustomFieldValue d v
      = Ok (reject ("Unknown field type: " ++ cfd_fieldType d)%string))
  /\ (forall r, validateCustomFieldValue d v = Ok r -> valid r = true -> r = accept).
Proof.
  intros Hv. unfold CustomFields.validateCustomFieldValue, CustomFields.kindCheck.
  rewrite Hv. split_and!; cycle 5.
  { intros r Hr Hvalid. revert Hr.
    repeat match goal with
           | |- context [if ?b then _ else _] => destruct b
           | |- context [match ?o with Some _ => _ | None => _ end] => destruct o
           end;
      intros [= <-]; done. }
  - intros ->. simpl. destruct v; simpl; split; try done; eauto; intros [? [=]].
  - intros ->. simpl. destruct v; simpl; split; try done; eauto; intros [? [=]].
  - intros ->. simpl. split.
    + destruct (isObjectLike v && Date_throws v); [split; [done | intros [[=] _]] |].
      destruct (Date_getTime v); simpl; split; try done; intros [_ ?]; done.
    + destruct (isObjectLike v) eqn:Hobj, (Date_throws v) eqn:Hth; cbn [andb];
        try (split; [done | intros [? ?]; done]);
        destruct (float_isNaN (Date_getTime v));
        (split; [intros [=] | intros [? ?]; done]).
  - intros ->. simpl. split.
    + destruct (cfd_enumValues d) as [legal|]; simpl.
      * destruct v as [| |b|x|s|t|items|fields|name]; simpl;
          try (split; [done | intros (s' & legal' & [=] & _)]).
        case_bool_decide as Hin; simpl.
        -- split; [intros _ | done]. exists s, legal. by rewrite <- list_elem_of_In.
        -- split; [done |]. intros (s' & legal' & [= <-] & [= <-] & Hs).
           by rewrite <- list_elem_of_In in Hs.
      * split; [done | intros (s' & legal' & _ & [=] & _)].
    + intros legal ->. by destruct (negb (includesString legal v)).
  - intros Hother.
    destruct (String.eqb_spec (cfd_fieldType d) "text") as [Heq|_];
      [destruct Hother; rewrite Heq; simpl; tauto |].
    destruct (String.eqb_spec (cfd_fieldType d) "number") as [Heq|_];
      [destruct Hother; rewrite Heq; simpl; tauto |].
    destruct (String.eqb_spec (cfd_fieldType d) "date") as [Heq|_];
      [destruct Hother; rewrite Heq; simpl; tauto |].
    destruct (String.eqb_spec (cfd_fieldType d) "boolean") as [Heq|_];
      [destruct Hother; rewrite Heq; simpl; tauto |].
    destruct (String.eqb_spec (cfd_fieldType d) "enum") as [Heq|_];
      [destruct Hother; rewrite Heq; simpl; tauto |].
    done.
Qed.

(** X3. On every value validateCustomFieldValue accepts for a definition,
    cleanCustomFieldValue for that definition's field type returns without
    throwing: null for null or undefined, the ISO string of the date for a
    date field, and the value itself, unchanged, for every other field type. *)
Theorem clean_goes_through_on_validated_values (d : CustomFieldDefinition) (v : JsValue)
    (r : FieldValidation) :
  validateCustomFieldValue d v = Ok r ->
  valid r = true ->
  cleanCustomFieldValue Date_getTime Date_throws C (cfd_fieldType d) v
  = Ok (if isNullish v then JNull
        else if String.eqb (cfd_fieldType d) "date"
             then JStr (Date_toISOString C (Date_getTime v))
             else v).
Proof.
  intros Hr Hvalid. revert Hr.
  unfold CustomFields.validateCustomFieldValue, CustomFields.kindCheck, cleanCustomFieldValue.
  destruct (isNullish v) eqn:Hnull; [done |].
  destruct (String.eqb (cfd_fieldType d) "text") eqn:Htext.
  { apply String.eqb_eq in Htext. rewrite Htext. simpl.
    destruct v; simpl; intros [= <-]; done. }
  destruct (String.eqb (cfd_fieldType d) "number") eqn:Hnumber.
  { apply String.eqb_eq in Hnumber. rewrite Hnumber. simpl.
    destruct v; simpl; try (intros [= <-]; done).
    destruct (float_isNaN x); intros [= <-]; done. }
  destruct (String.eqb (cfd_fieldType d) "date") eqn:Hdate.
  { destruct (isObjectLike v && Date_throws v); [done |].
    destruct (float_isNaN (Date_getTime v)); intros [= <-]; done. }
  destruct (String.eqb (cfd_fieldType d) "boolean") eqn:Hboolean.
  { destruct v; simpl; intros [= <-]; done. }
  destruct (String.eqb (cfd_fieldType d) "enum") eqn:Henum; [| intros [= <-]; done].
  destruct (cfd_enumValues d); [| intros [= <-]; done].
  destruct (includesString l v) eqn:Hlisted; cbn [negb]; [| intros [= <-]; done].
  by destruct v.
Qed.

(** X4. cleanCustomFieldValue never throws on null or undefined. On any other
    value that is not an object or an array it throws exactly when the field
    type is date and the value does not give a valid date. On an object or an
    array it throws exactly when the conversion the field type calls for
    throws (String(value) for text and enum, Number(value) for number, new
    Date(value) for date) or, for date, the date is not valid. For every field
    type but date, cleaning an already cleaned value returns it unchanged. *)
Theorem clean_throws_on_invalid_dates_and_unconvertible_objects
    (fieldType : string) (v : JsValue) :
  (isObjectLike v = false ->
   ((exists e, cleanCustomFieldValue Date_getTime Date_throws C fieldType v = Err e)
    <-> fieldType = "date" /\ isNullish v = false /\ Date_getTime v = S754_nan))
  /\ (isObjectLike v = true ->
      ((exists e, cleanCustomFieldValue Date_getTime Date_throws C fieldType v = Err e)
       <-> ((fieldType = "text" \/ fieldType = "enum") /\ String_throws C v = true)
           \/ (fieldType = "number" /\ Number_throws C v = true)
           \/ (fieldType = "date"
               /\ (Date_throws v = true \/ Date_getTime v = S754_nan))))
  /\ (fieldType <> "date" ->
      forall w, cleanCustomFieldValue Date_getTime Date_throws C fieldType v = Ok w ->
                cleanCustomFieldValue Date_getTime Date_throws C fieldType w = Ok w).
Proof.
  unfold cleanCustomFieldValue. split_and!.
  - intros Hprim. rewrite Hprim. cbn [andb].
    destruct (isNullish v).
    { split; [intros [e He]; discriminate | intros (_ & Hf & _); discriminate]. }
    destruct (String.eqb_spec fieldType "text") as [->|Htext].
    { split; [intros [e He]; discriminate | intros (Hf & _); discriminate]. }
    destruct (String.eqb_spec fieldType "number") as [->|Hnumber].
    { split; [intros [e He]; discriminate | intros (Hf & _); discriminate]. }
    destruct (String.eqb_spec fieldType "date") as [->|Hdate].
    + destruct (Date_getTime v); simpl; split;
        first [ intros [e0 He]; discriminate
              | intros (_ & _ & Hf); discriminate
              | intros _; split_and!; reflexivity
              | intros _; eexists; reflexivity ].
    + destruct (String.eqb fieldType "boolean"), (String.eqb fieldType "enum");
        (split; [intros [e He]; discriminate | intros (Hf & _); done]).
  - intros Hobj. rewrite Hobj. cbn [andb].
    assert (isNullish v = false) as -> by (by destruct v).
    destruct (String.eqb_spec fieldType "text") as [->|Htext].
    { destruct (String_throws C v); split;
        first [ intros _; left; split; [by left | done]
              | intros _; eexists; reflexivity
              | intros [e He]; discriminate
              | intros [[_ ?]|[[? _]|[? _]]]; discriminate ]. }
    destruct (String.eqb_spec fieldType "number") as [->|Hnumber].
    { destruct (Number_throws C v); split;
        first [ intros _; right; left; done
              | intros _; eexists; reflexivity
              | intros [e He]; discriminate
              | intros [[[?|?] _]|[[_ ?]|[? _]]]; discriminate ]. }
    destruct (String.eqb_spec fieldType "date") as [->|Hdate].
    { destruct (Date_throws v).
      - split; [intros _; right; right; split; [done | by left] | intros _; eexists; reflexivity].
      - destruct (float_isNaN (Date_getTime v)) eqn:Hnan.
        + apply float_isNaN_spec in Hnan.
          split; [intros _; right; right; split; [done | by right]
                 | intros _; eexists; reflexivity].
        + split; [intros [e He]; discriminate |].
          intros [[[?|?] _]|[[? _]|[_ [?|Hn]]]]; try discriminate.
          apply float_isNaN_spec in Hn. congruence. }
    destruct (String.eqb_spec fieldType "boolean") as [->|Hboolean].
    { split; [intros [e He]; discriminate
             | intros [[[?|?] _]|[[? _]|[? _]]]; discriminate]. }
    destruct (String.eqb_spec fieldType "enum") as [->|Henum].
    { destruct (String_throws C v); split;
        first [ intros _; left; split; [by right | done]
              | intros _; eexists; reflexivity
              | intros [e He]; discriminate
              | intros [[_ ?]|[[? _]|[? _]]]; discriminate ]. }
    split; [intros [e He]; discriminate | intros [[[?|?] _]|[[? _]|[? _]]]; done].
  - intros Hdate w.
    destruct (isNullish v) eqn:Hnull; [by intros [= <-] |].
    destruct (String.eqb fieldType "text").
    { destruct (isObjectLike v && String_throws C v); [discriminate | by intros [= <-]]. }
    destruct (String.eqb fieldType "number").
    { destruct (isObjectLike v && Number_throws C v); [discriminate | by intros [= <-]]. }
    destruct (String.eqb_spec fieldType "date") as [->|_]; [done |].
    destruct (String.eqb fieldType "boolean").
    { intros [= <-]. reflexivity. }
    destruct (String.eqb fieldType "enum").
    { destruct (isObjectLike v && String_throws C v); [discriminate | by intros [= <-]]. }
    intros [= <-]. by rewrite Hnull.
Qed.

End ValueKinds.

(** ** Schema validation results and error responses *)

Lemma recordIssues_lookup (issues : list Issue) (errors : gmap string (list string)) :
  (forall i, In i issues -> inherited (join "." (issue_path i)) = false) ->
  exists errors',
    CustomFields.forEach recordIssue issues errors = Ok errors'
    /\ forall path,
         errors' !! path
         = match List.map issue_message
                   (List.filter (fun i => String.eqb (join "." (issue_path i)) path)
                      issues) with
           | [] => errors !! path
           | messages => Some (default [] (errors !! path) ++ messages)
           end.
Proof.
  revert errors. induction issues as [|i issues IH]; intros errors Hown.
  - by exists errors.
  - cbn [CustomFields.forEach]. unfold recordIssue at 1.
    rewrite pushError_recorded by (apply Hown; by left).
    match goal with
    | |- context [CustomFields.forEach _ issues ?m] =>
        destruct (IH m) as (errors' & Hrun & Hrest)
    end.
    { intros j Hj. apply Hown. by right. }
    exists errors'. split; [done |]. intros path. rewrite Hrest. cbn [List.filter].
    destruct (String.eqb_spec (join "." (issue_path i)) path) as [<-|Hne].
    + rewrite lookup_insert_eq. cbn [List.map default from_option id].
      destruct (List.map _ _); [done | by rewrite <- app_assoc].
    + by rewrite lookup_insert_ne.
Qed.

Lemma recordIssues_throw (issues : list Issue) (errors : gmap string (list string)) :
  (forall k, is_Some (errors !! k) -> inherited k = false) ->
  (exists i, In i issues /\ inherited (join "." (issue_path i)) = true) ->
  CustomFields.forEach recordIssue issues errors
  = Err (CustomFields.notAFunction "errors[path]").
Proof.
  revert errors. induction issues as [|i issues IH]; intros errors Hplain (j & Hj & Hpath).
  - destruct Hj.
  - cbn [CustomFields.forEach]. unfold recordIssue at 1.
    destruct (inherited (join "." (issue_path i))) eqn:Hi.
    + by rewrite pushError_throws.
    + rewrite pushError_recorded by done. apply IH.
      * by apply plain_insert.
      * destruct Hj as [->|Hj]; [congruence | eauto].
Qed.

(** X5. On a failed parse none of whose issues has a dotted path equal to a
    name every object inherits from Object.prototype, safeValidateData answers
    failure with an error mapping that holds, under each dotted path, the
    messages of the issues with that path in their original order, and nothing
    under a path no issue has; no issue's message is lost. When some issue's
    dotted path is such a name (constructor, toString, __proto__ and the
    like), the call throws the TypeError 'errors[path].push is not a
    function'. *)
Theorem safeValidateData_groups_issues_by_path {T : Type} (issues : list Issue) :
  ((exists i, In i issues /\ join "." (issue_path i) ∈ Object_prototype) ->
   safeValidateData (T := T) (inl issues)
   = Err (JsError "TypeError" "errors[path].push is not a function"))
  /\ ((forall i, In i issues -> join "." (issue_path i) ∉ Object_prototype) ->
      exists errors,
        safeValidateData (T := T) (inl issues) = Ok (ValidationFailure errors)
        /\ (forall path,
              errors !! path
              = match List.map issue_message
                        (List.filter (fun i => String.eqb (join "." (issue_path i)) path)
                           issues) with
                | [] => None
                | messages => Some messages
                end)
        /\ (forall i, In i issues ->
              exists messages, errors !! join "." (issue_path i) = Some messages
                               /\ In (issue_message i) messages)).
Proof.
  unfold safeValidateData. split.
  - intros (i & Hi & Hpath). rewrite recordIssues_throw; [done | |].
    + intros k [x Hx]. by rewrite lookup_empty in Hx.
    + exists i. split; [done | by apply inherited_elem_of].
  - intros Hown.
    destruct (recordIssues_lookup issues ∅) as (errors & -> & Hat).
    { intros i Hi. apply not_true_iff_false. intros Hpath%inherited_elem_of.
      by apply (Hown i). }
    exists errors. split; [done |].
    assert (Hlookup : forall path,
              errors !! path
              = match List.map issue_message
                        (List.filter (fun i => String.eqb (join "." (issue_path i)) path)
                           issues) with
                | [] => None
                | messages => Some messages
                end).
    { intros path. rewrite Hat, lookup_empty. by destruct (List.map _ _). }
    split; [exact Hlookup |].
    intros i Hi. rewrite Hlookup.
    assert (Hin : In (issue_message i)
                    (List.map issue_message
                       (List.filter (fun j => String.eqb (join "." (issue_path j))
                                                (join "." (issue_path i))) issues))).
    { apply in_map, filter_In. split; [done | apply String.eqb_refl]. }
    destruct (List.map _ _) as [|m ms]; [destruct Hin | eauto].
Qed.

Section ErrorResponses.

Variable pgMessage : PgError -> string.

Lemma repository_handler_classifies {T : Type} (R : RepoSpec T) (e : Error) :
  (isConstraintViolationError (Repository.handleDatabaseError R e) = true
   \/ Repository.handleDatabaseError R e = DatabaseError "Database operation failed" e)
  /\ isNotFoundError (Repository.handleDatabaseError R e) = false.
Proof.
  unfold Repository.handleDatabaseError.
  destruct (hasCode e "23503"); [by auto |].
  destruct (hasCode e "23505"); [by auto |].
  destruct (hasCode e "23514"); by auto.
Qed.

(** X6. The shared handleDatabaseError returns a ConstraintViolationError
    exactly for the driver codes 23503, 23505, 23514 and 23502, a
    ValidationError exactly for code 22P02, and the DatabaseError 'Database
    operation failed' wrapping the original error for everything else; a 23503
    error whose detail mentions company_id is reported as 'Referenced company
    does not exist'. *)
Theorem shared_handler_sorts_every_error (e : Error) :
  (isConstraintViolationError (ErrorHandler.handleDatabaseError e) = true
   <-> exists code, errorCode e = Some code
                    /\ In code ["23503"; "23505"; "23514"; "23502"])
  /\ (isValidationError (ErrorHandler.handleDatabaseError e) = true
      <-> errorCode e = Some "22P02")
  /\ ((forall code, errorCode e = Some code ->
         ~ In code ["23503"; "23505"; "23514"; "23502"; "22P02"]) ->
      ErrorHandler.handleDatabaseError e = DatabaseError "Database operation failed" e)
  /\ (hasCode e "23503" = true ->
      stringIncludes (orElse (errorDetail e) "") "company_id" = true ->
      ErrorHandler.handleDatabaseError e
      = ConstraintViolationError "Referenced company does not exist"
          (orElse (errorConstraint e) "unknown")).
Proof.
  unfold ErrorHandler.handleDatabaseError, hasCode.
  destruct (errorCode e) as [code|] eqn:Hcode; simpl.
  2: { split_and!.
       - split; [done | intros (code & [=] & _)].
       - split; done.
       - done.
       - done. }
  destruct (String.eqb_spec code "23503") as [->|H1].
  { split_and!.
    - split; [intros _; exists "23503"; split; [done | simpl; tauto] | done].
    - split; [done | intros [=]].
    - intros Hno. destruct (Hno _ eq_refl). simpl; tauto.
    - intros _ ->. done. }
  destruct (String.eqb_spec code "23505") as [->|H2].
  { split_and!.
    - split; [intros _; exists "23505"; split; [done | simpl; tauto] | done].
    - split; [done | intros [=]].
    - intros Hno. destruct (Hno _ eq_refl). simpl; tauto.
    - done. }
  destruct (String.eqb_spec code "23514") as [->|H3].
  { split_and!.
    - split; [intros _; exists "23514"; split; [done | simpl; tauto] | done].
    - split; [done | intros [=]].
    - intros Hno. destruct (Hno _ eq_refl). simpl; tauto.
    - done. }
  destruct (String.eqb_spec code "23502") as [->|H4].
  { split_and!.
    - split; [intros _; exists "23502"; split; [done | simpl; tauto] | done].
    - split; [done | intros [=]].
    - intros Hno. destruct (Hno _ eq_refl). simpl; tauto.
    - done. }
  destruct (String.eqb_spec code "22P02") as [->|H5].
  { split_and!.
    - split; [done | intros (code & [= <-] & Hin)]. simpl in Hin.
      repeat destruct Hin as [Hin|Hin]; done.
    - split; done.
    - intros Hno. destruct (Hno _ eq_refl). simpl; tauto.
    - done. }
  split_and!.
  - split; [done | intros (code' & [= <-] & Hin)]. simpl in Hin.
    repeat destruct Hin as [Hin|Hin]; try done; congruence.
  - split; [done | intros [= ->]; done].
  - done.
  - done.
Qed.

(** X7. formatErrorResponse names the class of the error it is given:
    ValidationError, NotFoundError, ConstraintViolationError or DatabaseError
    exactly for an error of that class; so no error a repository lets out and
    no result of the shared handleDatabaseError is answered as UnknownError. *)
Theorem response_names_the_error_class (e : Error) :
  (resp_error (formatErrorResponse pgMessage e) = "ValidationError"
   <-> isValidationError e = true)
  /\ (resp_error (formatErrorResponse pgMessage e) = "NotFoundError"
      <-> isNotFoundError e = true)
  /\ (resp_error (formatErrorResponse pgMessage e) = "ConstraintViolationError"
      <-> isConstraintViolationError e = true)
  /\ (resp_error (formatErrorResponse pgMessage e) = "DatabaseError"
      <-> isDatabaseError e = true)
  /\ (repositoryError e = true ->
      resp_error (formatErrorResponse pgMessage e) <> "UnknownError")
  /\ resp_error (formatErrorResponse pgMessage (ErrorHandler.handleDatabaseError e))
     <> "UnknownError".
Proof.
  split_and!; try (destruct e; simpl; split; done).
  - destruct e; simpl; done.
  - unfold ErrorHandler.handleDatabaseError.
    repeat match goal with |- context [if ?b then _ else _] => destruct b end; done.
Qed.

End ErrorResponses.

Section RepositoryBoundary.

Variable P : Platform.
Context {T : Type}.
Variable R : RepoSpec T.

Lemma handled_is_repositoryError (e : Error) :
  repositoryError (Repository.handleDatabaseError R e) = true.
Proof.
  unfold repositoryError.
  destruct (repository_handler_classifies R e) as [[Hc| ->] _]; [| done].
  rewrite Hc. by destruct (isNotFoundError _).
Qed.

(** X8. Every error thrown by a repository's create, findById, update or
    delete is a NotFoundError, a ConstraintViolationError or a DatabaseError,
    never a raw driver or runtime error; create and findById never throw
    NotFoundError. *)
Theorem repositories_let_out_typed_errors_only :
  (forall data userId db e db',
     Repository.create P R data userId db = (Err e, db') ->
     repositoryError e = true /\ isNotFoundError e = false)
  /\ (forall id db e db',
        Repository.findById P R id db = (Err e, db') ->
        repositoryError e = true /\ isNotFoundError e = false)
  /\ (forall id data userId db e db',
        Repository.update P R id data userId db = (Err e, db') ->
        repositoryError e = true)
  /\ (forall id userId db e db',
        Repository.delete P R id userId db = (Err e, db') ->
        repositoryError e = true)
  /\ (forall id userId db e db',
        Repository.deleteAfterLookup P R id userId db = (Err e, db') ->
        repositoryError e = true).
Proof.
  assert (Hcatch : forall (A : Type) (m : M Store A) db e db',
            tryCatch m (fun error => throw (Repository.handleDatabaseError R error)) db
            = (Err e, db') ->
            repositoryError e = true /\ isNotFoundError e = false).
  { intros A m db e db'. unfold tryCatch, throw.
    destruct (m db) as [[e0|a] db0]; [| discriminate].
    intros [= <- _]. split; [apply handled_is_repositoryError |].
    apply repository_handler_classifies. }
  assert (Hcatch' : forall (A : Type) (m : M Store A) db e db',
            tryCatch m (fun error => if isNotFoundError error then throw error
                                     else throw (Repository.handleDatabaseError R error)) db
            = (Err e, db') ->
            repositoryError e = true).
  { intros A m db e db'. unfold tryCatch, throw.
    destruct (m db) as [[e0|a] db0]; [| discriminate].
    destruct (isNotFoundError e0) eqn:Hnf; intros [= <- _].
    - unfold repositoryError. by rewrite Hnf.
    - apply handled_is_repositoryError. }
  split_and!.
  - intros data userId db e db'. apply Hcatch.
  - intros id db e db'. apply Hcatch.
  - intros id data userId db e db'. apply Hcatch'.
  - intros id userId db e db'. apply Hcatch'.
  - intros id userId db e db'. apply Hcatch'.
Qed.

End RepositoryBoundary.

(** ** More on the repositories *)

Section RepositoryRoundTrips.

Variable P : Platform.

Lemma tableRows_insert (table : string) (rows0 : list Row) (db : Store) :
  Pg.tableRows table (<[table := rows0]> db) = rows0.
Proof. unfold Pg.tableRows. by rewrite lookup_insert_eq. Qed.

Lemma tableRows_insert_other (table table' : string) (rows0 : list Row) (db : Store) :
  table <> table' ->
  Pg.tableRows table' (<[table := rows0]> db) = Pg.tableRows table' db.
Proof. intros Hne. unfold Pg.tableRows. by rewrite lookup_insert_ne. Qed.

Lemma referentialActions_own_table (table id : string) (db : Store) :
  Pg.tableRows table (Pg.referentialActions table id db) = Pg.tableRows table db.
Proof.
  unfold Pg.referentialActions.
  destruct (String.eqb_spec table "companies") as [->|Hcompanies].
  - by rewrite !tableRows_insert_other.
  - destruct (String.eqb_spec table "contacts") as [->|Hcontacts]; [| done].
    by rewrite tableRows_insert_other.
Qed.

Lemma rowHasId_generated (id : string) (row : Row) :
  row !! "id" = Some (JStr id) -> Pg.rowHasId id row = true.
Proof.
  intros Hid. unfold Pg.rowHasId, Pg.columnIs. rewrite Hid. apply String.eqb_refl.
Qed.

Lemma inserted_row_id (table : string) (values : list (string * JsValue)) (db : Store) :
  ~ In "id" (List.map fst values) ->
  (list_to_map (List.map (Pg.storeColumn P) values ++ Pg.generatedColumns P table db) : Row)
    !! "id"
  = Some (JStr (gen_random_uuid P db)).
Proof.
  intros Hno. rewrite list_to_map_app, lookup_union_r.
  - unfold Pg.generatedColumns. rewrite list_to_map_cons. by rewrite lookup_insert_eq.
  - apply not_elem_of_list_to_map_1. intros Hin. apply Hno.
    apply list_elem_of_fmap in Hin as ([c v] & -> & Hcv).
    apply list_elem_of_In, in_map_iff in Hcv as ([c' v'] & [= <- _] & Hin').
    apply in_map_iff. by exists (c', v').
Qed.

Lemma filter_fresh (id : string) (rows0 : list Row) :
  (forall row, In row rows0 -> Pg.rowHasId id row = false) ->
  List.filter (Pg.rowHasId id) rows0 = [].
Proof.
  induction rows0 as [|row rows0 IH]; intros Hfresh; [done |].
  simpl. rewrite (Hfresh row) by (by left). apply IH. intros r Hr. apply Hfresh. by right.
Qed.

Lemma create_then_findById {T : Type} (R : RepoSpec T) (data : gmap string JsValue)
    (userId : string) (db : Store) (entity : T) (db' : Store) :
  Repository.create P R data userId db = (Ok entity, db') ->
  ~ In "id" (List.map fst (repo_insertValues R data userId)) ->
  (forall row, In row (Pg.tableRows (repo_table R) db) ->
               Pg.rowHasId (gen_random_uuid P db) row = false) ->
  pgRefuses P (SelectById (repo_table R) (gen_random_uuid P db)) db' = None ->
  Repository.findById P R (gen_random_uuid P db) db' = (Ok (Some entity), db').
Proof.
  intros Hcreate Hno Hfresh Hok.
  unfold Repository.create, tryCatch, bind, Pg.query, throw in Hcreate.
  destruct (pgRefuses P _ db); [discriminate |].
  cbn [Pg.runStatement Repository.mapFirstRow rows ret] in Hcreate.
  injection Hcreate as <- <-.
  unfold Repository.findById, tryCatch, bind. rewrite query_select_by_id by done.
  cbn [rows]. rewrite tableRows_insert, List.filter_app, (filter_fresh _ _ Hfresh).
  cbn [List.filter app]. by rewrite rowHasId_generated by (by apply inserted_row_id).
Qed.

(** X9. When create succeeds and no stored row of the table already has the
    generated id, findById of that id on the resulting store returns exactly
    the entity create returned; this holds for the contact, company, deal,
    task and note repositories and for the custom field definition repository. *)
Theorem created_entity_is_found_by_its_id :
  (forall (S : ServiceSpec) data userId db entity db',
     In S (entityServices P) ->
     Repository.create P (svc_repository S) data userId db = (Ok entity, db') ->
     (forall row, In row (Pg.tableRows (repo_table (svc_repository S)) db) ->
                  Pg.rowHasId (gen_random_uuid P db) row = false) ->
     pgRefuses P (SelectById (repo_table (svc_repository S)) (gen_random_uuid P db)) db'
     = None ->
     Repository.findById P (svc_repository S) (gen_random_uuid P db) db'
     = (Ok (Some entity), db'))
  /\ (forall data userId db definition db',
        Repository.create P (customFieldDefinitionRepository P) data userId db
        = (Ok definition, db') ->
        (forall row, In row (Pg.tableRows "custom_field_definitions" db) ->
                     Pg.rowHasId (gen_random_uuid P db) row = false) ->
        pgRefuses P (SelectById "custom_field_definitions" (gen_random_uuid P db)) db'
        = None ->
        Repository.findById P (customFieldDefinitionRepository P) (gen_random_uuid P db) db'
        = (Ok (Some definition), db')).
Proof.
  split.
  - intros S data userId db entity db' HS Hcreate Hfresh Hok.
    apply (create_then_findById _ data userId db); [done | | done | done].
    destruct HS as [<-|[<-|[<-|[<-|[<-|[]]]]]]; simpl; intuition discriminate.
  - intros data userId db definition db' Hcreate Hfresh Hok.
    apply (create_then_findById _ data userId db); [done | | done | done].
    simpl; intuition discriminate.
Qed.

Lemma delete_outcome {T : Type} (R : RepoSpec T) (id userId : string) (db : Store) :
  pgRefuses P (DeleteById (repo_table R) id) db = None ->
  (List.filter (Pg.rowHasId id) (Pg.tableRows (repo_table R) db) = [] ->
   Repository.delete P R id userId db = (Err (NotFoundError (repo_entityName R) id), db))
  /\ (List.filter (Pg.rowHasId id) (Pg.tableRows (repo_table R) db) <> [] ->
      Repository.delete P R id userId db
      = (Ok tt, Pg.referentialActions (repo_table R) id
                  (<[repo_table R := List.filter (fun r => negb (Pg.rowHasId id r))
                                       (Pg.tableRows (repo_table R) db)]> db))).
Proof.
  intros Hok. unfold Repository.delete, tryCatch, bind, Pg.query. rewrite Hok.
  cbn [Pg.runStatement]. split.
  - intros ->. done.
  - intros Hsome. destruct (List.filter (Pg.rowHasId id) _); done.
Qed.

Lemma filter_filter_negb (id : string) (rows0 : list Row) :
  List.filter (Pg.rowHasId id) (List.filter (fun r => negb (Pg.rowHasId id r)) rows0) = [].
Proof.
  induction rows0 as [|row rows0 IH]; [done |]. simpl.
  destruct (Pg.rowHasId id row) eqn:Hid; simpl; [done |]. by rewrite Hid.
Qed.

(** X10. When the store accepts the DELETE, a repository delete of an id no
    row has throws NotFoundError and leaves the store as it was; of an id some
    row has, it succeeds, removes exactly the rows with that id from its
    table, and a following findById of that id returns null. *)
Theorem deleted_entity_is_gone {T : Type} (R : RepoSpec T) (id userId : string)
    (db : Store) :
  pgRefuses P (DeleteById (repo_table R) id) db = None ->
  (List.filter (Pg.rowHasId id) (Pg.tableRows (repo_table R) db) = [] ->
   Repository.delete P R id userId db = (Err (NotFoundError (repo_entityName R) id), db))
  /\ (List.filter (Pg.rowHasId id) (Pg.tableRows (repo_table R) db) <> [] ->
      exists db',
        Repository.delete P R id userId db = (Ok tt, db')
        /\ Pg.tableRows (repo_table R) db'
           = List.filter (fun r => negb (Pg.rowHasId id r)) (Pg.tableRows (repo_table R) db)
        /\ (pgRefuses P (SelectById (repo_table R) id) db' = None ->
            Repository.findById P R id db' = (Ok None, db'))).
Proof.
  intros Hok. destruct (delete_outcome R id userId db Hok) as [Habsent Hpresent].
  split; [exact Habsent |].
  intros Hsome. eexists. split; [by apply Hpresent |].
  assert (Hrows : Pg.tableRows (repo_table R)
                    (Pg.referentialActions (repo_table R) id
                       (<[repo_table R := List.filter (fun r => negb (Pg.rowHasId id r))
                                            (Pg.tableRows (repo_table R) db)]> db))
                  = List.filter (fun r => negb (Pg.rowHasId id r))
                      (Pg.tableRows (repo_table R) db)).
  { by rewrite referentialActions_own_table, tableRows_insert. }
  split; [exact Hrows |].
  intros Hselect. apply findById_absent; [done |].
  rewrite Hrows. apply filter_filter_negb.
Qed.

End RepositoryRoundTrips.

Section UpdateEffects.

Variable P : Platform.

Lemma assign_lookup_other (assignments : list (string * JsValue)) (row : Row) (c : string) :
  ~ In c (List.map fst assignments) ->
  fold_left (fun r cv => <[fst cv := Pg.storeValue P (fst cv) (snd cv)]> r) assignments row
    !! c
  = row !! c.
Proof.
  revert row. induction assignments as [|[c0 v0] assignments IH]; intros row Hno; [done |].
  cbn [fold_left]. rewrite IH by (intros Hin; apply Hno; by right).
  apply lookup_insert_ne. intros <-. apply Hno. by left.
Qed.

Lemma stamp_lookup_other (db : Store) (nowColumns : list string) (row : Row) (c : string) :
  ~ In c nowColumns ->
  fold_left (fun r col => <[col := NOW P db]> r) nowColumns row !! c = row !! c.
Proof.
  revert row. induction nowColumns as [|c0 nowColumns IH]; intros row Hno; [done |].
  cbn [fold_left]. rewrite IH by (intros Hin; apply Hno; by right).
  apply lookup_insert_ne. intros <-. apply Hno. by left.
Qed.

Lemma applyUpdate_lookup_other (db : Store) (assignments : list (string * JsValue))
    (nowColumns : list string) (row : Row) (c : string) :
  ~ In c (List.map fst assignments) -> ~ In c nowColumns ->
  Pg.applyUpdate P db assignments nowColumns row !! c = row !! c.
Proof.
  intros Ha Hn. unfold Pg.applyUpdate.
  by rewrite stamp_lookup_other, assign_lookup_other.
Qed.

Lemma collectUpdates_columns {T : Type} (R : RepoSpec T) (data : gmap string JsValue)
    (c : string) :
  In c (List.map fst (Repository.collectUpdates R data)) ->
  In c (List.map (fun f => snd (fst f)) (repo_updateFields R)).
Proof.
  unfold Repository.collectUpdates.
  induction (repo_updateFields R) as [|[[field column] bound] fields IH]; [done |].
  cbn [flat_map List.map]. rewrite map_app, in_app_iff.
  intros [Hin|Hin]; [| right; by apply IH].
  destruct (isDefined _); [| destruct Hin].
  destruct Hin as [<-|[]]. by left.
Qed.

(** The rows of the repository's table after [update], whatever its outcome:
    as they were, or the rows with that id changed by the assignments. *)
Lemma update_rows {T : Type} (R : RepoSpec T) (id : string) (data : gmap string JsValue)
    (userId : string) (db : Store) (r : Result T) (db' : Store) :
  Repository.update P R id data userId db = (r, db') ->
  (forall table, table <> repo_table R -> Pg.tableRows table db' = Pg.tableRows table db)
  /\ exists assignments nowColumns,
       (forall c, In c (List.map fst assignments) \/ In c nowColumns ->
                  In c (assignedColumns R))
       /\ (Pg.tableRows (repo_table R) db' = Pg.tableRows (repo_table R) db
           \/ Pg.tableRows (repo_table R) db'
              = List.map (fun row => if Pg.rowHasId id row
                                     then Pg.applyUpdate P db assignments nowColumns row
                                     else row)
                  (Pg.tableRows (repo_table R) db)).
Proof.
  unfold Repository.update, tryCatch.
  destruct (Repository.collectUpdates R data) as [|u updates] eqn:Hupdates.
  - intros Hrun.
    assert (db' = db) as ->.
    { unfold bind in Hrun.
      destruct (Repository.findById P R id db) as [[e|[entity|]] db1] eqn:Hfind;
        unfold Repository.findById, tryCatch, bind, Pg.query in Hfind;
        destruct (pgRefuses P _ db); cbn [Pg.runStatement rows] in Hfind;
        try destruct (List.filter _ _); unfold throw, ret in *; simplify_eq;
        try destruct (isNotFoundError _); simplify_eq; done. }
    split; [done |]. exists [], []. split; [intros c [[]|[]] | by left].
  - set (statement := if repo_stampsUpdate R then _ else _).
    unfold bind, Pg.query. intros Hrun.
    assert (Hcols : exists assignments nowColumns,
              statement = UpdateReturning (repo_table R) assignments nowColumns id
              /\ forall c, In c (List.map fst assignments) \/ In c nowColumns ->
                           In c (assignedColumns R)).
    { unfold statement, assignedColumns. destruct (repo_stampsUpdate R).
      - eexists _, _. split; [reflexivity |]. intros c [Hin|Hin].
        + rewrite map_app, in_app_iff in Hin. rewrite in_app_iff.
          destruct Hin as [Hin|[<-|[]]]; [left | right; by left].
          apply (collectUpdates_columns R data). by rewrite Hupdates.
        + destruct Hin as [<-|[]]. rewrite in_app_iff. right. right. by left.
      - eexists _, _. split; [reflexivity |]. intros c [Hin|[]].
        rewrite app_nil_r. apply (collectUpdates_columns R data). by rewrite Hupdates. }
    destruct Hcols as (assignments & nowColumns & Hst & Hcols). rewrite Hst in Hrun.
    destruct (pgRefuses P _ db).
    + assert (db' = db) as ->.
      { unfold throw in Hrun. destruct (isNotFoundError _); by simplify_eq. }
      split; [done |]. exists assignments, nowColumns. split; [done | by left].
    + cbn [Pg.runStatement rows] in Hrun.
      assert (db' = <[repo_table R :=
                        List.map (fun row => if Pg.rowHasId id row
                                             then Pg.applyUpdate P db assignments nowColumns row
                                             else row)
                          (Pg.tableRows (repo_table R) db)]> db) as ->.
      { destruct (List.map _ (List.filter _ _)); unfold throw, ret in Hrun;
          try destruct (isNotFoundError _); by simplify_eq. }
      split.
      * intros table Hne. by apply tableRows_insert_other.
      * exists assignments, nowColumns. split; [done |]. right. apply tableRows_insert.
Qed.

(** X11. Whatever its outcome, a repository update neither adds nor removes a
    row of its table, leaves every row with another id exactly as it was and
    where it was, and leaves every other table unchanged. *)
Theorem update_touches_only_the_rows_with_that_id {T : Type} (R : RepoSpec T)
    (id : string) (data : gmap string JsValue) (userId : string)
    (db : Store) (r : Result T) (db' : Store) :
  Repository.update P R id data userId db = (r, db') ->
  length (Pg.tableRows (repo_table R) db') = length (Pg.tableRows (repo_table R) db)
  /\ (forall (i : nat) (row : Row),
        Pg.tableRows (repo_table R) db !! i = Some row ->
        Pg.rowHasId id row = false ->
        Pg.tableRows (repo_table R) db' !! i = Some row)
  /\ (forall table, table <> repo_table R ->
        Pg.tableRows table db' = Pg.tableRows table db).
Proof.
  intros Hrun.
  destruct (update_rows R id data userId db r db' Hrun)
    as (Hothers & assignments & nowColumns & _ & [Hsame|Hmapped]).
  - rewrite Hsame. done.
  - rewrite Hmapped. split_and!; [by rewrite length_map | | done].
    intros i row Hrow Hid.
    change (List.map ?f ?l) with (f <$> l). rewrite list_lookup_fmap, Hrow. simpl.
    by rewrite Hid.
Qed.

Lemma update_keeps_unassigned_columns {T : Type} (R : RepoSpec T)
    (id : string) (data : gmap string JsValue) (userId : string)
    (db : Store) (r : Result T) (db' : Store) (c : string) :
  Repository.update P R id data userId db = (r, db') ->
  ~ In c (assignedColumns R) ->
  columnValues c (repo_table R) db' = columnValues c (repo_table R) db.
Proof.
  intros Hrun Hc. unfold columnValues.
  destruct (update_rows R id data userId db r db' Hrun)
    as (_ & assignments & nowColumns & Hcols & [Hsame|Hmapped]).
  - by rewrite Hsame.
  - rewrite Hmapped, List.map_map. apply List.map_ext. intros row.
    destruct (Pg.rowHasId id row); [| done].
    apply applyUpdate_lookup_other; intros Hin; apply Hc, Hcols; tauto.
Qed.

(** X12. No update of a custom field definition, whatever the data given and
    whatever its outcome, changes the id, name, entity_type, field_type,
    enum_values, created_at or created_by column of any stored definition. *)
Theorem definition_update_keeps_name_and_kind (id : string) (data : gmap string JsValue)
    (userId : string) (db : Store) (r : Result CustomFieldDefinition) (db' : Store)
    (c : string) :
  Repository.update P (customFieldDefinitionRepository P) id data userId db = (r, db') ->
  In c definitionFixedColumns ->
  columnValues c "custom_field_definitions" db'
  = columnValues c "custom_field_definitions" db.
Proof.
  intros Hrun Hc.
  apply (update_keeps_unassigned_columns _ id data userId db r db' c Hrun).
  simpl in Hc |- *. intuition (subst; discriminate).
Qed.

(** X13. No update of a contact, company, deal, task or note, whatever the
    data given and whatever its outcome, changes the id, created_at or
    created_by column of any stored row. *)
Theorem entity_update_keeps_identity (S : ServiceSpec) (id : string)
    (data : gmap string JsValue) (userId : string) (db : Store)
    (r : Result Entity) (db' : Store) (c : string) :
  In S (entityServices P) ->
  Repository.update P (svc_repository S) id data userId db = (r, db') ->
  In c entityFixedColumns ->
  columnValues c (repo_table (svc_repository S)) db'
  = columnValues c (repo_table (svc_repository S)) db.
Proof.
  intros HS Hrun Hc.
  apply (update_keeps_unassigned_columns _ id data userId db r db' c Hrun).
  destruct HS as [<-|[<-|[<-|[<-|[<-|[]]]]]];
    simpl in Hc |- *; intuition (subst; discriminate).
Qed.

End UpdateEffects.

Section StampedUpdate.

Variable P : Platform.




End StampedUpdate.

Section Attachments.

Variable P : Platform.






End Attachments.

Section Cascade.

Variable P : Platform.

Lemma rowHasId_withoutCompany (companyId id : string) (row : Row) :
  Pg.rowHasId id (withoutCompany companyId row) = Pg.rowHasId id row.
Proof.
  unfold withoutCompany. destruct (Pg.columnIs "company_id" _ row); [| done].
  unfold Pg.rowHasId, Pg.columnIs. by rewrite lookup_insert_ne.
Qed.

Lemma filter_withoutCompany (companyId id : string) (rows0 : list Row) :
  List.filter (Pg.rowHasId id) (List.map (withoutCompany companyId) rows0)
  = List.map (withoutCompany companyId) (List.filter (Pg.rowHasId id) rows0).
Proof.
  induction rows0 as [|row rows0 IH]; [done |]. simpl.
  rewrite rowHasId_withoutCompany. destruct (Pg.rowHasId id row); simpl; by rewrite IH.
Qed.

(** X16. Deleting an existing company removes every deal that references it,
    keeps every contact while setting company_id to null on those that
    reference it (such a contact is still found by its id, with companyId
    null), and leaves tasks and notes untouched. *)
Theorem deleting_a_company_cascades (id userId : string) (db : Store) :
  pgRefuses P (DeleteById "companies" id) db = None ->
  List.filter (Pg.rowHasId id) (Pg.tableRows "companies" db) <> [] ->
  exists db',
    Repository.delete P (companyRepository P) id userId db = (Ok tt, db')
    /\ Pg.tableRows "deals" db'
       = List.filter (fun r => negb (Pg.columnIs "company_id" (JStr id) r))
           (Pg.tableRows "deals" db)
    /\ (forall row, In row (Pg.tableRows "deals" db') ->
                    Pg.columnIs "company_id" (JStr id) row = false)
    /\ Pg.tableRows "contacts" db' = List.map (withoutCompany id) (Pg.tableRows "contacts" db)
    /\ Pg.tableRows "tasks" db' = Pg.tableRows "tasks" db
    /\ Pg.tableRows "notes" db' = Pg.tableRows "notes" db
    /\ (forall contactId row rest,
          List.filter (Pg.rowHasId contactId) (Pg.tableRows "contacts" db) = row :: rest ->
          pgRefuses P (SelectById "contacts" contactId) db' = None ->
          Repository.findById P (contactRepository P) contactId db'
          = (Ok (Some (mapRowToContact P (withoutCompany id row))), db')
          /\ (Pg.columnIs "company_id" (JStr id) row = true ->
              mapRowToContact P (withoutCompany id row) !! "companyId" = Some JNull)).
Proof.
  intros Hok Hsome.
  destruct (delete_outcome P (companyRepository P) id userId db Hok) as [_ Hdelete].
  specialize (Hdelete Hsome). cbn [repo_table companyRepository] in Hdelete.
  eexists. split; [exact Hdelete |].
  unfold Pg.referentialActions. cbn [String.eqb Ascii.eqb Bool.eqb].
  change (fun r : Row => if Pg.columnIs "company_id" (JStr id) r
                         then <["company_id" := JNull]> r else r)
    with (withoutCompany id).
  assert (Hdeals : forall rows0 : list Row,
            Pg.tableRows "deals" (<["companies" := rows0]> db) = Pg.tableRows "deals" db).
  { intros rows0. by apply tableRows_insert_other. }
  assert (Hcontacts : forall rows0 : list Row,
            Pg.tableRows "contacts" (<["companies" := rows0]> db) = Pg.tableRows "contacts" db).
  { intros rows0. by apply tableRows_insert_other. }
  split_and!.
  - rewrite tableRows_insert_other by done. by rewrite tableRows_insert, Hdeals.
  - intros row. rewrite tableRows_insert_other by done. rewrite tableRows_insert, Hdeals.
    intros [_ Hrow]%filter_In. by apply negb_true_iff.
  - rewrite tableRows_insert, tableRows_insert_other by done. by rewrite Hcontacts.
  - by rewrite !tableRows_insert_other.
  - by rewrite !tableRows_insert_other.
  - intros contactId row rest Hrows Hselect. split.
    + apply (findById_found P (contactRepository P) contactId _ (withoutCompany id row)
               (List.map (withoutCompany id) rest)); [done |].
      cbn [repo_table contactRepository].
      rewrite tableRows_insert, tableRows_insert_other by done.
      by rewrite Hcontacts, filter_withoutCompany, Hrows.
    + intros Href. unfold withoutCompany. rewrite Href.
      unfold mapRowToContact, getProp. rewrite lookup_insert_eq. done.
Qed.

End Cascade.

Lemma bind_Err {S A B : Type} (m : M S A) (k : A -> M S B) (s s' : S) (e : Error) :
  bind m k s = (Err e, s') ->
  m s = (Err e, s') \/ exists a s1, m s = (Ok a, s1) /\ k a s1 = (Err e, s').
Proof.
  unfold bind. destruct (m s) as [[e0|a] s1]; [intros [= <- <-]; by left | eauto].
Qed.

Section FailedMutations.

Variable P : Platform.

Lemma createAuditLog_fails (entityType : string) (entityId : JsValue)
    (action userId : string) (changes : option (gmap string JsValue))
    (db : Store) (e : Error) (db' : Store) :
  Audit.createAuditLog P entityType entityId action userId changes db = (Err e, db') ->
  db' = db /\ exists orig, e = DatabaseError "Failed to create audit log" orig.
Proof.
  unfold Audit.createAuditLog, tryCatch, bind, Pg.query, throw, ret.
  destruct (pgRefuses P _ db); [intros [= <- <-]; eauto |].
  cbn [Pg.runStatement rows]. discriminate.
Qed.

Lemma logCreate_fails (entityType : string) (entityId : JsValue) (userId : string)
    (entityData : JsValue) (db : Store) (e : Error) (db' : Store) :
  Audit.logCreate P entityType entityId userId entityData db = (Err e, db') ->
  db' = db /\ exists orig, e = DatabaseError "Failed to create audit log" orig.
Proof.
  unfold Audit.logCreate. intros [Hlog|(a & db1 & _ & [=])]%bind_Err.
  by apply createAuditLog_fails in Hlog.
Qed.

Lemma logDelete_fails (entityType : string) (entityId : JsValue) (userId : string)
    (entityData : JsValue) (db : Store) (e : Error) (db' : Store) :
  Audit.logDelete P entityType entityId userId entityData db = (Err e, db') ->
  db' = db /\ exists orig, e = DatabaseError "Failed to create audit log" orig.
Proof.
  unfold Audit.logDelete. intros [Hlog|(a & db1 & _ & [=])]%bind_Err.
  by apply createAuditLog_fails in Hlog.
Qed.

Lemma logUpdate_fails (entityType : string) (entityId : JsValue) (userId : string)
    (before after : gmap string JsValue) (db : Store) (e : Error) (db' : Store) :
  Audit.logUpdate P entityType entityId userId before after db = (Err e, db') ->
  db' = db /\ exists orig, e = DatabaseError "Failed to create audit log" orig.
Proof.
  unfold Audit.logUpdate. destruct (bool_decide _); [| discriminate].
  intros [Hlog|(a & db1 & _ & [=])]%bind_Err.
  by apply createAuditLog_fails in Hlog.
Qed.

(** X17. A create, update or delete of the contact, company, deal, task or
    note service that throws leaves the audit trail exactly as it was: no
    audit record is written for a failed mutation. *)
Theorem failed_mutations_leave_no_audit_record (S : ServiceSpec) :
  In S (entityServices P) ->
  (forall data userId db e db',
     Service.create P S data userId db = (Err e, db') ->
     Audit.auditRecords db' = Audit.auditRecords db)
  /\ (forall id data userId db e db',
        Service.update P S id data userId db = (Err e, db') ->
        Audit.auditRecords db' = Audit.auditRecords db)
  /\ (forall id userId db e db',
        Service.delete P S id userId db = (Err e, db') ->
        Audit.auditRecords db' = Audit.auditRecords db).
Proof.
  intros HS. pose proof (entityServices_table P S HS) as Htable. split_and!.
  - intros data userId db e db'. unfold Service.create.
    intros [Hvalid|(vd & db1 & Hvalid & Hrest)]%bind_Err.
    { by apply leaves_liftResult in Hvalid. }
    apply leaves_liftResult in Hvalid.
    apply bind_Err in Hrest as [Hcheck|(u1 & db2 & Hcheck & Hrest)].
    { apply leaves_checkCustomFields in Hcheck. congruence. }
    apply leaves_checkCustomFields in Hcheck.
    apply bind_Err in Hrest as [Hcreate|(entity & db3 & Hcreate & Hrest)].
    { apply leaves_create in Hcreate; [congruence | done]. }
    apply leaves_create in Hcreate; [| done].
    apply bind_Err in Hrest as [Hlog|(u2 & db4 & _ & [=])].
    apply logCreate_fails in Hlog as [-> _]. congruence.
  - intros id data userId db e db'. unfold Service.update.
    intros [Hvalid|(vd & db1 & Hvalid & Hrest)]%bind_Err.
    { by apply leaves_liftResult in Hvalid. }
    apply leaves_liftResult in Hvalid.
    apply bind_Err in Hrest as [Hfind|([existing|] & db2 & Hfind & Hrest)].
    { apply leaves_findById in Hfind; [congruence | done]. }
    2:{ apply leaves_findById in Hfind; [| done]. injection Hrest as _ <-. congruence. }
    apply leaves_findById in Hfind; [| done].
    apply bind_Err in Hrest as [Hcheck|(u1 & db3 & Hcheck & Hrest)].
    { apply leaves_checkCustomFields in Hcheck. congruence. }
    apply leaves_checkCustomFields in Hcheck.
    apply bind_Err in Hrest as [Hupd|(updated & db4 & Hupd & Hrest)].
    { apply leaves_update in Hupd; [congruence | done]. }
    apply leaves_update in Hupd; [| done].
    apply bind_Err in Hrest as [Hlog|(u2 & db5 & _ & [=])].
    apply logUpdate_fails in Hlog as [-> _]. congruence.
  - intros id userId db e db'. unfold Service.delete.
    intros [Hfind|([existing|] & db1 & Hfind & Hrest)]%bind_Err.
    { apply leaves_findById in Hfind; [congruence | done]. }
    2:{ apply leaves_findById in Hfind; [| done]. injection Hrest as _ <-. congruence. }
    apply leaves_findById in Hfind; [| done].
    apply bind_Err in Hrest as [Hdel|(u1 & db2 & Hdel & Hlog)].
    { apply leaves_delete in Hdel; [congruence | done]. }
    apply leaves_delete in Hdel; [| done].
    apply logDelete_fails in Hlog as [-> _]. congruence.
Qed.

Lemma liftResult_state {A : Type} (x : Result A) (db : Store) (r : Result A) (db' : Store) :
  liftResult x db = (r, db') -> db' = db.
Proof. destruct x; by intros [= _ <-]. Qed.

Lemma findAllDefinitions_state (filters : gmap string JsValue) (db : Store)
    (r : Result (list CustomFieldDefinition)) (db' : Store) :
  findAllDefinitions P filters db = (r, db') -> db' = db.
Proof.
  unfold findAllDefinitions, tryCatch, bind, Pg.query, throw, ret.
  destruct (pgRefuses P _ db); [by intros [= _ <-] |].
  cbn [Pg.runStatement]. by intros [= _ <-].
Qed.

Lemma checkCustomFields_state (S : ServiceSpec) (validatedData : gmap string JsValue)
    (db : Store) (r : Result unit) (db' : Store) :
  Service.checkCustomFields P S validatedData db = (r, db') -> db' = db.
Proof.
  unfold Service.checkCustomFields.
  destruct (svc_validatesCustomFields S); [| by intros [= _ <-]].
  destruct (getProp validatedData "customFields"); try by intros [= _ <-].
  destruct (bool_decide _); [| by intros [= _ <-]].
  unfold bind, findByEntityType.
  destruct (findAllDefinitions P _ db) as [[e|defs] db1] eqn:Hfind;
    apply findAllDefinitions_state in Hfind as ->.
  - by intros [= _ <-].
  - apply liftResult_state.
Qed.

Lemma create_outcome {T : Type} (R : RepoSpec T) (data : gmap string JsValue)
    (userId : string) (db : Store) (r : Result T) (db' : Store) :
  Repository.create P R data userId db = (r, db') ->
  (exists e, r = Err e /\ db' = db)
  \/ (exists row, r = Ok (repo_mapRow R row)
        /\ db' = <[repo_table R := Pg.tableRows (repo_table R) db ++ [row]]> db).
Proof.
  unfold Repository.create, tryCatch, bind, Pg.query, throw.
  destruct (pgRefuses P _ db); [intros [= <- <-]; left; eauto |].
  cbn [Pg.runStatement Repository.mapFirstRow rows ret].
  intros [= <- <-]. right. eauto.
Qed.

(** X18. When a service create throws, either the store is exactly as before,
    or what failed is the audit write: the error is the DatabaseError 'Failed
    to create audit log' and the entity row has been inserted and stays
    stored, the service not undoing it. *)
Theorem failed_create_keeps_the_entity_only_if_the_audit_write_failed (S : ServiceSpec)
    (data : gmap string JsValue) (userId : string) (db : Store) (e : Error) (db' : Store) :
  Service.create P S data userId db = (Err e, db') ->
  db' = db
  \/ exists orig row,
       e = DatabaseError "Failed to create audit log" orig
       /\ db' = <[repo_table (svc_repository S)
                  := Pg.tableRows (repo_table (svc_repository S)) db ++ [row]]> db.
Proof.
  unfold Service.create.
  intros [Hvalid|(vd & db1 & Hvalid & Hrest)]%bind_Err.
  { left. by apply liftResult_state in Hvalid. }
  apply liftResult_state in Hvalid as ->.
  apply bind_Err in Hrest as [Hcheck|(u1 & db2 & Hcheck & Hrest)].
  { left. by apply checkCustomFields_state in Hcheck. }
  apply checkCustomFields_state in Hcheck as ->.
  apply bind_Err in Hrest as [Hcreate|(entity & db3 & Hcreate & Hrest)].
  { left. by apply create_outcome in Hcreate as [(e0 & _ & ->)|(row & [=] & _)]. }
  apply create_outcome in Hcreate as [(e0 & [=] & _)|(row & _ & ->)].
  apply bind_Err in Hrest as [Hlog|(u2 & db4 & _ & [=])].
  apply logCreate_fails in Hlog as [-> [orig ->]]. right. eauto.
Qed.

(** The definitions the services validate against: those stored for the
    entity type, in the store's order. *)
Lemma findByEntityType_found (entityType : string) (db : Store) :
  entityType <> "" ->
  pgRefuses P (SelectWhere "custom_field_definitions" [("entity_type", JStr entityType)]) db
  = None ->
  findByEntityType P entityType db
  = (Ok (List.map (mapRowToCustomFieldDefinition P)
           (orderByCreatedAtDesc P
              (List.filter (Pg.columnIs "entity_type" (JStr entityType))
                 (Pg.tableRows "custom_field_definitions" db)))), db).
Proof.
  intros Hne Hok. unfold findByEntityType, findAllDefinitions, tryCatch, bind, Pg.query.
  assert (getProp ({[ "entityType" := JStr entityType ]} : gmap string JsValue) "entityType"
          = JStr entityType) as ->.
  { unfold getProp. by rewrite lookup_singleton_eq. }
  cbn [truthy]. apply String.eqb_neq in Hne. rewrite Hne. cbn [negb]. rewrite Hok.
  cbn [Pg.runStatement rows ret]. do 4 f_equal.
  apply List.filter_ext. intros r. simpl. by rewrite andb_true_r.
Qed.

(** X19. In a service that validates custom fields, when the validated input
    carries a non-empty customFields object that validateCustomFields rejects
    against the definitions stored for the service's entity type, create, and
    update of an existing entity, throw that validation error and leave the
    store exactly as it was. *)
Theorem invalid_custom_fields_stop_the_mutation_before_any_write (S : ServiceSpec)
    (data validatedData : gmap string JsValue) (customFields : list (string * JsValue))
    (userId : string) (db : Store) (e : Error) :
  svc_validatesCustomFields S = true ->
  svc_entityType S <> "" ->
  getProp validatedData "customFields" = JObj customFields ->
  customFields <> [] ->
  pgRefuses P (SelectWhere "custom_field_definitions"
                 [("entity_type", JStr (svc_entityType S))]) db = None ->
  CustomFields.validateCustomFields (Date_getTime P) (Date_throws P)
    (List.map (mapRowToCustomFieldDefinition P)
       (orderByCreatedAtDesc P
          (List.filter (Pg.columnIs "entity_type" (JStr (svc_entityType S)))
             (Pg.tableRows "custom_field_definitions" db))))
    customFields = Err e ->
  (validateData P (svc_createSchema S) data = Ok validatedData ->
   Service.create P S data userId db = (Err e, db))
  /\ (forall id row rest,
        validateData P (svc_updateSchema S) data = Ok validatedData ->
        pgRefuses P (SelectById (repo_table (svc_repository S)) id) db = None ->
        List.filter (Pg.rowHasId id) (Pg.tableRows (repo_table (svc_repository S)) db)
        = row :: rest ->
        Service.update P S id data userId db = (Err e, db)).
Proof.
  intros Hflag Htype Hfields Hsome Hselect Hinvalid.
  assert (Hcheck : Service.checkCustomFields P S validatedData db = (Err e, db)).
  { unfold Service.checkCustomFields. rewrite Hflag, Hfields.
    rewrite bool_decide_eq_true_2.
    - unfold bind. rewrite findByEntityType_found by done. by rewrite Hinvalid.
    - destruct customFields; [done | simpl; lia]. }
  split.
  - intros Hvalid. unfold Service.create, bind, liftResult. rewrite Hvalid. cbn [ret].
    by rewrite Hcheck.
  - intros id row rest Hvalid Hok Hrows.
    unfold Service.update, bind, liftResult. rewrite Hvalid. cbn [ret].
    rewrite (findById_found P _ id db row rest Hok Hrows). by rewrite Hcheck.
Qed.

Lemma recordChange_same (entity changes : gmap string JsValue) (key : string) :
  Audit.recordChange P entity entity changes key = changes.
Proof.
  unfold Audit.recordChange, Audit.serializedDiffer.
  destruct (bool_decide (key ∈ Audit.metadataFields)); [done |].
  by rewrite bool_decide_eq_true_2.
Qed.

Lemma calculateChanges_same (entity : gmap string JsValue) :
  Audit.calculateChanges P entity entity = ∅.
Proof.
  unfold Audit.calculateChanges.
  induction (remove_dups _) as [|key l IH]; [done |].
  cbn [fold_left]. by rewrite recordChange_same.
Qed.

(** X20. A service update whose validated data has no recognised field and no
    customFields returns the stored entity and leaves the whole store
    unchanged: no row is rewritten and no audit record is added. *)
Theorem update_that_changes_nothing_is_not_audited (S : ServiceSpec) (id : string)
    (data validatedData : gmap string JsValue) (userId : string) (db : Store)
    (row : Row) (rest : list Row) :
  validateData P (svc_updateSchema S) data = Ok validatedData ->
  (forall f, In f (repo_updateFields (svc_repository S)) ->
             getProp validatedData (fst (fst f)) = JUndefined) ->
  getProp validatedData "customFields" = JUndefined ->
  pgRefuses P (SelectById (repo_table (svc_repository S)) id) db = None ->
  List.filter (Pg.rowHasId id) (Pg.tableRows (repo_table (svc_repository S)) db)
  = row :: rest ->
  Service.update P S id data userId db = (Ok (repo_mapRow (svc_repository S) row), db).
Proof.
  intros Hvalid Hnone Hfields Hok Hrows.
  unfold Service.update, bind, liftResult. rewrite Hvalid. cbn [ret].
  rewrite (findById_found P _ id db row rest Hok Hrows).
  assert (Service.checkCustomFields P S validatedData db = (Ok tt, db)) as ->.
  { unfold Service.checkCustomFields. rewrite Hfields.
    by destruct (svc_validatesCustomFields S). }
  unfold Repository.update, tryCatch, bind.
  rewrite (collectUpdates_nil _ _ Hnone).
  rewrite (findById_found P _ id db row rest Hok Hrows). cbn [ret].
  unfold Audit.logUpdate. rewrite calculateChanges_same.
  by rewrite bool_decide_eq_false_2 by (rewrite map_size_empty; lia).
Qed.

End FailedMutations.

Section TransactionOutcomes.

Variable pool : Pool.
Context {T : Type}.

Ltac run_coordinator :=
  unfold executeInTransaction, withTransaction, bind, tryFinally, tryCatch, connect,
    clientQuery, release, run, ret, throw.

Lemma coordinator_returns (wrap : Error -> Error) (callback : UnitOfWork T)
    (h : list Event) (a : T) :
  let tx : M History T :=
    (c <- connect pool ;;
     tryFinally
       (tryCatch
          (_ <- clientQuery pool c "BEGIN" ;;
           result <- run callback c ;;
           _ <- clientQuery pool c "COMMIT" ;;
           ret result)
          (fun error => _ <- clientQuery pool c "ROLLBACK" ;; throw (wrap error)))
       (release c)) in
  fst (tx h) = Ok a
  <-> exists client sent,
        pool_connect pool h = Ok client
        /\ beginAccepted pool client h
        /\ callback client (started client h) = (Ok a, sent)
        /\ client_refuses pool client "COMMIT" (started client h ++ sent) = None.
Proof.
  cbv zeta. unfold beginAccepted, started. run_coordinator. split.
  - destruct (pool_connect pool h) as [e|client] eqn:Hconnect; [discriminate |].
    destruct (client_refuses pool client "BEGIN" (h ++ [Connect client])) as [e|] eqn:Hbegin.
    { destruct (client_refuses pool client "ROLLBACK" _); discriminate. }
    destruct (callback client ((h ++ [Connect client]) ++ [Query client "BEGIN"]))
      as [[e|a'] sent] eqn:Hcb.
    { destruct (client_refuses pool client "ROLLBACK" _); discriminate. }
    destruct (client_refuses pool client "COMMIT" _) as [e|] eqn:Hcommit.
    { destruct (client_refuses pool client "ROLLBACK" _); discriminate. }
    simpl. intros [= ->]. exists client, sent. done.
  - intros (client & sent & Hconnect & Hbegin & Hcb & Hcommit).
    by rewrite Hconnect, Hbegin, Hcb, Hcommit.
Qed.

(** X21. executeInTransaction and withTransaction return a value exactly when
    the pool handed out a connection, BEGIN was accepted on it, the callback
    returned that value and COMMIT was accepted. *)
Theorem transaction_returns_exactly_when_it_commits (callback : UnitOfWork T)
    (h : list Event) (a : T) :
  (fst (executeInTransaction pool callback h) = Ok a
   <-> exists client sent,
         pool_connect pool h = Ok client
         /\ beginAccepted pool client h
         /\ callback client (started client h) = (Ok a, sent)
         /\ client_refuses pool client "COMMIT" (started client h ++ sent) = None)
  /\ (fst (withTransaction pool callback h) = Ok a
      <-> exists client sent,
            pool_connect pool h = Ok client
            /\ beginAccepted pool client h
            /\ callback client (started client h) = (Ok a, sent)
            /\ client_refuses pool client "COMMIT" (started client h ++ sent) = None).
Proof.
  split.
  - exact (coordinator_returns (fun e => DatabaseError "Transaction failed" e) callback h a).
  - exact (coordinator_returns (fun e => e) callback h a).
Qed.

(** X22. When the pool does not hand out a connection, executeInTransaction
    and withTransaction rethrow that error as it is, with nothing sent and
    nothing released; when the callback throws and the ROLLBACK is itself
    refused, both throw the ROLLBACK's error, executeInTransaction without its
    DatabaseError wrapper and the callback's error being lost, and the
    connection is still released. *)
Theorem connect_and_rollback_failures_escape_unwrapped (callback : UnitOfWork T)
    (h : list Event) :
  (forall e, pool_connect pool h = Err e ->
     executeInTransaction pool callback h = (Err e, h)
     /\ withTransaction pool callback h = (Err e, h))
  /\ (forall client e sent e',
        pool_connect pool h = Ok client ->
        beginAccepted pool client h ->
        callback client (started client h) = (Err e, sent) ->
        client_refuses pool client "ROLLBACK" (started client h ++ sent) = Some e' ->
        executeInTransaction pool callback h
        = (Err e', started client h ++ sent ++ [Query client "ROLLBACK"; Release client])
        /\ withTransaction pool callback h
           = (Err e', started client h ++ sent ++ [Query client "ROLLBACK"; Release client])).
Proof.
  split.
  - intros e Hconnect. run_coordinator. by rewrite Hconnect.
  - intros client e sent e'. unfold beginAccepted, started.
    intros Hconnect Hbegin Hcb Hrollback.
    run_coordinator. rewrite Hconnect, Hbegin, Hcb, Hrollback. simpl.
    by rewrite <- !app_assoc.
Qed.

End TransactionOutcomes.

Section Helpers.

Import TransactionHelpers.

Variable pool : Pool.

Lemma closeAll_committed (calls : list Closing) (context : TransactionContext)
    (h : list Event) :
  ctx_committed context = true ->
  closeAll pool calls context h = (Ok context, h).
Proof.
  intros Hdone. induction calls as [|c calls IH]; [done |].
  cbn [closeAll]. unfold bind, close, commitTransaction, rollbackTransaction.
  destruct c; rewrite Hdone; cbn [negb ret]; exact IH.
Qed.

Lemma close_open (c : Closing) (context : TransactionContext) (h : list Event) :
  ctx_committed context = false ->
  close pool c context h
  = match client_refuses pool (ctx_client context) (closingStatement c) h with
    | Some e => (Err e, h ++ [Query (ctx_client context) (closingStatement c)])
    | None =>
        (Ok (mkTransactionContext (ctx_client context) true),
         h ++ [Query (ctx_client context) (closingStatement c);
               Release (ctx_client context)])
    end.
Proof.
  intros Hopen.
  unfold close, commitTransaction, rollbackTransaction, bind, clientQuery, release, ret.
  destruct c; rewrite Hopen; cbn [negb closingStatement];
    destruct (client_refuses pool _ _ h); try done; by rewrite <- app_assoc.
Qed.

(** X23. Of any sequence of commitTransaction and rollbackTransaction calls on
    an open context that all return, only the first has an effect: exactly one
    closing statement is sent, that of the first call, the connection is
    released exactly once, and the context ends up marked committed. *)
Theorem only_the_first_commit_or_rollback_takes_effect (c : Closing)
    (calls : list Closing) (context context' : TransactionContext) (h h' : list Event) :
  ctx_committed context = false ->
  closeAll pool (c :: calls) context h = (Ok context', h') ->
  h' = h ++ [Query (ctx_client context) (closingStatement c); Release (ctx_client context)]
  /\ context' = mkTransactionContext (ctx_client context) true.
Proof.
  intros Hopen. cbn [closeAll]. unfold bind. rewrite close_open by done.
  destruct (client_refuses pool _ _ h); [discriminate |].
  rewrite closeAll_committed by done. by intros [= <- <-].
Qed.

(** X24. The transaction helpers release nothing when their statement is
    refused: beginTransaction throws with the connection it took from the pool
    still checked out, and commitTransaction or rollbackTransaction on an open
    context throws without releasing; a call of these on an open context
    releases the connection only when it returns. *)
Theorem helpers_keep_the_connection_when_their_statement_fails (h : list Event) :
  (forall client e,
     pool_connect pool h = Ok client ->
     client_refuses pool client "BEGIN" (h ++ [Connect client]) = Some e ->
     beginTransaction pool h = (Err e, h ++ [Connect client; Query client "BEGIN"]))
  /\ (forall c context e,
        ctx_committed context = false ->
        client_refuses pool (ctx_client context) (closingStatement c) h = Some e ->
        close pool c context h
        = (Err e, h ++ [Query (ctx_client context) (closingStatement c)]))
  /\ (forall c context h',
        ctx_committed context = false ->
        snd (close pool c context h) = h' ->
        In (Release (ctx_client context)) (skipn (length h) h') ->
        exists context', fst (close pool c context h) = Ok context').
Proof.
  split_and!.
  - intros client e Hconnect Hbegin.
    unfold beginTransaction, bind, connect, clientQuery.
    rewrite Hconnect, Hbegin. by rewrite <- app_assoc.
  - intros c context e Hopen Hrefused. rewrite close_open by done. by rewrite Hrefused.
  - intros c context h' Hopen. rewrite close_open by done.
    destruct (client_refuses pool _ _ h); [| eauto].
    cbn [snd fst]. intros <-. rewrite skipn_app, skipn_all, Nat.sub_diag. simpl.
    intros [[=]|[]].
Qed.

End Helpers.

Section CreatedEntities.

Variable P : Platform.

(** X25. The entity returned by create of the contact, company, deal, task or
    note repository has the id the store generated, createdBy and updatedBy
    equal to the acting user, and createdAt and updatedAt both equal to the
    store's time at the insertion. *)
Theorem created_entity_carries_its_id_and_its_creator (S : ServiceSpec)
    (data : gmap string JsValue) (userId : string) (db : Store)
    (entity : Entity) (db' : Store) :
  In S (entityServices P) ->
  Repository.create P (svc_repository S) data userId db = (Ok entity, db') ->
  entity !! "id" = Some (JStr (gen_random_uuid P db))
  /\ entity !! "createdBy" = Some (JStr userId)
  /\ entity !! "updatedBy" = Some (JStr userId)
  /\ entity !! "createdAt" = Some (newDate P (NOW P db))
  /\ entity !! "updatedAt" = Some (newDate P (NOW P db)).
Proof.
  intros HS. unfold Repository.create, tryCatch, bind, Pg.query, throw.
  destruct (pgRefuses P _ db); [discriminate |].
  cbn [Pg.runStatement Repository.mapFirstRow rows ret]. intros [= <- _].
  destruct HS as [<-|[<-|[<-|[<-|[<-|[]]]]]].
  all: split_and!; vm_compute; reflexivity.
Qed.

End CreatedEntities.

Section DefinitionRemoval.

Variable P : Platform.

Lemma findById_state {T : Type} (R : RepoSpec T) (id : string) (db : Store)
    (r : Result (option T)) (db' : Store) :
  Repository.findById P R id db = (r, db') -> db' = db.
Proof.
  unfold Repository.findById, tryCatch, bind, Pg.query, throw.
  destruct (pgRefuses P _ db); [by intros [= _ <-] |].
  cbn [Pg.runStatement rows]. destruct (List.filter _ _); by intros [= _ <-].
Qed.

(** X26. deleteCustomFieldDefinition, whatever its outcome, changes no table
    other than custom_field_definitions: the values entities hold under the
    deleted field stay stored. *)
Theorem deleting_a_definition_leaves_the_stored_values (id userId : string) (db : Store)
    (r : Result unit) (db' : Store) (table : string) :
  CustomFieldService.deleteCustomFieldDefinition P id userId db = (r, db') ->
  table <> "custom_field_definitions" ->
  Pg.tableRows table db' = Pg.tableRows table db.
Proof.
  intros Hrun Hother. revert Hrun.
  unfold CustomFieldService.deleteCustomFieldDefinition, bind.
  destruct (Repository.findById P _ id db) as [[e|[existing|]] db1] eqn:Hfind;
    apply findById_state in Hfind as ->; try by intros [= _ <-].
  unfold Repository.deleteAfterLookup, tryCatch, bind.
  destruct (Repository.findById P _ id db) as [[e|[found|]] db1] eqn:Hfind;
    apply findById_state in Hfind as ->.
  - destruct (isNotFoundError _); by intros [= _ <-].
  - unfold Pg.query. cbn [repo_table customFieldDefinitionRepository].
    destruct (pgRefuses P _ db); [by intros [= _ <-] |].
    cbn [Pg.runStatement].
    destruct (List.filter _ _); cbn [ret]; intros [= _ <-]; [done |].
    unfold Pg.referentialActions. cbn [String.eqb Ascii.eqb Bool.eqb].
    by rewrite tableRows_insert_other.
  - by intros [= _ <-].
Qed.

End DefinitionRemoval.

(** ** The properties above on the sample inputs *)

Lemma validateCustomFields_messages_witness :
  CustomFields.validateCustomFields everyDateInvalid everyValueConverts [industryField]
    unknownField
  = Err (ValidationError "Custom field validation failed" unknownAndMissing)
  /\ unknownAndMissing !! "x" = Some ["Unknown custom field: x"]
  /\ unknownAndMissing !! "industry" = Some ["Required field 'Industry' is missing"].
Proof.
  assert (Hthrown : CustomFields.validateCustomFields everyDateInvalid everyValueConverts
                      [industryField] unknownField
                    = Err (ValidationError "Custom field validation failed"
                             unknownAndMissing))
    by reflexivity.
  assert (Hkeys : NoDup unknownField.*1) by (apply NoDup_singleton).
  split; [exact Hthrown | split].
  - apply (proj1 (proj1 (validateCustomFields_messages everyDateInvalid everyValueConverts
                           [industryField] unknownField _ _ Hkeys Hthrown "x")
                    JNull (or_introl eq_refl))).
    intros d [<-|[]]. discriminate.
  - apply (proj2 (validateCustomFields_messages everyDateInvalid everyValueConverts
                    [industryField] unknownField _ _ Hkeys Hthrown "industry")).
    intros v [[=]|[]].
Defined.

Lemma kinds_accept_values_of_their_type_witness :
  isNullish (JStr "Bob") = false
  /\ cfd_fieldType optionalNickname = "text"
  /\ (CustomFields.validateCustomFieldValue everyDateInvalid everyValueConverts
        optionalNickname (JStr "Bob") = Ok accept
      <-> exists s, JStr "Bob" = JStr s).
Proof.
  split; [reflexivity | split; [reflexivity |]].
  exact (proj1 (kinds_accept_values_of_their_type everyDateInvalid everyValueConverts
                  optionalNickname (JStr "Bob") eq_refl) eq_refl).
Defined.

Lemma clean_goes_through_on_validated_values_witness :
  CustomFields.validateCustomFieldValue everyDateInvalid everyValueConverts
    optionalNickname (JStr "Bob") = Ok accept
  /\ valid accept = true
  /\ cleanCustomFieldValue everyDateInvalid everyValueConverts plainConversions "text"
       (JStr "Bob")
     = Ok (JStr "Bob").
Proof.
  split; [reflexivity | split; [reflexivity |]].
  exact (clean_goes_through_on_validated_values everyDateInvalid everyValueConverts
           plainConversions optionalNickname (JStr "Bob") accept eq_refl eq_refl).
Defined.

Lemma clean_throws_on_invalid_dates_and_unconvertible_objects_witness :
  isObjectLike (JObj [("toString", JNull)]) = true
  /\ String_throws plainConversions (JObj [("toString", JNull)]) = true
  /\ cleanCustomFieldValue everyDateInvalid everyValueConverts plainConversions "text"
       (JObj [("toString", JNull)])
     = Err CustomFields.conversionError
  /\ "boolean" <> "date"
  /\ cleanCustomFieldValue everyDateInvalid everyValueConverts plainConversions "boolean"
       (JStr "yes")
     = Ok (JBool true)
  /\ cleanCustomFieldValue everyDateInvalid everyValueConverts plainConversions "boolean"
       (JBool true)
     = Ok (JBool true).
Proof.
  split; [reflexivity | split; [reflexivity |]].
  split.
  - destruct (proj2 (proj1 (proj2 (clean_throws_on_invalid_dates_and_unconvertible_objects
                                     everyDateInvalid everyValueConverts plainConversions
                                     "text" (JObj [("toString", JNull)])))
                             eq_refl)
                      (or_introl (conj (or_introl eq_refl) eq_refl)))
      as [e He].
    reflexivity.
  - split; [discriminate | split; [reflexivity |]].
    apply (proj2 (proj2 (clean_throws_on_invalid_dates_and_unconvertible_objects
                           everyDateInvalid everyValueConverts plainConversions
                           "boolean" (JStr "yes"))));
      [discriminate | reflexivity].
Defined.

Lemma safeValidateData_groups_issues_by_path_witness :
  (exists errors messages,
     safeValidateData (T := unit) (inl [invalidEmail]) = Ok (ValidationFailure errors)
     /\ errors !! "emails.0" = Some messages
     /\ In "Invalid email" messages)
  /\ safeValidateData (T := unit) (inl [constructorIssue])
     = Err (JsError "TypeError" "errors[path].push is not a function").
Proof.
  split.
  - destruct (proj2 (safeValidateData_groups_issues_by_path (T := unit) [invalidEmail]))
      as (errors & Hfailed & _ & Hkept).
    { intros i [<-|[]]. by apply (bool_decide_unpack (_ ∉ _)). }
    destruct (Hkept invalidEmail (or_introl eq_refl)) as (messages & Hat & Hin).
    exists errors, messages. split; [exact Hfailed | split; [exact Hat | exact Hin]].
  - apply (proj1 (safeValidateData_groups_issues_by_path (T := unit) [constructorIssue])).
    exists constructorIssue. split; [by left |].
    by apply (bool_decide_unpack (_ ∈ _)).
Defined.

Lemma shared_handler_sorts_every_error_witness :
  errorCode (PgDriverError notNullName) = Some "23502"
  /\ isConstraintViolationError (ErrorHandler.handleDatabaseError (PgDriverError notNullName))
     = true.
Proof.
  split; [reflexivity |].
  apply (proj1 (shared_handler_sorts_every_error (PgDriverError notNullName))).
  exists "23502". split; [reflexivity | simpl; tauto].
Defined.

Lemma repositories_let_out_typed_errors_only_witness :
  Repository.create strictPlatform (companyRepository strictPlatform) ∅ "u1" ∅
  = (Err (DatabaseError "Database operation failed" (PgDriverError notNullName)), ∅)
  /\ repositoryError (DatabaseError "Database operation failed" (PgDriverError notNullName))
     = true.
Proof.
  assert (Hthrown : Repository.create strictPlatform (companyRepository strictPlatform)
                      ∅ "u1" ∅
                    = (Err (DatabaseError "Database operation failed"
                              (PgDriverError notNullName)), ∅))
    by reflexivity.
  split; [exact Hthrown |].
  exact (proj1 (proj1 (repositories_let_out_typed_errors_only strictPlatform
                         (companyRepository strictPlatform)) _ _ _ _ _ Hthrown)).
Defined.

Lemma response_names_the_error_class_witness :
  isNotFoundError (NotFoundError "Deal" "42") = true
  /\ resp_error (formatErrorResponse (fun _ => "") (NotFoundError "Deal" "42"))
     = "NotFoundError".
Proof.
  split; [reflexivity |].
  apply (proj1 (proj2 (response_names_the_error_class (fun _ => "")
                         (NotFoundError "Deal" "42")))).
  reflexivity.
Defined.

Lemma created_entity_is_found_by_its_id_witness :
  exists entity db',
    Repository.create plainPlatform (companyRepository plainPlatform) acme "u1" ∅
    = (Ok entity, db')
    /\ Repository.findById plainPlatform (companyRepository plainPlatform) "0b8f3c1e" db'
       = (Ok (Some entity), db').
Proof.
  eexists _, _. split; [reflexivity |].
  apply (proj1 (created_entity_is_found_by_its_id plainPlatform)
           (companyService plainPlatform) acme "u1" ∅).
  - right. left. reflexivity.
  - reflexivity.
  - intros row [].
  - reflexivity.
Defined.

Lemma deleted_entity_is_gone_witness :
  exists db',
    Repository.delete plainPlatform (taskRepository plainPlatform) "t1" "u1" oneTask
    = (Ok tt, db')
    /\ Repository.findById plainPlatform (taskRepository plainPlatform) "t1" db'
       = (Ok None, db').
Proof.
  destruct (proj2 (deleted_entity_is_gone plainPlatform (taskRepository plainPlatform)
                     "t1" "u1" oneTask eq_refl))
    as (db' & Hdeleted & _ & Hgone).
  - change (List.filter (Pg.rowHasId "t1") (Pg.tableRows "tasks" oneTask) <> []).
    assert (List.filter (Pg.rowHasId "t1") (Pg.tableRows "tasks" oneTask) = [storedTask])
      as -> by reflexivity.
    discriminate.
  - exists db'. split; [exact Hdeleted | apply Hgone; reflexivity].
Defined.


Lemma update_touches_only_the_rows_with_that_id_witness :
  length (Pg.tableRows "tasks"
            (snd (Repository.update plainPlatform (taskRepository plainPlatform)
                    "t1" markDone "u1" oneTask)))
  = length (Pg.tableRows "tasks" oneTask).
Proof.
  exact (proj1 (update_touches_only_the_rows_with_that_id plainPlatform
                  (taskRepository plainPlatform) "t1" markDone "u1" oneTask
                  (fst (Repository.update plainPlatform (taskRepository plainPlatform)
                          "t1" markDone "u1" oneTask))
                  (snd (Repository.update plainPlatform (taskRepository plainPlatform)
                          "t1" markDone "u1" oneTask))
                  eq_refl)).
Defined.

Lemma definition_update_keeps_name_and_kind_witness :
  In "name" definitionFixedColumns
  /\ columnValues "name" "custom_field_definitions"
       (snd (Repository.update plainPlatform (customFieldDefinitionRepository plainPlatform)
               "d3" relabel "admin" oneDefinition))
     = columnValues "name" "custom_field_definitions" oneDefinition.
Proof.
  assert (Hfixed : In "name" definitionFixedColumns) by (simpl; tauto).
  split; [exact Hfixed |].
  exact (definition_update_keeps_name_and_kind plainPlatform "d3" relabel "admin"
           oneDefinition
           (fst (Repository.update plainPlatform
                   (customFieldDefinitionRepository plainPlatform)
                   "d3" relabel "admin" oneDefinition))
           (snd (Repository.update plainPlatform
                   (customFieldDefinitionRepository plainPlatform)
                   "d3" relabel "admin" oneDefinition))
           "name" eq_refl Hfixed).
Defined.

Lemma entity_update_keeps_identity_witness :
  In (taskService plainPlatform) (entityServices plainPlatform)
  /\ columnValues "id" "tasks"
       (snd (Repository.update plainPlatform (taskRepository plainPlatform)
               "t1" markDone "u1" oneTask))
     = columnValues "id" "tasks" oneTask.
Proof.
  assert (Hservice : In (taskService plainPlatform) (entityServices plainPlatform))
    by (simpl; tauto).
  split; [exact Hservice |].
  exact (entity_update_keeps_identity plainPlatform (taskService plainPlatform)
           "t1" markDone "u1" oneTask
           (fst (Repository.update plainPlatform (taskRepository plainPlatform)
                   "t1" markDone "u1" oneTask))
           (snd (Repository.update plainPlatform (taskRepository plainPlatform)
                   "t1" markDone "u1" oneTask))
           "id" Hservice eq_refl (or_introl eq_refl)).
Defined.


Lemma deleting_a_company_cascades_witness :
  exists db',
    Repository.delete plainPlatform (companyRepository plainPlatform) "c1" "u1" acmeStore
    = (Ok tt, db')
    /\ (forall row, In row (Pg.tableRows "deals" db') ->
                    Pg.columnIs "company_id" (JStr "c1") row = false)
    /\ Pg.tableRows "contacts" db' = [withoutCompany "c1" acmeContact].
Proof.
  destruct (deleting_a_company_cascades plainPlatform "c1" "u1" acmeStore eq_refl)
    as (db' & Hdeleted & _ & Hdeals & Hcontacts & _).
  - assert (List.filter (Pg.rowHasId "c1") (Pg.tableRows "companies" acmeStore) = [acmeRow])
      as -> by reflexivity.
    discriminate.
  - exists db'. split; [exact Hdeleted | split; [exact Hdeals | exact Hcontacts]].
Defined.

Lemma failed_mutations_leave_no_audit_record_witness :
  In (companyService strictPlatform) (entityServices strictPlatform)
  /\ Service.create strictPlatform (companyService strictPlatform) ∅ "u1" ∅
     = (Err (DatabaseError "Database operation failed" (PgDriverError notNullName)), ∅)
  /\ Audit.auditRecords (∅ : Store) = Audit.auditRecords (∅ : Store).
Proof.
  assert (Hservice : In (companyService strictPlatform) (entityServices strictPlatform))
    by (simpl; tauto).
  assert (Hthrown : Service.create strictPlatform (companyService strictPlatform) ∅ "u1" ∅
                    = (Err (DatabaseError "Database operation failed"
                              (PgDriverError notNullName)), ∅))
    by reflexivity.
  split; [exact Hservice | split; [exact Hthrown |]].
  exact (proj1 (failed_mutations_leave_no_audit_record strictPlatform
                  (companyService strictPlatform) Hservice) _ _ _ _ _ Hthrown).
Defined.

Lemma failed_create_keeps_the_entity_only_if_the_audit_write_failed_witness :
  Service.create strictPlatform (companyService strictPlatform) ∅ "u1" ∅
  = (Err (DatabaseError "Database operation failed" (PgDriverError notNullName)), ∅)
  /\ ((∅ : Store) = ∅
      \/ exists orig row,
           DatabaseError "Database operation failed" (PgDriverError notNullName)
           = DatabaseError "Failed to create audit log" orig
           /\ (∅ : Store) = <["companies" := Pg.tableRows "companies" ∅ ++ [row]]> ∅).
Proof.
  assert (Hthrown : Service.create strictPlatform (companyService strictPlatform) ∅ "u1" ∅
                    = (Err (DatabaseError "Database operation failed"
                              (PgDriverError notNullName)), ∅))
    by reflexivity.
  split; [exact Hthrown |].
  exact (failed_create_keeps_the_entity_only_if_the_audit_write_failed strictPlatform
           (companyService strictPlatform) ∅ "u1" ∅ _ _ Hthrown).
Defined.

Lemma invalid_custom_fields_stop_the_mutation_before_any_write_witness :
  CustomFields.validateCustomFields (Date_getTime plainPlatform)
    (Date_throws plainPlatform) [] unknownField
  = Err (ValidationError "Custom field validation failed" unknownFieldErrors)
  /\ Service.create plainPlatform (companyService plainPlatform) acmeWithUnknownField "u1" ∅
     = (Err (ValidationError "Custom field validation failed" unknownFieldErrors), ∅).
Proof.
  assert (Hinvalid : CustomFields.validateCustomFields (Date_getTime plainPlatform)
                       (Date_throws plainPlatform) [] unknownField
                     = Err (ValidationError "Custom field validation failed"
                              unknownFieldErrors))
    by reflexivity.
  split; [exact Hinvalid |].
  apply (proj1 (invalid_custom_fields_stop_the_mutation_before_any_write plainPlatform
                  (companyService plainPlatform) acmeWithUnknownField acmeWithUnknownField
                  unknownField "u1" ∅
                  (ValidationError "Custom field validation failed" unknownFieldErrors)
                  eq_refl ltac:(discriminate) eq_refl
                  ltac:(discriminate)
                  eq_refl Hinvalid)).
  reflexivity.
Defined.

Lemma update_that_changes_nothing_is_not_audited_witness :
  Service.update plainPlatform (taskService plainPlatform) "t1" ∅ "u1" oneTask
  = (Ok (mapRowToTask plainPlatform storedTask), oneTask).
Proof.
  apply (update_that_changes_nothing_is_not_audited plainPlatform
           (taskService plainPlatform) "t1" ∅ ∅ "u1" oneTask storedTask []).
  - reflexivity.
  - intros f Hf. simpl in Hf. destruct Hf as [<-|[<-|[<-|[<-|[]]]]]; reflexivity.
  - reflexivity.
  - reflexivity.
  - reflexivity.
Defined.

Lemma transaction_returns_exactly_when_it_commits_witness :
  fst (Transaction.executeInTransaction steadyPool succeedingWork []) = Ok 5
  /\ fst (Transaction.withTransaction steadyPool succeedingWork []) = Ok 5.
Proof.
  pose proof (transaction_returns_exactly_when_it_commits steadyPool succeedingWork [] 5)
    as [Hmanaged Hplain].
  split.
  - apply Hmanaged. exists 7, [Transaction.Query 7 "INSERT INTO deals"].
    split; [reflexivity | split; [reflexivity | split; reflexivity]].
  - apply Hplain. exists 7, [Transaction.Query 7 "INSERT INTO deals"].
    split; [reflexivity | split; [reflexivity | split; reflexivity]].
Defined.

Lemma connect_and_rollback_failures_escape_unwrapped_witness :
  fst (Transaction.executeInTransaction brokenPool failingWork []) = Err connectionLost
  /\ isDatabaseError connectionLost = false.
Proof.
  split; [| reflexivity].
  rewrite (proj1 (proj2 (connect_and_rollback_failures_escape_unwrapped brokenPool
                           failingWork [])
                    7 (NotFoundError "Deal" "42") [Transaction.Query 7 "UPDATE deals"]
                    connectionLost eq_refl eq_refl eq_refl eq_refl)).
  reflexivity.
Defined.

Lemma only_the_first_commit_or_rollback_takes_effect_witness :
  TransactionHelpers.closeAll steadyPool
    [TransactionHelpers.Commit; TransactionHelpers.Rollback; TransactionHelpers.Commit]
    openContext []
  = (Ok (TransactionHelpers.mkTransactionContext 7 true),
     [Transaction.Query 7 "COMMIT"; Transaction.Release 7])
  /\ [Transaction.Query 7 "COMMIT"; Transaction.Release 7]
     = [] ++ [Transaction.Query 7 "COMMIT"; Transaction.Release 7].
Proof.
  assert (Hrun : TransactionHelpers.closeAll steadyPool
                   [TransactionHelpers.Commit; TransactionHelpers.Rollback;
                    TransactionHelpers.Commit] openContext []
                 = (Ok (TransactionHelpers.mkTransactionContext 7 true),
                    [Transaction.Query 7 "COMMIT"; Transaction.Release 7]))
    by reflexivity.
  split; [exact Hrun |].
  exact (proj1 (only_the_first_commit_or_rollback_takes_effect steadyPool
                  TransactionHelpers.Commit _ openContext _ [] _ eq_refl Hrun)).
Defined.

Lemma helpers_keep_the_connection_when_their_statement_fails_witness :
  TransactionHelpers.close brokenPool TransactionHelpers.Rollback openContext []
  = (Err connectionLost, [Transaction.Query 7 "ROLLBACK"]).
Proof.
  exact (proj1 (proj2 (helpers_keep_the_connection_when_their_statement_fails brokenPool []))
           TransactionHelpers.Rollback openContext connectionLost eq_refl eq_refl).
Defined.

Lemma created_entity_carries_its_id_and_its_creator_witness :
  exists entity db',
    Repository.create plainPlatform (companyRepository plainPlatform) acme "u1" ∅
    = (Ok entity, db')
    /\ entity !! "id" = Some (JStr "0b8f3c1e")
    /\ entity !! "createdBy" = Some (JStr "u1").
Proof.
  eexists _, _. split; [reflexivity |].
  destruct (created_entity_carries_its_id_and_its_creator plainPlatform
              (companyService plainPlatform) acme "u1" ∅ _ _
              (or_intror (or_introl eq_refl)) eq_refl)
    as (Hid & Hby & _).
  split; [exact Hid | exact Hby].
Defined.

Lemma deleting_a_definition_leaves_the_stored_values_witness :
  "tasks" <> "custom_field_definitions"
  /\ Pg.tableRows "tasks"
       (snd (CustomFieldService.deleteCustomFieldDefinition plainPlatform "d3" "admin"
               oneDefinition))
     = Pg.tableRows "tasks" oneDefinition.
Proof.
  assert (Hother : "tasks" <> "custom_field_definitions") by discriminate.
  split; [exact Hother |].
  exact (deleting_a_definition_leaves_the_stored_values plainPlatform "d3" "admin"
           oneDefinition
           (fst (CustomFieldService.deleteCustomFieldDefinition plainPlatform "d3" "admin"
                   oneDefinition))
           (snd (CustomFieldService.deleteCustomFieldDefinition plainPlatform "d3" "admin"
                   oneDefinition))
           "tasks" eq_refl Hother).
Defined.
